(** * font-metrics.js: vertical metrics editing and the hhea binary patch

    A shallow embedding of the metric computation, the structured edit of
    the OS/2 and hhea tables and the binary patcher [patchHheaTable] of
    font-metrics.js, with the properties of the design document stated
    against it.

    JavaScript numbers are IEEE 754 binary64 values; they are modelled by
    the executable specification [spec_float] of the standard library, with
    precision 53 and maximal exponent 1024.  Buffers are lists of bytes;
    offsets and lengths are integers.  A function that may throw returns a
    [result]; the console is threaded through the functions that print, and
    the ambient [options.verbose] is passed to them.  The libraries and the
    system stay outside: fontkit, the WOFF2 codecs, the parser and the
    serializer of opentype.js, the path and file system modules of Node and
    the commands of the test harness are parameters, which return or
    throw.  The scripts compress-woff2.js and test-formats.js are embedded
    too. *)

From Stdlib Require Import ZArith List Bool Lia SpecFloat.
From Stdlib Require Import Strings.Byte.
From Stdlib Require Ascii String.
From stdpp Require Import base list.
From Equations Require Import Equations.

Local Open Scope Z_scope.

(** ** JavaScript numbers *)

Module JS.

Definition prec : Z := 53.
Definition emax : Z := 1024.

Definition number : Type := spec_float.

Definition NaN : number := S754_nan.

(** A numeric literal that denotes an integer. *)
Definition of_Z (z : Z) : number := binary_normalize prec emax z 0 false.

(** A decimal literal [p/q], as the double nearest to the quotient. *)
Definition of_ratio (p q : Z) : number := SFdiv prec emax (of_Z p) (of_Z q).

Definition mul : number -> number -> number := SFmul prec emax.
Definition div : number -> number -> number := SFdiv prec emax.
Definition neg : number -> number := SFopp.

(** [x < y], [x > y], [x <= y], [x >= y] and [x === y] on numbers. *)
Definition ltb : number -> number -> bool := SFltb.
Definition gtb (x y : number) : bool := SFltb y x.
Definition leb : number -> number -> bool := SFleb.
Definition geb (x y : number) : bool := SFleb y x.
Definition eqb : number -> number -> bool := SFeqb.

(** ToIntegerOrInfinity restricted to what the integer conversions need:
    the value truncated toward zero, and 0 for NaN, the infinities and the
    zeros. *)
Definition trunc (x : number) : Z :=
  match x with
  | S754_finite s m e =>
      let q := if 0 <=? e then Zpos m * 2 ^ e else Zpos m / 2 ^ (- e) in
      if s then - q else q
  | _ => 0
  end.

Definition ToUint32 (x : number) : Z := trunc x mod 2 ^ 32.

Definition ToInt32 (x : number) : Z :=
  let k := trunc x mod 2 ^ 32 in
  if 2 ^ 31 <=? k then k - 2 ^ 32 else k.

Definition ToUint8 (x : number) : Z := trunc x mod 2 ^ 8.

(** [x | y]. *)
Definition bitor (x y : number) : number :=
  of_Z (Z.lor (ToInt32 x) (ToInt32 y)).

(** [x >>> n] for a literal shift count [n]. *)
Definition ushr (x : number) (n : Z) : number :=
  of_Z (Z.shiftr (ToUint32 x) (n mod 32)).

(** [floor (x + 1/2)] for the finite value [x = (-1)^s * m * 2^e],
    computed exactly. *)
Definition floor_half (s : bool) (m : positive) (e : Z) : Z :=
  let n := if s then Zneg m else Zpos m in
  if 0 <=? e then n * 2 ^ e
  else (2 * n + 2 ^ (- e)) / 2 ^ (1 - e).

(** [Math.round]: NaN, the infinities, the zeros and the integers are
    returned as they are; a value in [-0.5, 0) gives -0 and one in
    (0, 0.5) gives +0; any other value gives the nearest integer, the
    larger one at a tie. *)
Definition Math_round (x : number) : number :=
  match x with
  | S754_finite s m e =>
      if 0 <=? e then x
      else match floor_half s m e with
           | 0 => S754_zero s
           | n => of_Z n
           end
  | _ => x
  end.

Definition Math_abs : number -> number := SFabs.

(** Values of object properties: a number, or [undefined] for a property
    that is absent. *)
Inductive value : Type :=
| Undefined
| Num (x : number).

(** ToBoolean: [undefined], NaN and the two zeros are falsy. *)
Definition truthy (v : value) : bool :=
  match v with
  | Undefined => false
  | Num (S754_zero _) => false
  | Num S754_nan => false
  | Num _ => true
  end.

(** [a || b]. *)
Definition or_else (a b : value) : value := if truthy a then a else b.

Definition ToNumber (v : value) : number :=
  match v with
  | Undefined => NaN
  | Num x => x
  end.

End JS.

Import JS.

(** ** Buffers *)

Abbreviation Buffer := (list byte).

Definition len (b : Buffer) : Z := Z.of_nat (length b).

Definition Z_of_byte (b : byte) : Z := Z.of_N (Byte.to_N b).

(** Storing a number into a byte array keeps its low eight bits. *)
Definition byte_of_Z (z : Z) : byte :=
  match Byte.of_N (Z.to_N (z mod 256)) with
  | Some b => b
  | None => x00
  end.

(** [buf[i]]: [None] stands for [undefined], outside of the buffer. *)
Definition get (buf : Buffer) (i : Z) : option byte :=
  if (0 <=? i) && (i <? len buf) then buf !! Z.to_nat i else None.

(** [buf[i] = v] on a byte array: nothing happens outside of it. *)
Definition set (buf : Buffer) (i : Z) (v : Z) : Buffer :=
  if (0 <=? i) && (i <? len buf) then <[Z.to_nat i := byte_of_Z v]> buf
  else buf.

(** An index of [subarray], relative to the end when negative, clamped
    to the buffer. *)
Definition clamp_index (buf : Buffer) (i : Z) : Z :=
  if i <? 0 then Z.max (len buf + i) 0 else Z.min i (len buf).

Definition subarray (buf : Buffer) (s e : Z) : Buffer :=
  let s' := clamp_index buf s in
  let e' := clamp_index buf e in
  take (Z.to_nat (e' - s')) (drop (Z.to_nat s') buf).

Fixpoint equals (a b : Buffer) : bool :=
  match a, b with
  | [], [] => true
  | x :: a', y :: b' => Byte.eqb x y && equals a' b'
  | _, _ => false
  end.

(** [Buffer.from('hhea')]. *)
Definition hheaTag : Buffer := [x68; x68; x65; x61].

(** ** Exceptions *)

Inductive error : Type :=
| ERR_OUT_OF_RANGE_value (v : number)
| ERR_OUT_OF_RANGE_offset (offset : Z)
| ERR_BUFFER_OUT_OF_BOUNDS
| SerializerError                       (* thrown by font.toArrayBuffer() *)
| SystemError                           (* thrown by fs.writeFileSync *)
| Failed_to_save_font (cause : error).

Inductive result (A : Type) : Type :=
| Ok (a : A)
| Throw (e : error).
Arguments Ok {A} a.
Arguments Throw {A} e.

Definition boundsError {A} (buf : Buffer) (offset : Z) (length : Z) : result A :=
  if length <? 0 then Throw ERR_BUFFER_OUT_OF_BOUNDS
  else Throw (ERR_OUT_OF_RANGE_offset offset).

(** [buf.readUInt32BE(offset)] *)
Definition readUInt32BE (buf : Buffer) (offset : Z) : result Z :=
  match get buf offset, get buf (offset + 3) with
  | Some first, Some last =>
      match get buf (offset + 1), get buf (offset + 2) with
      | Some b1, Some b2 =>
          Ok (Z_of_byte first * 2 ^ 24 + Z_of_byte b1 * 2 ^ 16
              + Z_of_byte b2 * 2 ^ 8 + Z_of_byte last)
      | _, _ => boundsError buf offset (len buf - 4)
      end
  | _, _ => boundsError buf offset (len buf - 4)
  end.

(** [buf.writeInt16BE(value, offset)]: the value is checked against
    [-0x8000, 0x7fff], then the offset against the buffer, then the two
    bytes [value >>> 8] and [value] are stored. *)
Definition writeInt16BE (buf : Buffer) (value : number) (offset : Z) : result Buffer :=
  if gtb value (of_Z 32767) || ltb value (of_Z (-32768))
  then Throw (ERR_OUT_OF_RANGE_value value)
  else match get buf offset, get buf (offset + 1) with
       | Some _, Some _ =>
           let buf1 := set buf offset (ToUint8 (ushr value 8)) in
           Ok (set buf1 (offset + 1) (ToUint8 value))
       | _, _ => boundsError buf offset (len buf - 2)
       end.

(** [buf.readInt16BE(offset)], the inverse of the write; used to state
    what the patch stores. *)
Definition readInt16BE (buf : Buffer) (offset : Z) : result Z :=
  match get buf offset, get buf (offset + 1) with
  | Some first, Some last =>
      let val := Z_of_byte first * 2 ^ 8 + Z_of_byte last in
      Ok (if 2 ^ 15 <=? val then val - 2 ^ 16 else val)
  | _, _ => boundsError buf offset (len buf - 2)
  end.

(** ** The console *)

Inductive line : Type :=
| WarnNoOS2                       (* Font has no OS/2 table *)
| WarnNoHhea                      (* Font has no hhea table *)
| WarnCouldNotFindHhea            (* Could not find hhea table for binary patching *)
| WarnBinaryPatchingFailed (e : error)
| WarnCouldNotVerify
| LogNewMetrics (a d g : number)
| LogUpdatedOS2
| LogRecreatedHhea (a d g : number)
| LogFoundHhea (offset : Z)
| LogBinaryPatched (a d g : number) (offset : Z)
| LogFontSaved
| ErrorProcessingFont (e : error).

(** Computations that print to the console and may throw. *)
Definition M (A : Type) : Type := list line -> result A * list line.

Definition ret {A} (a : A) : M A := fun out => (Ok a, out).
Definition throw {A} (e : error) : M A := fun out => (Throw e, out).
Definition bind {A B} (m : M A) (k : A -> M B) : M B :=
  fun out => match m out with
             | (Ok a, out') => k a out'
             | (Throw e, out') => (Throw e, out')
             end.
Definition console (l : line) : M unit := fun out => (Ok tt, out ++ [l]).
Definition lift {A} (r : result A) : M A := fun out => (r, out).
Definition when (b : bool) (m : M unit) : M unit := if b then m else ret tt.
(** [try { m } catch (error) { h error }] *)
Definition try_catch {A} (m : M A) (h : error -> M A) : M A :=
  fun out => match m out with
             | (Ok a, out') => (Ok a, out')
             | (Throw e, out') => h e out'
             end.

Notation "'let*' x := m 'in' k" := (bind m (fun x => k))
  (at level 10, x name, m at level 100, k at level 200).
Notation "'do' m 'in' k" := (bind m (fun _ => k))
  (at level 10, m at level 100, k at level 200).

(** ** The binary patcher *)

(** The loop of [patchHheaTable] over the table directory:
    [for (let i = 12; i < buffer.length - 16; i += 16)], which leaves the
    offset field of the first record tagged hhea in [hheaOffset], or the
    initial -1. *)
Equations? scanDirectory (buffer : Buffer) (i : Z) : result Z
  by wf (Z.to_nat (len buffer - 16 - i)) lt :=
  scanDirectory buffer i with Z_lt_dec i (len buffer - 16) => {
    | left _ with equals (subarray buffer i (i + 4)) hheaTag => {
        | true := readUInt32BE buffer (i + 8);
        | false := scanDirectory buffer (i + 16) };
    | right _ := Ok (-1) }.
Proof. lia. Qed.

(** The [try] block of [patchHheaTable]. *)
Definition patchHheaTable_try (verbose : bool) (buffer : Buffer)
    (ascent descent lineGap : number) : M Buffer :=
  let patchedBuffer := buffer in
  let* hheaOffset := lift (scanDirectory buffer 12) in
  if hheaOffset =? -1 then
    do console WarnCouldNotFindHhea in
    ret patchedBuffer
  else
    do when verbose (console (LogFoundHhea hheaOffset)) in
    let* patchedBuffer := lift (writeInt16BE patchedBuffer ascent (hheaOffset + 4)) in
    let* patchedBuffer := lift (writeInt16BE patchedBuffer descent (hheaOffset + 6)) in
    let* patchedBuffer := lift (writeInt16BE patchedBuffer lineGap (hheaOffset + 8)) in
    do when verbose (console (LogBinaryPatched ascent descent lineGap hheaOffset)) in
    ret patchedBuffer.

(** [patchHheaTable(buffer, ascent, descent, lineGap)]; [verbose] is the
    ambient [options.verbose].  [Buffer.from(buffer)] copies, so that the
    writes never reach [buffer] itself, which the handler returns. *)
Definition patchHheaTable (verbose : bool) (buffer : Buffer)
    (ascent descent lineGap : number) : M Buffer :=
  try_catch
    (patchHheaTable_try verbose buffer ascent descent lineGap)
    (fun error =>
       do console (WarnBinaryPatchingFailed error) in
       ret buffer).

(** ** The font object *)

(** The OS/2 table of the parsed font, with the fields the edit touches. *)
Record OS2 : Type := {
  sTypoAscender : value;
  sTypoDescender : value;
  sTypoLineGap : value;
  usWinAscent : value;
  usWinDescent : value;
  fsSelection : value
}.

Record Hhea : Type := {
  version : value;
  ascender : value;
  descender : value;
  lineGap : value;
  advanceWidthMax : value;
  minLeftSideBearing : value;
  minRightSideBearing : value;
  xMaxExtent : value;
  caretSlopeRise : value;
  caretSlopeRun : value;
  caretOffset : value;
  reserved1 : value;
  reserved2 : value;
  reserved3 : value;
  reserved4 : value;
  metricDataFormat : value;
  numberOfHMetrics : value
}.

(** [font.tables]: a table that is absent is [None]. *)
Record Tables : Type := {
  os2 : option OS2;
  hhea : option Hhea
}.

Record Font : Type := {
  unitsPerEm : number;
  tables : Tables
}.

(** The command line options read by [modifyFont]. *)
Module options.
Record t : Type := {
  ascent : number;
  descent : number;
  lineGap : number;
  verbose : bool;
  list : bool
}.
End options.

(** ** The metric computation *)

Record Metrics : Type := {
  newAscent : number;
  newDescent : number;
  newLineGap : number
}.

(** Lines 137 to 140 of [modifyFont]. *)
Definition computeMetrics (unitsPerEm ascentPercent descentPercent lineGapUnits : number)
    : Metrics :=
  {| newAscent := Math_round (mul unitsPerEm (div ascentPercent (of_Z 100)));
     newDescent := neg (Math_round (mul unitsPerEm (div descentPercent (of_Z 100))));
     newLineGap := Math_round lineGapUnits |}.

(** ** The structured edit *)

(** The assignments to [font.tables.os2]. *)
Definition updateOS2 (t : OS2) (m : Metrics) : OS2 :=
  {| sTypoAscender := Num (newAscent m);
     sTypoDescender := Num (newDescent m);
     sTypoLineGap := Num (newLineGap m);
     usWinAscent := Num (Math_abs (newAscent m));
     usWinDescent := Num (Math_abs (newDescent m));
     fsSelection := Num (bitor (ToNumber (fsSelection t)) (of_Z 128)) |}.

(** The object literal assigned to [font.tables.hhea]. *)
Definition recreateHhea (originalHhea : Hhea) (m : Metrics) : Hhea :=
  {| version := or_else (version originalHhea) (Num (of_Z 65536));
     ascender := Num (newAscent m);
     descender := Num (newDescent m);
     lineGap := Num (newLineGap m);
     advanceWidthMax := advanceWidthMax originalHhea;
     minLeftSideBearing := minLeftSideBearing originalHhea;
     minRightSideBearing := minRightSideBearing originalHhea;
     xMaxExtent := xMaxExtent originalHhea;
     caretSlopeRise := caretSlopeRise originalHhea;
     caretSlopeRun := caretSlopeRun originalHhea;
     caretOffset := caretOffset originalHhea;
     reserved1 := or_else (reserved1 originalHhea) (Num (of_Z 0));
     reserved2 := or_else (reserved2 originalHhea) (Num (of_Z 0));
     reserved3 := or_else (reserved3 originalHhea) (Num (of_Z 0));
     reserved4 := or_else (reserved4 originalHhea) (Num (of_Z 0));
     metricDataFormat := or_else (metricDataFormat originalHhea) (Num (of_Z 0));
     numberOfHMetrics := numberOfHMetrics originalHhea |}.

(** Lines 149 to 204: both tables of the font object are edited in place;
    the font after the edit is returned. *)
Definition editTables (verbose : bool) (font : Font) (m : Metrics) : M Font :=
  let* os2' :=
    match os2 (tables font) with
    | Some t =>
        do when verbose (console LogUpdatedOS2) in
        ret (Some (updateOS2 t m))
    | None =>
        do console WarnNoOS2 in
        ret None
    end in
  let* hhea' :=
    match hhea (tables font) with
    | Some originalHhea =>
        do when verbose
             (console (LogRecreatedHhea (newAscent m) (newDescent m) (newLineGap m))) in
        ret (Some (recreateHhea originalHhea m))
    | None =>
        do console WarnNoHhea in
        ret None
    end in
  ret {| unitsPerEm := unitsPerEm font;
         tables := {| os2 := os2'; hhea := hhea' |} |}.

(** ** The run *)

(** What a run leaves behind: the font object, the bytes written to the
    output path if any, and the exit code if the process was stopped. *)
Record Run : Type := {
  font_after : Font;
  written : option Buffer;
  exit_code : option Z
}.

Section ModifyFont.

(** [font.toArrayBuffer()] of opentype.js, the serializer of the font
    object; it may throw. *)
Variable toArrayBuffer : Font -> result Buffer.

(** [modifyFont] from the parsed font on, lines 132 to 250, with
    [fs.writeFileSync(outputPath, ...)] as the parameter [write]: the
    metrics, the edit of the two tables, and the [try] that serializes,
    patches and writes, whose handler rethrows to the handler of
    [modifyFont], which prints the error and stops the process.  What is
    printed after the line that the font was saved (the read-back of
    verbose mode, the note on the format and the CSS example) is part of
    [Script.main]. *)
Definition editAndSave (write : Buffer -> result unit) (o : options.t) (font : Font)
    : M Run :=
  if options.list o then
    ret {| font_after := font; written := None; exit_code := None |}
  else
    let m := computeMetrics (unitsPerEm font) (options.ascent o)
               (options.descent o) (options.lineGap o) in
    do when (options.verbose o)
         (console (LogNewMetrics (newAscent m) (newDescent m) (newLineGap m))) in
    let* font := editTables (options.verbose o) font m in
    try_catch
      (try_catch
         (let* outputBuffer := lift (toArrayBuffer font) in
          let* patchedBuffer :=
            patchHheaTable (options.verbose o) outputBuffer
              (newAscent m) (newDescent m) (newLineGap m) in
          do lift (write patchedBuffer) in
          do console LogFontSaved in
          ret {| font_after := font; written := Some patchedBuffer;
                 exit_code := None |})
         (fun saveError => throw (Failed_to_save_font saveError)))
      (fun error =>
         do console (ErrorProcessingFont error) in
         ret {| font_after := font; written := None; exit_code := Some 1 |}).

(** The run from the parsed font on when [fs.writeFileSync] returns: the
    statements about the edit and the patch are made on it. *)
Definition modifyFont (o : options.t) (font : Font) : M Run :=
  editAndSave (fun _ => Ok tt) o font.

End ModifyFont.

(** A buffer given by the values of its bytes. *)
Definition bytes_of (l : list Z) : Buffer := map byte_of_Z l.

(** The table count that the SFNT header declares, a big-endian unsigned
    16-bit field at offset 4.  [patchHheaTable] never reads it. *)
Definition numTables (buf : Buffer) : option Z :=
  match get buf 4, get buf 5 with
  | Some hi, Some lo => Some (Z_of_byte hi * 2 ^ 8 + Z_of_byte lo)
  | _, _ => None
  end.

(** ** File names and format keywords *)

(** Strings are sequences of ASCII characters.  [toLowerCase] is
    [String.prototype.toLowerCase] on them; the method may also change
    characters outside ASCII, which the statements leave out.  The path
    module of Node ([path.parse], [path.join], [path.extname]) is a
    parameter. *)
Module Names.
Import Ascii String.
Local Open Scope string_scope.

Definition lower_char (c : ascii) : ascii :=
  let n := N_of_ascii c in
  if ((65 <=? n) && (n <=? 90))%N then ascii_of_N (n + 32) else c.

Fixpoint toLowerCase (s : string) : string :=
  match s with
  | EmptyString => EmptyString
  | String c s' => String (lower_char c) (toLowerCase s')
  end.

Fixpoint ascii_only (s : string) : bool :=
  match s with
  | EmptyString => true
  | String c s' => (N_of_ascii c <? 128)%N && ascii_only s'
  end.

(** What a property of the object literal [formats] holds: one of its four
    strings, or one of the two objects that every object literal inherits
    under an all-lowercase name, [constructor] and [__proto__]. *)
Inductive property : Type :=
| Str (s : string)
| Object_constructor
| Object_prototype.

(** [formats[key]]; [None] is [undefined]. *)
Definition formats (key : string) : option property :=
  if key =? "woff2" then Some (Str "woff2")
  else if key =? "woff" then Some (Str "woff")
  else if key =? "ttf" then Some (Str "truetype")
  else if key =? "otf" then Some (Str "opentype")
  else if key =? "constructor" then Some Object_constructor
  else if key =? "__proto__" then Some Object_prototype
  else None.

(** [getFormat(ext)]: every value of [formats] is truthy. *)
Definition getFormat (ext : string) : property :=
  match formats (toLowerCase ext) with
  | Some v => v
  | None => Str (toLowerCase ext)
  end.

(** What an external call gives: a value, or an exception with its
    message. *)
Inductive outcome (A : Type) : Type :=
| Returned (a : A)
| Thrown (message : string).
Arguments Returned {A} a.
Arguments Thrown {A} message.

(** What a script leaves behind: the file written, if any, with its path,
    and the exit code, if the process was stopped. *)
Record Outcome : Type := {
  file_written : option (string * list byte);
  exit_status : option Z
}.

(** The object that [path.parse] returns. *)
Record ParsedPath : Type := {
  dir : string;
  base : string;
  ext : string;
  name : string
}.

(** The extension that the output of font-metrics.js gets. *)
Definition outputExt (parsed : ParsedPath) : string :=
  if toLowerCase (ext parsed) =? ".woff2" then ".ttf" else ext parsed.

Section Path.

Variable path_parse : string -> ParsedPath.
Variable path_join : string -> string -> string.

(** [generateOutputPath] of font-metrics.js. *)
Definition generateOutputPath (inputPath : string) : string :=
  let parsed := path_parse inputPath in
  let ext := outputExt parsed in
  path_join (dir parsed) (name parsed ++ "-fixed" ++ ext).

End Path.

End Names.

(** ** font-metrics.js, the script *)

Module Script.
Import Ascii String Names.
Local Open Scope string_scope.

(** What the script prints: its own two errors, the lines of the run from
    the parsed font on, and the lines that follow the saving of the font.
    The listings of the current metrics are calls to the outside that
    print and may throw. *)
Inductive printed : Type :=
| ErrorInputNotFound (inputPath : string)
| ErrorProcessingFont (message : string)
| FromRun (l : line)
| LogVerifying
| LogVerification (verifyFont : Font)
| NoteWoff2Converted (outputPath : string)
| CssExample (outputPath : string) (format : property).

Definition and_then {A B} (x : outcome A) (k : A -> outcome B) : outcome B :=
  match x with
  | Returned a => k a
  | Thrown message => Thrown message
  end.

(** [s.slice(1)] *)
Definition slice1 (s : string) : string :=
  match s with
  | EmptyString => EmptyString
  | String _ rest => rest
  end.

Section Main.

Variable path_parse : string -> ParsedPath.
Variable path_join : string -> string -> string.
Variable path_extname : string -> string.
Variable existsSync : string -> bool.
(** [fontkit.open], and the listing of the metrics that fontkit reads. *)
Variable FontkitFont : Type.
Variable fontkit_open : string -> outcome FontkitFont.
Variable list_fontkit : FontkitFont -> outcome unit.
Variable readFileSync : string -> outcome Buffer.
(** [decompress] of woff2-encoder, and the two lines that verbose mode
    prints about its result. *)
Variable decompress : Buffer -> outcome Buffer.
Variable log_decompressed : Buffer -> outcome unit.
(** [opentype.parse] on the array buffer of the bytes, and the listing of
    the metrics of the parsed font. *)
Variable opentype_parse : Buffer -> outcome Font.
Variable list_metrics : Font -> outcome unit.
Variable toArrayBuffer : Font -> result Buffer.
Variable writeFileSync : string -> Buffer -> result unit.
(** [opentype.loadSync], for the read-back of verbose mode. *)
Variable loadSync : string -> outcome Font.

(** [options.output || generateOutputPath(inputPath)] *)
Definition outputPath (inputPath : string) (output : option string) : string :=
  match output with
  | Some p => if p =? "" then generateOutputPath path_parse path_join inputPath else p
  | None => generateOutputPath path_parse path_join inputPath
  end.

(** [path.extname(inputPath).toLowerCase() === '.woff2'] *)
Definition isWoff2 (inputPath : string) : bool :=
  toLowerCase (path_extname inputPath) =? ".woff2".

(** The first part of [modifyFont], lines 57 to 115, up to the parsed
    font; [None] when the function returns after the listing of a WOFF2
    file. *)
Definition loadFont (inputPath : string) (o : options.t) : outcome (option Font) :=
  if isWoff2 inputPath then
    and_then (fontkit_open inputPath) (fun fontkitFont =>
    and_then (if options.verbose o || options.list o
              then list_fontkit fontkitFont else Returned tt) (fun _ =>
    if options.list o then Returned None
    else
      match and_then (readFileSync inputPath) (fun woff2Buffer =>
            and_then (decompress woff2Buffer) (fun ttfBuffer =>
            and_then (if options.verbose o
                      then log_decompressed ttfBuffer else Returned tt) (fun _ =>
            opentype_parse ttfBuffer)))
      with
      | Returned font => Returned (Some font)
      | Thrown message => Thrown ("WOFF2 decompression failed: " ++ message)
      end))
  else
    and_then (readFileSync inputPath) (fun fontBuffer =>
    and_then (opentype_parse fontBuffer) (fun font =>
    Returned (Some font))).

(** What [modifyFont] prints after the line that the font was saved, lines
    218 to 241: in verbose mode the read-back of the file, inside a [try]
    of its own; the note on the format for a WOFF2 input without
    [options.output]; and the CSS example, with the keyword that
    [getFormat] gives for the extension of the output. *)
Definition afterSave (inputPath : string) (output : option string) (o : options.t)
    : list printed :=
  ((if options.verbose o
    then LogVerifying
         :: match loadSync (outputPath inputPath output) with
            | Returned verifyFont => [LogVerification verifyFont]
            | Thrown _ => [FromRun WarnCouldNotVerify]
            end
    else [])
   ++ (if isWoff2 inputPath
          && match output with
             | Some p => p =? ""
             | None => true
             end
       then [NoteWoff2Converted (outputPath inputPath output)] else [])
   ++ [CssExample (outputPath inputPath output)
         (getFormat (slice1 (path_extname (outputPath inputPath output))))])%list.

(** The script: the check of the input, then [modifyFont]: the load, the
    listing, the run from the parsed font on with the write to the output
    path, and what follows a saved font.  In verbose mode the handler of
    [modifyFont] prints the stack of the error too. *)
Definition main (inputPath : string) (output : option string) (o : options.t)
    : Outcome * list printed :=
  if negb (existsSync inputPath) then
    ({| file_written := None; exit_status := Some 1 |}, [ErrorInputNotFound inputPath])
  else
    match and_then (loadFont inputPath o) (fun loaded =>
          match loaded with
          | None => Returned None
          | Some font =>
              and_then (if options.verbose o || options.list o
                        then list_metrics font else Returned tt) (fun _ =>
              Returned (Some font))
          end)
    with
    | Thrown message =>
        ({| file_written := None; exit_status := Some 1 |}, [ErrorProcessingFont message])
    | Returned None =>
        ({| file_written := None; exit_status := None |}, [])
    | Returned (Some font) =>
        match editAndSave toArrayBuffer (writeFileSync (outputPath inputPath output))
                o font [] with
        | (Ok run, out) =>
            ({| file_written :=
                  option_map (fun bytes => (outputPath inputPath output, bytes))
                    (written run);
                exit_status := exit_code run |},
             (map FromRun out
              ++ match written run with
                 | Some _ => afterSave inputPath output o
                 | None => []
                 end)%list)
        | (Throw e, out) =>
            ({| file_written := None; exit_status := Some 1 |}, map FromRun out)
        end
    end.

End Main.

End Script.

(** ** compress-woff2.js *)

Module CompressWoff2.
Import Ascii String Names.
Local Open Scope string_scope.

(** [['.ttf', '.otf'].includes(inputExt)] *)
Definition supportedInput (inputExt : string) : bool :=
  (inputExt =? ".ttf") || (inputExt =? ".otf").

Inductive line : Type :=
| ErrorInputNotFound (inputPath : string)
| ErrorUnsupportedFormat (inputExt : string)
| LogReading
| LogInputSize (n : Z)
| LogCompressed (inputPath outputPath : string) (n m : Z)
| LogSavedTo (outputPath : string)
| ErrorCompressing (message : string).

Section Script.

Variable path_parse : string -> ParsedPath.
Variable path_join : string -> string -> string.
Variable path_extname : string -> string.
Variable existsSync : string -> bool.
Variable readFileSync : string -> outcome Buffer.
(** [wawoff2.compress] *)
Variable compress : Buffer -> outcome Buffer.
Variable writeFileSync : string -> Buffer -> outcome unit.

Definition generateOutputPath (inputPath : string) : string :=
  let parsed := path_parse inputPath in
  path_join (dir parsed) (name parsed ++ ".woff2").

(** [compressFont]: the read, the codec and the write are inside the
    [try], whose handler prints the message and stops the process.  The
    CSS example of verbose mode is left out: it only prints. *)
Definition compressFont (inputPath outputPath : string) (verbose : bool)
    : Outcome * list line :=
  let out := if verbose then [LogReading] else [] in
  match readFileSync inputPath with
  | Thrown message =>
      ({| file_written := None; exit_status := Some 1 |},
       (out ++ [ErrorCompressing message])%list)
  | Returned inputBuffer =>
      let out :=
        (out ++ (if verbose then [LogInputSize (len inputBuffer)] else []))%list in
      match compress inputBuffer with
      | Thrown message =>
          ({| file_written := None; exit_status := Some 1 |},
           (out ++ [ErrorCompressing message])%list)
      | Returned woff2Buffer =>
          match writeFileSync outputPath woff2Buffer with
          | Thrown message =>
              ({| file_written := None; exit_status := Some 1 |},
               (out ++ [ErrorCompressing message])%list)
          | Returned _ =>
              ({| file_written := Some (outputPath, woff2Buffer); exit_status := None |},
               (out ++ [LogCompressed inputPath outputPath
                          (len inputBuffer) (len woff2Buffer)]
                    ++ (if verbose then [LogSavedTo outputPath] else []))%list)
          end
      end
  end.

(** The script: [output] is [options.output], absent or a string. *)
Definition script (inputPath : string) (output : option string) (verbose : bool)
    : Outcome * list line :=
  if negb (existsSync inputPath) then
    ({| file_written := None; exit_status := Some 1 |}, [ErrorInputNotFound inputPath])
  else
    let inputExt := toLowerCase (path_extname inputPath) in
    if negb (supportedInput inputExt) then
      ({| file_written := None; exit_status := Some 1 |}, [ErrorUnsupportedFormat inputExt])
    else
      let outputPath :=
        match output with
        | Some p => if p =? "" then generateOutputPath inputPath else p
        | None => generateOutputPath inputPath
        end in
      compressFont inputPath outputPath verbose.

End Script.

End CompressWoff2.

(** ** test-formats.js *)

(** The test harness.  The file system is the set of the paths that exist.
    A command run by [execSync] is a call to the outside that exits with 0
    or not ([execSync] throws then) and may change the file system.
    [fs.unlinkSync] removes a path that exists, or throws: always on a path
    that does not exist, and on one that exists when the outside says so
    (a directory, a missing permission), each call of the loop on its own.
    [fs.statSync] on the output file returns or throws as the outside
    says.
    An exception that nothing catches ends the harness.  Of the lines
    printed, the verdicts on the fonts are kept. *)
Module TestFormats.
Import Ascii String Names.
Local Open Scope string_scope.

Inductive Expected : Type := PASS | KNOWN_ISSUE.

Record TestFont : Type := {
  file : string;
  format : string;
  description : string;
  expected : Expected
}.

Definition testFonts : list TestFont :=
  [ {| file := "trade-gothic-next-thin.woff2"; format := "WOFF2";
       description := "Trade Gothic Next Thin (Known working font)";
       expected := PASS |};
    {| file := "test-fonts/Roboto-Regular.ttf"; format := "TTF";
       description := "Roboto Regular (Google Fonts)";
       expected := KNOWN_ISSUE |};
    {| file := "test-fonts/SourceSansPro-Regular.otf"; format := "OTF";
       description := "Source Sans Pro Regular (Adobe Fonts)";
       expected := KNOWN_ISSUE |};
    {| file := "test-fonts/OpenSans-Regular.woff"; format := "WOFF";
       description := "Open Sans Regular (Google Fonts)";
       expected := KNOWN_ISSUE |};
    {| file := "test-fonts/Roboto-Regular.woff2"; format := "WOFF2";
       description := "Roboto Regular (Google Fonts)";
       expected := KNOWN_ISSUE |} ].

Record TestMetrics : Type := { ascent : Z; descent : Z; lineGap : Z }.

Definition testMetrics : TestMetrics := {| ascent := 85; descent := 20; lineGap := 0 |}.

(** The two command lines of font-metrics.js that the harness runs. *)
Inductive command : Type :=
| ListMetrics (file : string)
| Modify (file : string) (metrics : TestMetrics) (outputFile : string).

Definition FS : Type := string -> bool.

(** The file system without the path [p]. *)
Definition remove (fs : FS) (p : string) : FS :=
  fun q => if q =? p then false else fs q.

(** The three calls of [fs.unlinkSync] in the body of the loop: after the
    modified font has been read back, in the [catch] of that read, and in
    the [catch] of the body. *)
Inductive site : Type := AfterVerify | InVerifyCatch | InCatch.

Inductive line : Type :=
| Skip
| TestPassed (format : string)
| FailedCannotRead (format : string)
| FailedNotCreated (format : string)
| KnownIssue (format : string)
| FailedError (format : string).

(** The counters, the file system, the verdicts printed, and whether an
    exception has ended the harness. *)
Record State : Type := {
  passedTests : Z;
  totalTests : Z;
  knownIssues : Z;
  files : FS;
  printed : list line;
  crashed : bool
}.

Section Harness.

(** [path.basename] with a suffix to drop, and [path.extname]. *)
Variable basename : string -> string -> string.
Variable extname : string -> string.
Variable execSync : command -> FS -> bool * FS.
(** Whether [fs.statSync] throws on a path that exists. *)
Variable stat_throws : FS -> string -> bool.
(** Whether this call of [fs.unlinkSync] on a path that exists throws. *)
Variable unlink_throws : site -> FS -> string -> bool.

Definition outputFile (testFont : TestFont) : string :=
  "test-output-" ++ basename (file testFont) (extname (file testFont)) ++ ".ttf".

(** [fs.unlinkSync(p)]: [None] when it throws. *)
Definition unlinkSync (at_ : site) (fs : FS) (p : string) : option FS :=
  if fs p && negb (unlink_throws at_ fs p) then Some (remove fs p) else None.

(** [if (fs.existsSync(p)) fs.unlinkSync(p)] *)
Definition cleanUp (at_ : site) (fs : FS) (p : string) : option FS :=
  if fs p then unlinkSync at_ fs p else Some fs.

(** The [catch] of the body of the loop, entered from the state [s] with
    the file system [fs] that the statement that threw left.  A throw of
    its clean-up is caught by nothing. *)
Definition caught (s : State) (testFont : TestFont) (fs : FS) : State :=
  let known := match expected testFont with
               | KNOWN_ISSUE => knownIssues s + 1
               | PASS => knownIssues s
               end in
  let verdict := match expected testFont with
                 | KNOWN_ISSUE => KnownIssue (format testFont)
                 | PASS => FailedError (format testFont)
                 end in
  match cleanUp InCatch fs (outputFile testFont) with
  | Some fs' =>
      {| passedTests := passedTests s; totalTests := totalTests s;
         knownIssues := known; files := fs';
         printed := (printed s ++ [verdict])%list; crashed := false |}
  | None =>
      {| passedTests := passedTests s; totalTests := totalTests s;
         knownIssues := known; files := fs;
         printed := (printed s ++ [verdict])%list; crashed := true |}
  end.

(** The [catch] of the read of the modified font, inside the [try] of the
    body: a throw of its clean-up is caught by the [catch] of the body. *)
Definition verifyCaught (s : State) (testFont : TestFont) (fs : FS) : State :=
  let s' := {| passedTests := passedTests s; totalTests := totalTests s;
               knownIssues := knownIssues s; files := fs;
               printed := (printed s ++ [FailedCannotRead (format testFont)])%list;
               crashed := false |} in
  match cleanUp InVerifyCatch fs (outputFile testFont) with
  | Some fs' =>
      {| passedTests := passedTests s'; totalTests := totalTests s';
         knownIssues := knownIssues s'; files := fs';
         printed := printed s'; crashed := false |}
  | None => caught s' testFont fs
  end.

(** The body of the loop over [testFonts]; it is not reached once an
    exception has ended the harness. *)
Definition test (s : State) (testFont : TestFont) : State :=
  if crashed s then s
  else if negb (files s (file testFont)) then
    {| passedTests := passedTests s; totalTests := totalTests s;
       knownIssues := knownIssues s; files := files s;
       printed := (printed s ++ [Skip])%list; crashed := false |}
  else
    let counted := {| passedTests := passedTests s; totalTests := totalTests s + 1;
                      knownIssues := knownIssues s; files := files s;
                      printed := printed s; crashed := false |} in
    match execSync (ListMetrics (file testFont)) (files s) with
    | (false, fs1) => caught counted testFont fs1
    | (true, fs1) =>
        match execSync (Modify (file testFont) testMetrics (outputFile testFont)) fs1 with
        | (false, fs2) => caught counted testFont fs2
        | (true, fs2) =>
            if fs2 (outputFile testFont) then
              if stat_throws fs2 (outputFile testFont) then caught counted testFont fs2
              else
              match execSync (ListMetrics (outputFile testFont)) fs2 with
              | (true, fs3) =>
                  match unlinkSync AfterVerify fs3 (outputFile testFont) with
                  | Some fs4 =>
                      {| passedTests := passedTests s + 1;
                         totalTests := totalTests s + 1;
                         knownIssues := knownIssues s;
                         files := fs4;
                         printed := (printed s ++ [TestPassed (format testFont)])%list;
                         crashed := false |}
                  | None => verifyCaught counted testFont fs3
                  end
              | (false, fs3) => verifyCaught counted testFont fs3
              end
            else
              {| passedTests := passedTests s; totalTests := totalTests s + 1;
                 knownIssues := knownIssues s; files := fs2;
                 printed := (printed s ++ [FailedNotCreated (format testFont)])%list;
                 crashed := false |}
        end
    end.

Definition start (fs : FS) : State :=
  {| passedTests := 0; totalTests := 0; knownIssues := 0; files := fs;
     printed := []; crashed := false |}.

Definition run (fonts : list TestFont) (fs : FS) : State :=
  fold_left test fonts (start fs).

(** The number printed as failed. *)
Definition failedTests (s : State) : Z :=
  totalTests s - passedTests s - knownIssues s.

(** The exit code of the harness: that of [process.exit] after the
    results, or 1 when an exception has ended the harness before. *)
Definition exit_code (s : State) : Z :=
  if crashed s then 1
  else if (0 <? passedTests s)%Z then 0 else 1.

End Harness.

Definition is_skip (l : line) : bool :=
  match l with Skip => true | _ => false end.

Definition is_passed (l : line) : bool :=
  match l with TestPassed _ => true | _ => false end.

Definition is_known (l : line) : bool :=
  match l with KnownIssue _ => true | _ => false end.

Definition is_failed (l : line) : bool :=
  match l with
  | FailedCannotRead _ | FailedNotCreated _ | FailedError _ => true
  | _ => false
  end.

Definition count (p : line -> bool) (l : list line) : Z :=
  Z.of_nat (List.length (List.filter p l)).

Definition indicator (b : bool) : Z := if b then 1 else 0.

(** The counters count the verdicts printed so far, a font with two
    verdicts being counted once. *)
Definition counted (s : State) : Prop :=
  passedTests s = count is_passed (printed s)
  /\ knownIssues s = count is_known (printed s)
  /\ passedTests s + knownIssues s <= totalTests s
  /\ failedTests s <= count is_failed (printed s).

(** No exception has ended the harness, and every font has one verdict. *)
Definition counted_exactly (s : State) : Prop :=
  crashed s = false
  /\ totalTests s = count (fun l => negb (is_skip l)) (printed s)
  /\ failedTests s = count is_failed (printed s).

(** No call of [fs.unlinkSync] on a path that exists throws. *)
Definition unlink_returns (unlink_throws : site -> FS -> string -> bool) : Prop :=
  forall at_ fs p, fs p = true -> unlink_throws at_ fs p = false.

End TestFormats.

(** ** Notions used in the statements *)

(** [x] is not NaN and carries the sign [s]. *)
Definition has_sign (s : bool) (x : number) : Prop :=
  match x with
  | S754_zero s' | S754_infinity s' | S754_finite s' _ _ => s' = s
  | S754_nan => False
  end.

(** The mantissa of the double that holds a positive integer [p] below
    2^53: [p] shifted left to 53 bits. *)
Definition mantissa (p : positive) : positive :=
  match (Zpos (digits2_pos p) - 53)%Z with
  | Zneg k => Pos.iter xO p k
  | _ => p
  end.

(** [x] is a zero or a finite number. *)
Definition finite (x : number) : Prop :=
  match x with
  | S754_zero _ | S754_finite _ _ _ => True
  | _ => False
  end.

(** [x] is a zero or a finite number whose mantissa fits in 53 bits, as
    that of every double does. *)
Definition double (x : number) : Prop :=
  match x with
  | S754_zero _ => True
  | S754_finite _ m _ => Zpos m < 2 ^ 53
  | _ => False
  end.

(** [r] holds an integer: a zero, the double of an integer below 2^53 in
    absolute value, or a finite number with an exponent that is not
    negative. *)
Definition integral (r : number) : Prop :=
  (exists s, r = S754_zero s)
  \/ (exists k, - 2 ^ 53 < k < 2 ^ 53 /\ r = of_Z k)
  \/ (exists s m e, r = S754_finite s m e /\ 0 <= e).

(** [k - 1/2 <= x < k + 1/2] for a finite [x], in exact arithmetic: [k]
    is the integer nearest to [x], and the larger one of the two when [x]
    lies halfway. *)
Definition nearest_half_up (x : number) (k : Z) : Prop :=
  match x with
  | S754_zero _ => k = 0
  | S754_finite s m e =>
      let n := if s then Zneg m else Zpos m in
      if 0 <=? e then k = n * 2 ^ e
      else (2 * k - 1) * 2 ^ (- e) <= 2 * n < (2 * k + 1) * 2 ^ (- e)
  | _ => False
  end.

(** The formula of the design document, [round(unitsPerEm * percent / 100)],
    read from left to right in double arithmetic: the product first, then
    the division.  font-metrics.js does not compute this; the definition is
    there to be compared with [computeMetrics]. *)
Definition round_left_to_right (unitsPerEm percent : number) : number :=
  Math_round (div (mul unitsPerEm percent) (of_Z 100)).

(** The range check of [writeInt16BE]. *)
Definition accepts (value : number) : bool :=
  negb (gtb value (of_Z 32767) || ltb value (of_Z (-32768))).

(** The two bytes that [writeInt16BE] stores. *)
Definition high_byte (value : number) : byte := byte_of_Z (ToUint8 (ushr value 8)).
Definition low_byte (value : number) : byte := byte_of_Z (ToUint8 value).

(** The signed 16-bit value of two bytes, the higher one first. *)
Definition int16_of_bytes (hi lo : byte) : Z :=
  let val := Z_of_byte hi * 2 ^ 8 + Z_of_byte lo in
  if 2 ^ 15 <=? val then val - 2 ^ 16 else val.

(** Whether the four bytes at offset [i] are the tag, as the loop tests it. *)
Definition tagAt (buffer : Buffer) (i : Z) : bool :=
  equals (subarray buffer i (i + 4)) hheaTag.

(** [found buffer i j]: the loop entered with the loop variable [i] stops
    at the record at offset [j], the first one from [i] on that carries the
    tag. *)
Inductive found (buffer : Buffer) : Z -> Z -> Prop :=
| found_here (i : Z) :
    i < len buffer - 16 -> tagAt buffer i = true -> found buffer i i
| found_later (i j : Z) :
    i < len buffer - 16 -> tagAt buffer i = false ->
    found buffer (i + 16) j -> found buffer i j.

(** What verbose mode prints. *)
Definition verbosely (verbose : bool) (l : line) : list line :=
  if verbose then [l] else [].

(** The font object after [editTables]. *)
Definition editedFont (font : Font) (m : Metrics) : Font :=
  {| unitsPerEm := unitsPerEm font;
     tables :=
       {| os2 := match os2 (tables font) with
                 | Some t => Some (updateOS2 t m)
                 | None => None
                 end;
          hhea := match hhea (tables font) with
                  | Some originalHhea => Some (recreateHhea originalHhea m)
                  | None => None
                  end |} |}.

(** What [editTables] prints. *)
Definition editLog (verbose : bool) (font : Font) (m : Metrics) : list line :=
  match os2 (tables font) with
  | Some _ => verbosely verbose LogUpdatedOS2
  | None => [WarnNoOS2]
  end
  ++ match hhea (tables font) with
     | Some _ =>
         verbosely verbose (LogRecreatedHhea (newAscent m) (newDescent m) (newLineGap m))
     | None => [WarnNoHhea]
     end.

(** The metrics of a run. *)
Definition metricsOf (o : options.t) (font : Font) : Metrics :=
  computeMetrics (unitsPerEm font) (options.ascent o) (options.descent o)
    (options.lineGap o).

(** What a run prints before it serializes the font. *)
Definition runLog (o : options.t) (font : Font) : list line :=
  verbosely (options.verbose o)
    (LogNewMetrics (newAscent (metricsOf o font)) (newDescent (metricsOf o font))
       (newLineGap (metricsOf o font)))
  ++ editLog (options.verbose o) font (metricsOf o font).

(** [x] is a zero, or is not NaN and carries the sign [s]. *)
Definition zero_or_sign (s : bool) (x : number) : Prop :=
  (exists s', x = S754_zero s') \/ has_sign s x.

(** The options with the verbosity [v]. *)
Definition with_verbose (v : bool) (o : options.t) : options.t :=
  {| options.ascent := options.ascent o;
     options.descent := options.descent o;
     options.lineGap := options.lineGap o;
     options.verbose := v;
     options.list := options.list o |}.

(** ** Sample containers and fonts *)

(** A container of 64 bytes with one directory record, tagged hhea, whose
    table starts at offset 28. *)
Definition sample_sfnt : Buffer :=
  bytes_of ([0; 1; 0; 0;  0; 1;  0; 16;  0; 0;  0; 0]
            ++ [104; 104; 101; 97;  0; 0; 0; 0;  0; 0; 0; 28;  0; 0; 0; 36]
            ++ [0; 1; 0; 0;  3; 32;  255; 56;  0; 90]
            ++ repeat 7 26).

(** A container that declares one table, head, in its header; the bytes
    of the second 16-byte record, at offset 28, are past the declared
    directory and spell hhea. *)
Definition undeclared_hhea : Buffer :=
  bytes_of ([0; 1; 0; 0;  0; 1;  0; 16;  0; 0;  0; 0]
            ++ [104; 101; 97; 100;  0; 0; 0; 0;  0; 0; 0; 28;  0; 0; 0; 36]
            ++ [104; 104; 101; 97;  0; 0; 0; 0;  0; 0; 0; 44;  0; 0; 0; 4]
            ++ repeat 0 20).

(** A container whose hhea record gives 14 as the offset of the table:
    the patched fields then cover the offset field of the record itself. *)
Definition self_pointing : Buffer :=
  bytes_of ([0; 1; 0; 0;  0; 1;  0; 16;  0; 0;  0; 0]
            ++ [104; 104; 101; 97;  0; 0; 0; 0;  0; 0; 0; 14;  0; 0; 0; 36]
            ++ repeat 0 20).

(** A container whose directory holds one record, tagged head. *)
Definition no_hhea_sfnt : Buffer :=
  bytes_of ([0; 1; 0; 0;  0; 1;  0; 16;  0; 0;  0; 0]
            ++ [104; 101; 97; 100;  0; 0; 0; 0;  0; 0; 0; 28;  0; 0; 0; 36]
            ++ repeat 0 36).

(** An OS/2 table. *)
Definition sample_os2 : OS2 :=
  {| sTypoAscender := Num (of_Z 800);
     sTypoDescender := Num (of_Z (-200));
     sTypoLineGap := Num (of_Z 90);
     usWinAscent := Num (of_Z 950);
     usWinDescent := Num (of_Z 250);
     fsSelection := Num (of_Z 64) |}.

(** An hhea table as read from a container whose version field is zero;
    the reserved fields are absent from the parsed object. *)
Definition sample_hhea : Hhea :=
  {| version := Num (of_Z 0);
     ascender := Num (of_Z 800);
     descender := Num (of_Z (-200));
     lineGap := Num (of_Z 90);
     advanceWidthMax := Num (of_Z 1200);
     minLeftSideBearing := Num (of_Z (-50));
     minRightSideBearing := Num (of_Z (-40));
     xMaxExtent := Num (of_Z 1100);
     caretSlopeRise := Num (of_Z 1);
     caretSlopeRun := Num (of_Z 0);
     caretOffset := Num (of_Z 0);
     reserved1 := Undefined;
     reserved2 := Undefined;
     reserved3 := Undefined;
     reserved4 := Undefined;
     metricDataFormat := Num (of_Z 0);
     numberOfHMetrics := Num (of_Z 3) |}.

(** A font of 1000 units per em with both tables. *)
Definition sample_font : Font :=
  {| unitsPerEm := of_Z 1000;
     tables := {| os2 := Some sample_os2; hhea := Some sample_hhea |} |}.

(** The defaults of the command line: 90 percent, 22 percent, no line gap. *)
Definition default_options : options.t :=
  {| options.ascent := of_Z 90;
     options.descent := of_Z 22;
     options.lineGap := of_Z 0;
     options.verbose := false;
     options.list := false |}.

(** [-a 4000]: an ascent of 40000 units for an em of 1000. *)
Definition tall_options : options.t :=
  {| options.ascent := of_Z 4000;
     options.descent := of_Z 22;
     options.lineGap := of_Z 0;
     options.verbose := false;
     options.list := false |}.

(** [-a 4000 -d 30]: an ascent of 40000 units and a descent of -300 units
    for an em of 1000. *)
Definition tall_deep_options : options.t :=
  {| options.ascent := of_Z 4000;
     options.descent := of_Z 30;
     options.lineGap := of_Z 0;
     options.verbose := false;
     options.list := false |}.

(** [--list] with the defaults. *)
Definition list_options : options.t :=
  {| options.ascent := of_Z 90;
     options.descent := of_Z 22;
     options.lineGap := of_Z 0;
     options.verbose := false;
     options.list := true |}.

(** A [path.parse] that splits every path into the directory [d], the name
    [n] and the extension [e], and a [path.join] with a slash. *)
Module Paths.
Import Ascii String Names.
Local Open Scope string_scope.

Definition parsed_as (d n e : string) (_ : string) : ParsedPath :=
  {| dir := d; base := n ++ e; ext := e; name := n |}.

Definition joined (d f : string) : string := d ++ "/" ++ f.

End Paths.

(** * Properties *)

(** ** Integers as JavaScript numbers *)

Module JSFacts.

Local Abbreviation digits p := (Zpos (digits2_pos p)).

Lemma digits2_pos_bounds (p : positive) :
  2 ^ (digits p - 1) <= Zpos p < 2 ^ digits p.
Proof.
  induction p as [p IH | p IH |]; cbn [digits2_pos].
  - rewrite Pos2Z.inj_succ.
    replace (Z.succ (digits p) - 1) with (Z.succ (digits p - 1)) by lia.
    rewrite !Z.pow_succ_r by lia. lia.
  - rewrite Pos2Z.inj_succ.
    replace (Z.succ (digits p) - 1) with (Z.succ (digits p - 1)) by lia.
    rewrite !Z.pow_succ_r by lia. lia.
  - cbn. lia.
Qed.

Lemma digits_le_prec (p : positive) : Zpos p < 2 ^ 53 -> digits p <= 53.
Proof.
  intros Hp. pose proof (digits2_pos_bounds p) as [Hlo _].
  destruct (Z.le_gt_cases (digits p) 53) as [|Hgt]; [assumption|].
  assert (2 ^ 53 <= 2 ^ (digits p - 1)) by (apply Z.pow_le_mono_r; lia).
  lia.
Qed.

Lemma iter_xO_spec (p k : positive) :
  Zpos (Pos.iter xO p k) = Zpos p * 2 ^ Zpos k
  /\ digits (Pos.iter xO p k) = digits p + Zpos k.
Proof.
  induction k as [|k IH] using Pos.peano_ind.
  - cbn [Pos.iter digits2_pos]. rewrite Pos2Z.inj_succ. lia.
  - rewrite Pos.iter_succ. destruct IH as [IHv IHd].
    cbn [digits2_pos]. rewrite !Pos2Z.inj_succ, Pos2Z.inj_xO, IHv, IHd.
    rewrite Z.pow_succ_r by lia. lia.
Qed.

(** Rounding a mantissa of 53 bits with an exponent in range is exact. *)
Lemma binary_round_aux_canonical (s : bool) (m : positive) (e : Z) :
  digits m = 53 -> -1074 <= e <= 971 ->
  binary_round_aux prec emax s (Zpos m) e loc_Exact = S754_finite s m e.
Proof.
  intros Hd He.
  assert (Hshift : fexp prec emax (Zdigits2 (Zpos m) + e) - e = 0).
  { unfold fexp, emin, prec, emax. cbn [Zdigits2]. rewrite Hd. lia. }
  unfold binary_round_aux, shr_fexp.
  cbn [shr_record_of_loc]. rewrite Hshift. cbn [shr shr_m loc_of_shr_record round_nearest_even].
  rewrite Hshift. cbn [shr shr_m].
  replace (e <=? emax - prec) with true; [reflexivity|].
  symmetry. apply Z.leb_le. unfold emax, prec. lia.
Qed.

Lemma mantissa_spec (p : positive) :
  Zpos p < 2 ^ 53 ->
  Zpos (mantissa p) = Zpos p * 2 ^ (53 - digits p) /\ digits (mantissa p) = 53.
Proof.
  intros Hp. pose proof (digits_le_prec p Hp) as Hd.
  unfold mantissa. destruct (digits p - 53) as [|k|k] eqn:Hk; try lia.
  - replace (53 - digits p) with 0 by lia. split; lia.
  - destruct (iter_xO_spec p k) as [Hv Hdk]. rewrite Hv, Hdk.
    replace (53 - digits p) with (Zpos k) by lia. split; lia.
Qed.

Lemma binary_round_integer (s : bool) (p : positive) :
  Zpos p < 2 ^ 53 ->
  binary_round prec emax s p 0 = S754_finite s (mantissa p) (digits p - 53).
Proof.
  intros Hp. pose proof (digits_le_prec p Hp) as Hd.
  pose proof (mantissa_spec p Hp) as [_ Hm].
  assert (Hpos : 0 < digits p) by lia.
  unfold binary_round, shl_align.
  assert (Hf : fexp prec emax (digits p + 0) = digits p - 53).
  { unfold fexp, emin, prec, emax. lia. }
  rewrite Hf. rewrite Z.sub_0_r.
  unfold mantissa in *. destruct (digits p - 53) as [|k|k] eqn:Hk; try lia.
  - rewrite binary_round_aux_canonical by (try assumption; lia). reflexivity.
  - rewrite binary_round_aux_canonical by (try assumption; lia). reflexivity.
Qed.

Lemma of_Z_pos (p : positive) :
  Zpos p < 2 ^ 53 ->
  of_Z (Zpos p) = S754_finite false (mantissa p) (digits p - 53).
Proof. apply binary_round_integer. Qed.

Lemma of_Z_neg (p : positive) :
  Zpos p < 2 ^ 53 ->
  of_Z (Zneg p) = S754_finite true (mantissa p) (digits p - 53).
Proof. apply binary_round_integer. Qed.

(** An integer below 2^53 in absolute value is represented exactly. *)
Lemma trunc_of_Z (z : Z) : - 2 ^ 53 < z < 2 ^ 53 -> trunc (of_Z z) = z.
Proof.
  intros Hz.
  assert (Hmag : forall s p, Zpos p < 2 ^ 53 ->
            trunc (S754_finite s (mantissa p) (digits p - 53))
            = if s then Zneg p else Zpos p).
  { intros s p Hp. pose proof (digits_le_prec p Hp) as Hd.
    pose proof (mantissa_spec p Hp) as [Hv _].
    cbn [trunc]. rewrite Hv.
    destruct (0 <=? digits p - 53) eqn:He.
    - apply Z.leb_le in He. replace (digits p - 53) with 0 by lia.
      replace (53 - digits p) with 0 by lia. destruct s; lia.
    - apply Z.leb_gt in He.
      replace (- (digits p - 53)) with (53 - digits p) by lia.
      rewrite Z.div_mul by (apply Z.pow_nonzero; lia).
      destruct s; lia. }
  destruct z as [|p|p].
  - reflexivity.
  - rewrite of_Z_pos by lia. apply (Hmag false). lia.
  - rewrite of_Z_neg by lia. apply (Hmag true). lia.
Qed.

(** *** Comparisons *)

Lemma compare_magnitudes (p q : positive) :
  Zpos p < 2 ^ 53 -> Zpos q < 2 ^ 53 ->
  match digits p - 53 ?= digits q - 53 with
  | Lt => Lt
  | Gt => Gt
  | Eq => Pos.compare_cont Eq (mantissa p) (mantissa q)
  end = (Zpos p ?= Zpos q).
Proof.
  intros Hp Hq.
  pose proof (digits2_pos_bounds p) as [Hpl Hpu].
  pose proof (digits2_pos_bounds q) as [Hql Hqu].
  destruct (Z.compare_spec (digits p - 53) (digits q - 53)) as [He|He|He].
  - destruct (mantissa_spec p Hp) as [Hmp _]. destruct (mantissa_spec q Hq) as [Hmq _].
    change (Pos.compare_cont Eq (mantissa p) (mantissa q))
      with (Zpos (mantissa p) ?= Zpos (mantissa q)).
    rewrite Hmp, Hmq. replace (digits q) with (digits p) by lia.
    symmetry. apply Zmult_compare_compat_r. apply Z.lt_gt.
    apply Z.pow_pos_nonneg; [lia|]. pose proof (digits_le_prec p Hp). lia.
  - symmetry. apply Z.compare_lt_iff.
    assert (2 ^ digits p <= 2 ^ (digits q - 1)) by (apply Z.pow_le_mono_r; lia). lia.
  - symmetry. apply Z.compare_gt_iff.
    assert (2 ^ digits q <= 2 ^ (digits p - 1)) by (apply Z.pow_le_mono_r; lia). lia.
Qed.

(** Integers below 2^53 in absolute value compare as numbers the way
    they compare as integers. *)
Lemma SFcompare_of_Z (a b : Z) :
  - 2 ^ 53 < a < 2 ^ 53 -> - 2 ^ 53 < b < 2 ^ 53 ->
  SFcompare (of_Z a) (of_Z b) = Some (a ?= b).
Proof.
  intros Ha Hb.
  destruct a as [|p|p]; destruct b as [|q|q];
    rewrite ?of_Z_pos, ?of_Z_neg by lia; try reflexivity.
  - cbn [SFcompare]. rewrite compare_magnitudes by lia. reflexivity.
  - cbn [SFcompare]. f_equal.
    change (Zneg p ?= Zneg q) with (CompOpp (Zpos p ?= Zpos q)).
    rewrite <- (compare_magnitudes p q) by lia.
    destruct (digits p - 53 ?= digits q - 53); reflexivity.
Qed.

Lemma ltb_of_Z (a b : Z) :
  - 2 ^ 53 < a < 2 ^ 53 -> - 2 ^ 53 < b < 2 ^ 53 ->
  ltb (of_Z a) (of_Z b) = (a <? b).
Proof.
  intros Ha Hb. unfold ltb, SFltb, Z.ltb. rewrite SFcompare_of_Z by assumption. reflexivity.
Qed.

(** *** Signs *)

Lemma iter_pos_invariant {A} (P : A -> Prop) (f : A -> A) :
  (forall x, P x -> P (f x)) -> forall n x, P x -> P (SpecFloat.iter_pos f n x).
Proof.
  intros Hf. induction n as [n IH | n IH |]; intros x Hx; cbn [SpecFloat.iter_pos]; auto.
Qed.

Lemma shr_1_nonneg (mrs : shr_record) : 0 <= shr_m mrs -> 0 <= shr_m (shr_1 mrs).
Proof.
  destruct mrs as [m r t]. cbn [shr_m]. intros Hm.
  destruct m as [|[q|q|]|q]; cbn; lia.
Qed.

Lemma shr_fexp_nonneg (m e : Z) (l : location) :
  0 <= m -> 0 <= shr_m (fst (shr_fexp prec emax m e l)).
Proof.
  intros Hm. unfold shr_fexp, shr.
  assert (H0 : 0 <= shr_m (shr_record_of_loc m l)) by (destruct l as [|[]]; exact Hm).
  destruct (fexp prec emax (Zdigits2 m + e) - e); cbn [fst]; try exact H0.
  apply iter_pos_invariant; [apply shr_1_nonneg | exact H0].
Qed.

Lemma round_nearest_even_nonneg (m : Z) (l : location) :
  0 <= m -> 0 <= round_nearest_even m l.
Proof.
  intros Hm. destruct l as [|[]]; cbn [round_nearest_even]; try lia.
  destruct (Z.even m); lia.
Qed.

(** Rounding a magnitude keeps the sign it is given, and never gives NaN. *)
Lemma binary_round_aux_sign (s : bool) (m e : Z) (l : location) :
  0 <= m -> has_sign s (binary_round_aux prec emax s m e l).
Proof.
  intros Hm. unfold binary_round_aux.
  pose proof (shr_fexp_nonneg m e l Hm) as H1.
  destruct (shr_fexp prec emax m e l) as [mrs' e']. cbn [fst] in H1.
  pose proof (shr_fexp_nonneg _ e' loc_Exact
                (round_nearest_even_nonneg _ (loc_of_shr_record mrs') H1)) as H2.
  destruct (shr_fexp prec emax (round_nearest_even (shr_m mrs') (loc_of_shr_record mrs'))
              e' loc_Exact) as [mrs'' e'']. cbn [fst] in H2.
  destruct (shr_m mrs'') as [|q|q]; [reflexivity | | lia].
  destruct (e'' <=? emax - prec); reflexivity.
Qed.

Lemma of_Z_sign (p : positive) : has_sign false (of_Z (Zpos p)).
Proof.
  unfold of_Z, binary_normalize, binary_round.
  destruct (shl_align p 0 _) as [mz ez]. apply binary_round_aux_sign. lia.
Qed.

(** [x >= 0] holds of the zeros, the positive numbers and +Infinity. *)
Lemma geb_zero_iff (x : number) :
  geb x (of_Z 0) = true <-> (exists s, x = S754_zero s) \/ has_sign false x.
Proof.
  unfold geb, SFleb, of_Z. cbn [binary_normalize SFcompare].
  destruct x as [s|s| |s m e]; cbn [has_sign]; try destruct s; cbn;
    split; intros H;
    first [ reflexivity | discriminate | contradiction
          | left; eexists; reflexivity | right; reflexivity
          | destruct H as [[s' H]|H]; first [discriminate | contradiction] ].
Qed.

Lemma leb_zero_of_sign (x : number) :
  (exists s, x = S754_zero s) \/ has_sign true x -> leb x (of_Z 0) = true.
Proof.
  unfold leb, SFleb, of_Z. cbn [binary_normalize].
  intros [[s ->]|H]; [reflexivity|].
  destruct x as [s|s| |s m e]; cbn [has_sign] in H; try contradiction; subst; reflexivity.
Qed.

Lemma div_nonneg (x : number) (my : positive) (ey : Z) :
  has_sign false x -> has_sign false (div x (S754_finite false my ey)).
Proof.
  destruct x as [s|s| |s mx ex]; cbn [has_sign]; intros Hx; try contradiction; subst.
  - reflexivity.
  - reflexivity.
  - unfold div, SFdiv. cbn [xorb].
    destruct (SFdiv_core_binary prec emax (Zpos mx) ex (Zpos my) ey) as [[mz ez] lz] eqn:Hcore.
    apply binary_round_aux_sign.
    unfold SFdiv_core_binary in Hcore.
    set (s := ex - ey - _) in Hcore.
    set (m' := match s with Zpos _ => Z.shiftl (Zpos mx) s | 0 => Zpos mx | Zneg _ => 0 end) in Hcore.
    assert (Hm' : 0 <= m').
    { subst m'. destruct s; try lia. apply Z.shiftl_nonneg. lia. }
    pose proof (Z.div_pos m' (Zpos my) Hm' ltac:(lia)) as Hq.
    unfold Z.div in Hq. destruct (Z.div_eucl m' (Zpos my)) as [q r].
    cbn [fst] in Hq. congruence.
Qed.

Lemma mul_nonneg (mu : positive) (eu : Z) (x : number) :
  has_sign false x -> has_sign false (mul (S754_finite false mu eu) x).
Proof.
  destruct x as [s|s| |s mx ex]; cbn [has_sign]; intros Hx; try contradiction; subst.
  - reflexivity.
  - reflexivity.
  - unfold mul, SFmul. cbn [xorb]. apply binary_round_aux_sign. lia.
Qed.

Lemma floor_half_nonneg (m : positive) (e : Z) : 0 <= floor_half false m e.
Proof.
  unfold floor_half. destruct (0 <=? e) eqn:He.
  - apply Z.leb_le in He. apply Z.mul_nonneg_nonneg; [lia|]. apply Z.pow_nonneg. lia.
  - apply Z.leb_gt in He. apply Z.div_pos.
    + pose proof (Z.pow_nonneg 2 (- e)). lia.
    + apply Z.pow_pos_nonneg; lia.
Qed.

Lemma Math_round_nonneg (x : number) :
  has_sign false x -> has_sign false (Math_round x).
Proof.
  destruct x as [s|s| |s m e]; cbn [has_sign Math_round]; intros Hx;
    try contradiction; subst; try reflexivity.
  destruct (0 <=? e); [reflexivity|].
  pose proof (floor_half_nonneg m e) as Hn.
  destruct (floor_half false m e) as [|q|q]; [reflexivity | apply of_Z_sign | lia].
Qed.

Lemma has_sign_neg (s : bool) (x : number) :
  has_sign s x -> has_sign (negb s) (neg x).
Proof. destruct x; cbn; intros H; try contradiction; subst; reflexivity. Qed.

(** *** Rounding *)

(** [floor_half] is the nearest integer, the larger one at a tie: for
    [x = n / d] with [d = 2^(-e)], [r - 1/2 <= x < r + 1/2]. *)
Lemma floor_half_nearest (s : bool) (m : positive) (e : Z) :
  e < 0 ->
  let n := if s then Zneg m else Zpos m in
  let d := 2 ^ (- e) in
  let r := floor_half s m e in
  (2 * r - 1) * d <= 2 * n < (2 * r + 1) * d.
Proof.
  intros He n d r. subst r. unfold floor_half.
  replace (0 <=? e) with false by (symmetry; apply Z.leb_gt; lia).
  fold n. fold d. replace (2 ^ (1 - e)) with (2 * d).
  2:{ subst d. replace (1 - e) with (Z.succ (- e)) by lia.
      rewrite Z.pow_succ_r by lia. reflexivity. }
  assert (Hd : 0 < d) by (apply Z.pow_pos_nonneg; lia).
  clearbody n d.
  pose proof (Z.div_mod (2 * n + d) (2 * d) ltac:(lia)) as Hdm.
  pose proof (Z.mod_pos_bound (2 * n + d) (2 * d) ltac:(lia)) as Hmod.
  set (q := (2 * n + d) / (2 * d)) in *. set (t := (2 * n + d) mod (2 * d)) in *.
  clearbody q t. nia.
Qed.

Lemma floor_half_bound (s : bool) (m : positive) (e : Z) :
  e < 0 -> Zpos m < 2 ^ 53 -> - 2 ^ 53 < floor_half s m e < 2 ^ 53.
Proof.
  intros He Hm. pose proof (floor_half_nearest s m e He) as H. cbv zeta in H.
  assert (Hd : 2 <= 2 ^ (- e)).
  { change 2 with (2 ^ 1) at 1. apply Z.pow_le_mono_r; lia. }
  set (d := 2 ^ (- e)) in *. set (r := floor_half s m e) in *.
  destruct s; nia.
Qed.

(** The integer denoted by [Math.round x], for a double [x]. *)
Lemma Math_round_trunc (s : bool) (m : positive) (e : Z) :
  Zpos m < 2 ^ 53 ->
  trunc (Math_round (S754_finite s m e)) = floor_half s m e.
Proof.
  intros Hm. cbn [Math_round]. destruct (0 <=? e) eqn:He.
  - cbn [trunc]. unfold floor_half. rewrite He. destruct s; lia.
  - apply Z.leb_gt in He. pose proof (floor_half_bound s m e He Hm) as Hb.
    destruct (floor_half s m e) as [|q|q] eqn:Hq; [reflexivity | |];
      apply trunc_of_Z; lia.
Qed.

End JSFacts.

Import JSFacts.

(** ** The metric computation *)

(** A positive integer that a number holds exactly is a positive finite
    double. *)
Lemma unitsPerEm_finite (n : Z) :
  0 < n < 2 ^ 53 -> exists m e, of_Z n = S754_finite false m e.
Proof.
  intros Hn. destruct n as [|p|p]; try lia.
  rewrite of_Z_pos by lia. eauto.
Qed.

Lemma hundred_finite : exists m e, of_Z 100 = S754_finite false m e.
Proof. apply unitsPerEm_finite. lia. Qed.

(** The sign contract of the descent, for any positive finite em size. *)
Lemma descent_nonpositive (mu : positive) (eu : Z) (descentPercent : number) :
  geb descentPercent (of_Z 0) = true ->
  leb (neg (Math_round (mul (S754_finite false mu eu)
                          (div descentPercent (of_Z 100))))) (of_Z 0) = true.
Proof.
  intros Hd. apply geb_zero_iff in Hd. destruct hundred_finite as (mh & eh & Hh).
  rewrite Hh. apply leb_zero_of_sign.
  destruct Hd as [[s ->]|Hd].
  - left. cbn. eauto.
  - right. apply (has_sign_neg false), Math_round_nonneg, mul_nonneg, div_nonneg, Hd.
Qed.

Lemma descent_zero (mu : positive) (eu : Z) (descentPercent : number) :
  eqb descentPercent (of_Z 0) = true ->
  eqb (neg (Math_round (mul (S754_finite false mu eu)
                          (div descentPercent (of_Z 100))))) (of_Z 0) = true.
Proof.
  intros Hd. destruct hundred_finite as (mh & eh & Hh). rewrite Hh.
  destruct descentPercent as [s|s| |s m e]; try discriminate Hd;
    destruct s; first [discriminate Hd | reflexivity].
Qed.

(** Shifting a mantissa that is not negative to the right divides it. *)
Lemma shr_1_div2 (mrs : shr_record) :
  0 <= shr_m mrs -> shr_m (shr_1 mrs) = shr_m mrs / 2.
Proof.
  destruct mrs as [m r s]. cbn [shr_m]. intros Hm.
  destruct m as [|[p|p|]|p]; cbn [shr_1 shr_m]; try lia.
  - reflexivity.
  - apply (Z.div_unique (Zpos p~1) 2 (Zpos p) 1); lia.
  - apply (Z.div_unique (Zpos p~0) 2 (Zpos p) 0); lia.
  - reflexivity.
Qed.

Lemma shr_iter_div (k : positive) (mrs : shr_record) :
  0 <= shr_m mrs ->
  shr_m (SpecFloat.iter_pos shr_1 k mrs) = shr_m mrs / 2 ^ Zpos k.
Proof.
  revert mrs. induction k as [k IH|k IH|]; intros mrs Hm; cbn [SpecFloat.iter_pos].
  - pose proof (shr_1_nonneg mrs Hm) as H1.
    assert (H2 : 0 <= shr_m (SpecFloat.iter_pos shr_1 k (shr_1 mrs))).
    { rewrite IH by assumption. apply Z.div_pos; lia. }
    rewrite IH, IH, shr_1_div2 by assumption.
    rewrite !Z.div_div by lia. f_equal.
    replace (Zpos k~1) with (Zpos k + Zpos k + 1) by lia.
    rewrite !Z.pow_add_r by lia. change (2 ^ 1) with 2. ring.
  - assert (H2 : 0 <= shr_m (SpecFloat.iter_pos shr_1 k mrs)).
    { rewrite IH by assumption. apply Z.div_pos; lia. }
    rewrite IH, IH by assumption. rewrite Z.div_div by lia. f_equal.
    replace (Zpos k~0) with (Zpos k + Zpos k) by lia.
    rewrite Z.pow_add_r by lia. reflexivity.
  - rewrite shr_1_div2 by assumption. reflexivity.
Qed.

(** What [shr_fexp] leaves of a mantissa fits in 53 bits. *)
Lemma shr_fexp_bound (m e : Z) (l : location) :
  0 <= m -> shr_m (fst (shr_fexp prec emax m e l)) < 2 ^ 53.
Proof.
  intros Hm. unfold shr_fexp, shr.
  assert (Hrec : shr_m (shr_record_of_loc m l) = m) by (destruct l as [|[]]; reflexivity).
  assert (Hd : m < 2 ^ Zdigits2 m /\ 0 <= Zdigits2 m).
  { destruct m as [|p|p]; [cbn; lia | | lia].
    cbn [Zdigits2]. pose proof (JSFacts.digits2_pos_bounds p). lia. }
  assert (Hn : Zdigits2 m - 53 <= fexp prec emax (Zdigits2 m + e) - e).
  { unfold fexp, prec. lia. }
  destruct (fexp prec emax (Zdigits2 m + e) - e) as [|k|k] eqn:En; cbn [fst].
  - rewrite Hrec. apply Z.lt_le_trans with (2 ^ Zdigits2 m); [lia|].
    apply Z.pow_le_mono_r; lia.
  - rewrite shr_iter_div by (rewrite Hrec; assumption). rewrite Hrec.
    apply Z.div_lt_upper_bound; [lia|].
    rewrite <- Z.pow_add_r by lia.
    apply Z.lt_le_trans with (2 ^ Zdigits2 m); [lia|].
    apply Z.pow_le_mono_r; lia.
  - rewrite Hrec. apply Z.lt_le_trans with (2 ^ Zdigits2 m); [lia|].
    apply Z.pow_le_mono_r; lia.
Qed.

Lemma binary_round_aux_double (s : bool) (m e : Z) (l : location) :
  0 <= m -> finite (binary_round_aux prec emax s m e l) ->
  double (binary_round_aux prec emax s m e l).
Proof.
  intros Hm. unfold binary_round_aux.
  destruct (shr_fexp prec emax m e l) as [mrs' e'] eqn:E1.
  pose proof (shr_fexp_nonneg m e l Hm) as H1. rewrite E1 in H1. cbn [fst] in H1.
  pose proof (round_nearest_even_nonneg (shr_m mrs') (loc_of_shr_record mrs') H1) as H2.
  pose proof (shr_fexp_bound (round_nearest_even (shr_m mrs') (loc_of_shr_record mrs'))
                e' loc_Exact H2) as H3.
  destruct (shr_fexp prec emax (round_nearest_even (shr_m mrs') (loc_of_shr_record mrs'))
              e' loc_Exact) as [mrs'' e''].
  cbn [fst] in H3.
  destruct (shr_m mrs'') as [|q|q]; [trivial | | trivial].
  destruct (e'' <=? emax - prec); [exact (fun _ => H3) | trivial].
Qed.

(** A product that is finite is a double. *)
Lemma mul_double (x y : number) : finite (mul x y) -> double (mul x y).
Proof.
  destruct x as [sx|sx| |sx mx ex], y as [sy|sy| |sy my ey]; cbn; trivial.
  apply binary_round_aux_double. lia.
Qed.

(** [Math.round] of a double is an integer, the nearest one, and the
    larger one at a tie. *)
Lemma Math_round_nearest (x : number) :
  double x ->
  integral (Math_round x) /\ nearest_half_up x (trunc (Math_round x)).
Proof.
  destruct x as [s|s| |s m e]; cbn [double]; try contradiction.
  - intros _. split; [left; eauto | reflexivity].
  - intros Hm. split.
    + cbn [Math_round]. destruct (0 <=? e) eqn:He.
      * right. right. exists s, m, e. split; [reflexivity | lia].
      * pose proof (floor_half_bound s m e ltac:(lia) Hm) as Hb.
        destruct (floor_half s m e); [left; eauto | right; left; eauto ..].
    + rewrite Math_round_trunc by assumption. cbn [nearest_half_up].
      destruct (0 <=? e) eqn:He.
      * unfold floor_half. rewrite He. reflexivity.
      * apply floor_half_nearest. lia.
Qed.

Lemma neg_neg (x : number) : neg (neg x) = x.
Proof. destruct x as [s|s| |s m e]; cbn; rewrite ?negb_involutive; reflexivity. Qed.

(** C6.  For a positive integer em size, the ascent is the integer nearest
    to the double [unitsPerEm * (ascentPercent / 100)], the quotient being
    rounded to a double before the product is, and the larger integer at a
    tie; the descent is the opposite of the integer nearest to
    [unitsPerEm * (descentPercent / 100)], and the line gap the integer
    nearest to [lineGapUnits].  The descent is at most zero when the
    percentage is at least zero and is zero when the percentage is zero,
    and the two examples of the design document evaluate as it says. *)
Theorem computeMetrics_rounds (n : Z) (ascentPercent descentPercent lineGapUnits : number) :
  0 < n < 2 ^ 53 ->
  let m := computeMetrics (of_Z n) ascentPercent descentPercent lineGapUnits in
  let x := mul (of_Z n) (div ascentPercent (of_Z 100)) in
  let y := mul (of_Z n) (div descentPercent (of_Z 100)) in
  (finite x ->
   integral (newAscent m) /\ nearest_half_up x (trunc (newAscent m)))
  /\ (finite y ->
      integral (neg (newDescent m))
      /\ nearest_half_up y (trunc (neg (newDescent m))))
  /\ (double lineGapUnits ->
      integral (newLineGap m)
      /\ nearest_half_up lineGapUnits (trunc (newLineGap m)))
  /\ (geb descentPercent (of_Z 0) = true -> leb (newDescent m) (of_Z 0) = true)
  /\ (eqb descentPercent (of_Z 0) = true -> eqb (newDescent m) (of_Z 0) = true)
  /\ computeMetrics (of_Z 1000) (of_Z 90) (of_Z 22) (of_Z 0)
     = {| newAscent := of_Z 900; newDescent := of_Z (-220); newLineGap := of_Z 0 |}
  /\ computeMetrics (of_Z 2048) (of_Z 80) (of_Z 20) (of_Z 10)
     = {| newAscent := of_Z 1638; newDescent := of_Z (-410); newLineGap := of_Z 10 |}.
Proof.
  intros Hn m x y. destruct (unitsPerEm_finite n Hn) as (mu & eu & Hu).
  subst m x y. unfold computeMetrics. cbn [newAscent newDescent newLineGap].
  split; [intros Hx; apply Math_round_nearest, mul_double, Hx|].
  split; [intros Hy; rewrite neg_neg; apply Math_round_nearest, mul_double, Hy|].
  split; [apply Math_round_nearest|].
  rewrite Hu.
  split; [apply descent_nonpositive|].
  split; [apply descent_zero|].
  split; vm_compute; reflexivity.
Qed.

(** 2048 units per em at 90 percent: the product is the double nearest to
    1843.2, and the ascent is 1843. *)
Lemma computeMetrics_rounds_witness :
  nearest_half_up (mul (of_Z 2048) (div (of_Z 90) (of_Z 100)))
    (trunc (newAscent (computeMetrics (of_Z 2048) (of_Z 90) (of_Z 22) (of_Z 0))))
  /\ newAscent (computeMetrics (of_Z 2048) (of_Z 90) (of_Z 22) (of_Z 0)) = of_Z 1843.
Proof.
  destruct (computeMetrics_rounds 2048 (of_Z 90) (of_Z 22) (of_Z 0) ltac:(lia))
    as (Hround & _).
  split; [apply Hround; exact I | reflexivity].
Defined.

(** C6, counterexample.  On an em of 1000 units, 1.45 percent gives an
    ascent of 14, where the formula of the design document read from left
    to right gives 15: 1.45 / 100 is rounded to a double below 0.0145, and
    the product 14.499999999999998 is below the tie that 1000 * 1.45 / 100
    reaches.  The same happens at 85.05 percent, with 850 against 851. *)
Theorem ascent_is_not_rounded_left_to_right :
  newAscent (computeMetrics (of_Z 1000) (of_ratio 145 100) (of_Z 22) (of_Z 0))
  = of_Z 14
  /\ round_left_to_right (of_Z 1000) (of_ratio 145 100) = of_Z 15
  /\ newAscent (computeMetrics (of_Z 1000) (of_ratio 8505 100) (of_Z 22) (of_Z 0))
     = of_Z 850
  /\ round_left_to_right (of_Z 1000) (of_ratio 8505 100) = of_Z 851.
Proof. repeat split; vm_compute; reflexivity. Qed.

(** ** Buffers *)

Lemma Z_of_byte_range (b : byte) : 0 <= Z_of_byte b < 256.
Proof.
  unfold Z_of_byte. pose proof (Byte.to_N_bounded b) as H.
  apply N2Z.inj_le in H. change (Z.of_N 255) with 255 in H.
  pose proof (N2Z.is_nonneg (Byte.to_N b)). lia.
Qed.

Lemma Z_of_byte_of_Z (v : Z) : Z_of_byte (byte_of_Z v) = v mod 256.
Proof.
  pose proof (Z.mod_pos_bound v 256 ltac:(lia)) as Hv.
  unfold byte_of_Z, Z_of_byte.
  destruct (Byte.of_N (Z.to_N (v mod 256))) as [b|] eqn:Hb.
  - apply Byte.to_of_N in Hb. rewrite Hb. apply Z2N.id. lia.
  - apply Byte.of_N_None_iff in Hb.
    apply N2Z.inj_lt in Hb. rewrite Z2N.id in Hb by lia.
    change (Z.of_N 255) with 255 in Hb. lia.
Qed.

Lemma get_of_nat (buf : Buffer) (k : nat) : get buf (Z.of_nat k) = buf !! k.
Proof.
  unfold get, len. destruct (Z.of_nat k <? Z.of_nat (length buf)) eqn:Hk.
  - replace (0 <=? Z.of_nat k) with true by (symmetry; apply Z.leb_le; lia).
    cbn [andb]. rewrite Nat2Z.id. reflexivity.
  - rewrite andb_false_r. symmetry. apply lookup_ge_None_2.
    apply Z.ltb_ge in Hk. lia.
Qed.

Lemma get_inside (buf : Buffer) (i : Z) :
  0 <= i < len buf -> exists x, get buf i = Some x.
Proof.
  intros Hi. rewrite <- (Z2Nat.id i) by lia. rewrite get_of_nat.
  destruct (lookup_lt_is_Some_2 buf (Z.to_nat i)) as [x Hx]; [unfold len in Hi; lia|].
  eauto.
Qed.

Lemma get_outside (buf : Buffer) (i : Z) :
  ~ (0 <= i < len buf) -> get buf i = None.
Proof.
  intros Hi. unfold get.
  destruct (0 <=? i) eqn:H0; [|reflexivity].
  destruct (i <? len buf) eqn:H1; [|reflexivity].
  apply Z.leb_le in H0. apply Z.ltb_lt in H1. lia.
Qed.

Lemma get_Some_inside (buf : Buffer) (i : Z) (x : byte) :
  get buf i = Some x -> 0 <= i < len buf.
Proof.
  intros Hx. destruct (Z_le_dec 0 i) as [H0|H0];
    [destruct (Z_lt_dec i (len buf)) as [H1|H1]; [lia|]|];
    rewrite get_outside in Hx by lia; discriminate.
Qed.

Lemma buffer_ext (a b : Buffer) : (forall i, get a i = get b i) -> a = b.
Proof.
  intros H. apply list_eq. intros k. rewrite <- !get_of_nat. apply H.
Qed.

Lemma len_set (buf : Buffer) (i v : Z) : len (set buf i v) = len buf.
Proof.
  unfold set, len. destruct ((0 <=? i) && (i <? _)); [|reflexivity].
  rewrite length_insert. reflexivity.
Qed.

Lemma get_set (buf : Buffer) (i j v : Z) :
  get (set buf i v) j
  = if (j =? i) && (0 <=? i) && (i <? len buf) then Some (byte_of_Z v) else get buf j.
Proof.
  destruct (Z.eqb_spec j i) as [->|Hne]; cbn [andb].
  - destruct ((0 <=? i) && (i <? len buf)) eqn:Hi.
    + apply andb_true_iff in Hi as [H0 H1]. apply Z.leb_le in H0. apply Z.ltb_lt in H1.
      unfold get. rewrite len_set.
      replace ((0 <=? i) && (i <? len buf)) with true
        by (symmetry; apply andb_true_iff; split; [apply Z.leb_le | apply Z.ltb_lt]; lia).
      unfold set.
      replace ((0 <=? i) && (i <? len buf)) with true
        by (symmetry; apply andb_true_iff; split; [apply Z.leb_le | apply Z.ltb_lt]; lia).
      apply list_lookup_insert_eq. unfold len in H1. lia.
    + unfold set. rewrite Hi. reflexivity.
  - unfold get at 1. rewrite len_set. fold (get buf j). unfold get, set.
    destruct ((0 <=? j) && (j <? len buf)) eqn:Hj; [|reflexivity].
    destruct ((0 <=? i) && (i <? len buf)) eqn:Hi; [|reflexivity].
    apply andb_true_iff in Hi as [H0 H1]. apply Z.leb_le in H0.
    apply andb_true_iff in Hj as [H2 H3]. apply Z.leb_le in H2.
    apply list_lookup_insert_ne. lia.
Qed.

Lemma set_same (buf : Buffer) (i v : Z) :
  get buf i = Some (byte_of_Z v) -> set buf i v = buf.
Proof.
  intros H. apply buffer_ext. intros j. rewrite get_set.
  destruct (Z.eqb_spec j i) as [->|]; cbn [andb]; [|reflexivity].
  destruct ((0 <=? i) && (i <? len buf)); congruence.
Qed.

Lemma subarray_ext (a b : Buffer) (s e : Z) :
  len a = len b -> 0 <= s <= e ->
  (forall x, s <= x < e -> get a x = get b x) ->
  subarray a s e = subarray b s e.
Proof.
  intros Hlen Hse Hget. unfold subarray, clamp_index. rewrite Hlen.
  replace (s <? 0) with false by (symmetry; apply Z.ltb_ge; lia).
  replace (e <? 0) with false by (symmetry; apply Z.ltb_ge; lia).
  set (s' := Z.min s (len b)). set (e' := Z.min e (len b)).
  apply list_eq. intros k.
  destruct (Nat.lt_ge_cases k (Z.to_nat (e' - s'))) as [Hk|Hk].
  - rewrite !lookup_take_lt, !lookup_drop by assumption.
    rewrite <- !get_of_nat. apply Hget. subst s' e'. lia.
  - rewrite !lookup_take_ge by assumption. reflexivity.
Qed.

Lemma readUInt32BE_ext (a b : Buffer) (offset : Z) :
  len a = len b ->
  (forall x, offset <= x <= offset + 3 -> get a x = get b x) ->
  readUInt32BE a offset = readUInt32BE b offset.
Proof.
  intros Hlen Hget. unfold readUInt32BE.
  rewrite Hlen, !Hget by lia. reflexivity.
Qed.

Lemma readUInt32BE_inside (buf : Buffer) (offset : Z) :
  0 <= offset -> offset + 3 < len buf ->
  exists o, readUInt32BE buf offset = Ok o /\ 0 <= o < 2 ^ 32.
Proof.
  intros H0 H3. unfold readUInt32BE.
  destruct (get_inside buf offset ltac:(lia)) as [b0 ->].
  destruct (get_inside buf (offset + 1) ltac:(lia)) as [b1 ->].
  destruct (get_inside buf (offset + 2) ltac:(lia)) as [b2 ->].
  destruct (get_inside buf (offset + 3) ltac:(lia)) as [b3 ->].
  eexists. split; [reflexivity|].
  pose proof (Z_of_byte_range b0). pose proof (Z_of_byte_range b1).
  pose proof (Z_of_byte_range b2). pose proof (Z_of_byte_range b3). lia.
Qed.

(** ** The 16-bit write *)

Lemma writeInt16BE_rejects (buf : Buffer) (value : number) (offset : Z) :
  accepts value = false ->
  writeInt16BE buf value offset = Throw (ERR_OUT_OF_RANGE_value value).
Proof.
  unfold accepts, writeInt16BE. intros H. apply negb_false_iff in H. rewrite H. reflexivity.
Qed.

Lemma writeInt16BE_outside (buf : Buffer) (value : number) (offset : Z) :
  ~ (0 <= offset /\ offset + 1 < len buf) ->
  exists e, writeInt16BE buf value offset = Throw e.
Proof.
  intros Hout. unfold writeInt16BE.
  destruct (gtb _ _ || ltb _ _); [eauto|].
  destruct (get buf offset) as [x|] eqn:H0; [|unfold boundsError; destruct (_ <? 0); eauto].
  destruct (get buf (offset + 1)) as [y|] eqn:H1; [|unfold boundsError; destruct (_ <? 0); eauto].
  apply get_Some_inside in H0, H1. lia.
Qed.

Lemma writeInt16BE_inside (buf : Buffer) (value : number) (offset : Z) :
  accepts value = true -> 0 <= offset -> offset + 1 < len buf ->
  writeInt16BE buf value offset
  = Ok (set (set buf offset (ToUint8 (ushr value 8))) (offset + 1) (ToUint8 value)).
Proof.
  unfold accepts, writeInt16BE. intros H H0 H1. apply negb_true_iff in H. rewrite H.
  destruct (get_inside buf offset ltac:(lia)) as [x ->].
  destruct (get_inside buf (offset + 1) ltac:(lia)) as [y ->]. reflexivity.
Qed.

Lemma writeInt16BE_inv (buf buf' : Buffer) (value : number) (offset : Z) :
  writeInt16BE buf value offset = Ok buf' ->
  accepts value = true /\ 0 <= offset /\ offset + 1 < len buf
  /\ len buf' = len buf
  /\ forall j, get buf' j = if j =? offset then Some (high_byte value)
                            else if j =? offset + 1 then Some (low_byte value)
                            else get buf j.
Proof.
  intros Hw.
  destruct (accepts value) eqn:Ha; [|rewrite writeInt16BE_rejects in Hw by assumption; discriminate].
  destruct (Z_le_dec 0 offset) as [H0|H0];
    [destruct (Z_lt_dec (offset + 1) (len buf)) as [H1|H1]|].
  2,3: destruct (writeInt16BE_outside buf value offset ltac:(lia)) as [e He]; congruence.
  rewrite writeInt16BE_inside in Hw by assumption. injection Hw as <-.
  repeat split; try assumption.
  - rewrite !len_set. reflexivity.
  - intros j. rewrite !get_set, !len_set. unfold high_byte, low_byte.
    destruct (Z.eqb_spec j offset) as [->|Hj].
    + replace (offset =? offset + 1) with false by (symmetry; apply Z.eqb_neq; lia).
      replace (0 <=? offset) with true by (symmetry; apply Z.leb_le; lia).
      replace (offset <? len buf) with true by (symmetry; apply Z.ltb_lt; lia).
      reflexivity.
    + destruct (Z.eqb_spec j (offset + 1)) as [->|Hj1]; cbn [andb]; [|reflexivity].
      replace (0 <=? offset + 1) with true by (symmetry; apply Z.leb_le; lia).
      replace (offset + 1 <? len buf) with true by (symmetry; apply Z.ltb_lt; lia).
      reflexivity.
Qed.

Lemma writeInt16BE_stores (buf : Buffer) (value : number) (offset : Z) :
  accepts value = true -> 0 <= offset -> offset + 1 < len buf ->
  exists buf',
    writeInt16BE buf value offset = Ok buf'
    /\ len buf' = len buf
    /\ forall j, get buf' j = if j =? offset then Some (high_byte value)
                              else if j =? offset + 1 then Some (low_byte value)
                              else get buf j.
Proof.
  intros Ha H0 H1. eexists. split; [apply writeInt16BE_inside; assumption|].
  eapply writeInt16BE_inv. apply writeInt16BE_inside; assumption.
Qed.

(** Writing the bytes that are already there changes nothing. *)
Lemma writeInt16BE_same (buf : Buffer) (value : number) (offset : Z) :
  accepts value = true ->
  get buf offset = Some (high_byte value) ->
  get buf (offset + 1) = Some (low_byte value) ->
  writeInt16BE buf value offset = Ok buf.
Proof.
  intros Ha Hh Hl. pose proof (get_Some_inside _ _ _ Hh). pose proof (get_Some_inside _ _ _ Hl).
  rewrite writeInt16BE_inside by (try assumption; lia).
  rewrite (set_same buf offset) by exact Hh.
  rewrite set_same by exact Hl. reflexivity.
Qed.

(** ** The directory scan *)

Lemma scanDirectory_eq (buffer : Buffer) (i : Z) :
  scanDirectory buffer i
  = if Z_lt_dec i (len buffer - 16) then
      if tagAt buffer i then readUInt32BE buffer (i + 8)
      else scanDirectory buffer (i + 16)
    else Ok (-1).
Proof.
  rewrite scanDirectory_equation_1. unfold tagAt.
  destruct (Z_lt_dec i (len buffer - 16)); cbn; [|reflexivity].
  destruct (equals _ _); reflexivity.
Qed.

(** Induction along the loop: the loop variable grows by 16 below
    [buffer.length - 16]. *)
Lemma scan_ind (buffer : Buffer) (P : Z -> Prop) :
  (forall i, (i < len buffer - 16 -> P (i + 16)) -> P i) -> forall i, P i.
Proof.
  intros step i. remember (Z.to_nat (len buffer - 16 - i)) as n eqn:Hn.
  revert i Hn. induction n as [n IH] using lt_wf_ind. intros i Hn.
  apply step. intros Hi. apply (IH (Z.to_nat (len buffer - 16 - (i + 16)))); lia.
Qed.

Lemma scan_found (buffer : Buffer) (i j : Z) :
  found buffer i j -> scanDirectory buffer i = readUInt32BE buffer (j + 8).
Proof.
  induction 1 as [i Hi Ht | i j Hi Ht _ IH]; rewrite scanDirectory_eq;
    destruct (Z_lt_dec i (len buffer - 16)); try lia; rewrite Ht; [reflexivity | exact IH].
Qed.

Lemma found_dec (buffer : Buffer) (i : Z) :
  (exists j, found buffer i j) \/ (forall j, ~ found buffer i j).
Proof.
  induction i as [i IH] using (scan_ind buffer).
  destruct (Z_lt_dec i (len buffer - 16)) as [Hi|Hi].
  - destruct (tagAt buffer i) eqn:Ht.
    + left. exists i. constructor; assumption.
    + destruct (IH Hi) as [[j Hj]|Hno].
      * left. exists j. apply found_later; assumption.
      * right. intros j Hj. inversion Hj; subst; [congruence|]. eapply Hno; eassumption.
  - right. intros j Hj. inversion Hj; subst; lia.
Qed.

Lemma scan_not_found (buffer : Buffer) (i : Z) :
  (forall j, ~ found buffer i j) -> scanDirectory buffer i = Ok (-1).
Proof.
  induction i as [i IH] using (scan_ind buffer). intros Hno.
  rewrite scanDirectory_eq. destruct (Z_lt_dec i (len buffer - 16)) as [Hi|Hi]; [|reflexivity].
  destruct (tagAt buffer i) eqn:Ht.
  - exfalso. apply (Hno i). constructor; assumption.
  - apply IH; [assumption|]. intros j Hj. apply (Hno j). apply found_later; assumption.
Qed.

Lemma found_bounds (buffer : Buffer) (i j : Z) :
  found buffer i j ->
  (exists k, 0 <= k /\ j = i + 16 * k) /\ j < len buffer - 16 /\ tagAt buffer j = true.
Proof.
  induction 1 as [i Hi Ht | i j Hi Ht _ [[k [Hk Hj]] [Hlt Htag]]].
  - split; [exists 0; lia | split; assumption].
  - split; [exists (k + 1); lia | split; assumption].
Qed.

(** The records before the one found do not carry the tag. *)
Lemma found_first (buffer : Buffer) (i j : Z) :
  found buffer i j ->
  forall k, 0 <= k -> i + 16 * k < j -> tagAt buffer (i + 16 * k) = false.
Proof.
  induction 1 as [i Hi Ht | i j Hi Ht Hf IH]; intros k Hk Hlt; [lia|].
  destruct (Z.eq_dec k 0) as [->|Hk0].
  - replace (i + 16 * 0) with i by lia. exact Ht.
  - replace (i + 16 * k) with (i + 16 + 16 * (k - 1)) by lia. apply IH; lia.
Qed.

(** The scan only depends on the bytes up to the tag of the record found. *)
Lemma found_ext (a b : Buffer) (i j : Z) :
  found a i j -> len b = len a -> 0 <= i ->
  (forall x, i <= x < j + 4 -> get b x = get a x) ->
  found b i j.
Proof.
  induction 1 as [i Hi Ht | i j Hi Ht Hf IH]; intros Hlen H0 Hget.
  - apply found_here; [lia|]. unfold tagAt in *.
    rewrite (subarray_ext b a) by (try assumption; try lia; intros; apply Hget; lia).
    exact Ht.
  - pose proof (found_bounds _ _ _ Hf) as [[k [Hk Hj]] _].
    apply found_later; [lia| |].
    + unfold tagAt in *.
      rewrite (subarray_ext b a) by (try assumption; try lia; intros; apply Hget; lia).
      exact Ht.
    + apply IH; [assumption | lia |]. intros x Hx. apply Hget. lia.
Qed.

(** The scan never throws: it ends with -1 when no record carries the
    tag, and with the offset field of the first record that does. *)
Lemma scan_total (buffer : Buffer) :
  (scanDirectory buffer 12 = Ok (-1) /\ forall j, ~ found buffer 12 j)
  \/ (exists j o, found buffer 12 j /\ readUInt32BE buffer (j + 8) = Ok o
                  /\ scanDirectory buffer 12 = Ok o /\ 0 <= o < 2 ^ 32).
Proof.
  destruct (found_dec buffer 12) as [[j Hj]|Hno].
  - right. pose proof (found_bounds _ _ _ Hj) as [[k [Hk Hjk]] [Hlt _]].
    destruct (readUInt32BE_inside buffer (j + 8) ltac:(lia) ltac:(lia)) as [o [Ho Hr]].
    exists j, o. rewrite (scan_found _ _ _ Hj). auto.
  - left. split; [apply scan_not_found|]; assumption.
Qed.

(** ** The binary patcher, case by case *)

Lemma patch_not_found (verbose : bool) (buffer : Buffer) (a d g : number) (out : list line) :
  scanDirectory buffer 12 = Ok (-1) ->
  patchHheaTable_try verbose buffer a d g out = (Ok buffer, out ++ [WarnCouldNotFindHhea])
  /\ patchHheaTable verbose buffer a d g out = (Ok buffer, out ++ [WarnCouldNotFindHhea]).
Proof.
  intros Hs. unfold patchHheaTable, try_catch, patchHheaTable_try, bind, lift.
  rewrite Hs. cbn. auto.
Qed.

Lemma patch_written (verbose : bool) (buffer b1 b2 b3 : Buffer) (a d g : number)
    (o : Z) (out : list line) :
  scanDirectory buffer 12 = Ok o -> o <> -1 ->
  writeInt16BE buffer a (o + 4) = Ok b1 ->
  writeInt16BE b1 d (o + 6) = Ok b2 ->
  writeInt16BE b2 g (o + 8) = Ok b3 ->
  patchHheaTable verbose buffer a d g out
  = (Ok b3, out ++ verbosely verbose (LogFoundHhea o)
                ++ verbosely verbose (LogBinaryPatched a d g o)).
Proof.
  intros Hs Ho H1 H2 H3. unfold patchHheaTable, try_catch, patchHheaTable_try, bind, lift.
  rewrite Hs. apply Z.eqb_neq in Ho. rewrite Ho.
  destruct verbose; cbn; rewrite H1, H2, H3; cbn;
    rewrite <- ?app_assoc, ?app_nil_r; reflexivity.
Qed.

Lemma patch_failed (verbose : bool) (buffer : Buffer) (a d g : number)
    (o : Z) (e : error) (out : list line) :
  scanDirectory buffer 12 = Ok o -> o <> -1 ->
  (writeInt16BE buffer a (o + 4) = Throw e
   \/ (exists b1, writeInt16BE buffer a (o + 4) = Ok b1
                  /\ writeInt16BE b1 d (o + 6) = Throw e)
   \/ (exists b1 b2, writeInt16BE buffer a (o + 4) = Ok b1
                     /\ writeInt16BE b1 d (o + 6) = Ok b2
                     /\ writeInt16BE b2 g (o + 8) = Throw e)) ->
  patchHheaTable_try verbose buffer a d g out
  = (Throw e, out ++ verbosely verbose (LogFoundHhea o))
  /\ patchHheaTable verbose buffer a d g out
     = (Ok buffer, out ++ verbosely verbose (LogFoundHhea o)
                       ++ [WarnBinaryPatchingFailed e]).
Proof.
  intros Hs Ho Hw. unfold patchHheaTable, try_catch, patchHheaTable_try, bind, lift.
  rewrite Hs. apply Z.eqb_neq in Ho. rewrite Ho.
  destruct Hw as [H1|[(b1 & H1 & H2)|(b1 & b2 & H1 & H2 & H3)]];
    destruct verbose; cbn; rewrite ?H1, ?H2, ?H3; cbn;
    rewrite <- ?app_assoc, ?app_nil_r; auto.
Qed.

(** *** Values of 16 bits *)

Lemma low_byte_of_Z (z : Z) :
  - 2 ^ 53 < z < 2 ^ 53 -> Z_of_byte (low_byte (of_Z z)) = z mod 256.
Proof.
  intros Hz. unfold low_byte, ToUint8. rewrite Z_of_byte_of_Z, trunc_of_Z by assumption.
  change (2 ^ 8) with 256. apply Z.mod_mod. lia.
Qed.

Lemma high_byte_of_Z (z : Z) :
  - 2 ^ 53 < z < 2 ^ 53 ->
  Z_of_byte (high_byte (of_Z z)) = (z mod 2 ^ 32 / 256) mod 256.
Proof.
  intros Hz. unfold high_byte, ToUint8, ushr, ToUint32.
  rewrite Z_of_byte_of_Z, (trunc_of_Z z) by assumption.
  change (8 mod 32) with 8. rewrite Z.shiftr_div_pow2 by lia.
  change (2 ^ 8) with 256.
  pose proof (Z.mod_pos_bound z (2 ^ 32) ltac:(lia)) as Hm.
  assert (0 <= z mod 2 ^ 32 / 256 < 2 ^ 24).
  { split; [apply Z.div_pos; lia|]. apply Z.div_lt_upper_bound; lia. }
  rewrite trunc_of_Z by lia. apply Z.mod_mod. lia.
Qed.

(** An integer of the signed 16-bit range is stored as its big-endian
    two's complement. *)
Lemma int16_stored (z : Z) :
  -32768 <= z <= 32767 ->
  int16_of_bytes (high_byte (of_Z z)) (low_byte (of_Z z)) = z.
Proof.
  intros Hz. unfold int16_of_bytes.
  rewrite low_byte_of_Z, high_byte_of_Z by lia.
  change (2 ^ 8) with 256.
  pose proof (Z.div_mod z 256 ltac:(lia)) as Hdm.
  pose proof (Z.mod_pos_bound z 256 ltac:(lia)) as Hlo.
  destruct (Z_le_dec 0 z) as [Hpos|Hneg].
  - rewrite (Z.mod_small z (2 ^ 32)) by lia.
    assert (0 <= z / 256 < 128).
    { split; [apply Z.div_pos; lia|]. apply Z.div_lt_upper_bound; lia. }
    rewrite (Z.mod_small (z / 256) 256) by lia.
    replace (2 ^ 15 <=? z / 256 * 256 + z mod 256) with false
      by (symmetry; apply Z.leb_gt; lia).
    lia.
  - assert (Hm : z mod 2 ^ 32 = z + 2 ^ 32).
    { symmetry. apply (Z.mod_unique_pos z (2 ^ 32) (-1)); lia. }
    rewrite Hm.
    assert (Hq : (z + 2 ^ 32) / 256 = z / 256 + 2 ^ 24).
    { change (2 ^ 32) with (2 ^ 24 * 256). apply Z.div_add. lia. }
    rewrite Hq.
    assert (-128 <= z / 256 < 0).
    { split; [apply Z.div_le_lower_bound; lia | apply Z.div_lt_upper_bound; lia]. }
    assert (Hh : (z / 256 + 2 ^ 24) mod 256 = z / 256 + 256).
    { symmetry. apply (Z.mod_unique_pos _ 256 (2 ^ 16 - 1)); lia. }
    rewrite Hh.
    replace (2 ^ 15 <=? (z / 256 + 256) * 256 + z mod 256) with true
      by (symmetry; apply Z.leb_le; lia).
    lia.
Qed.

Lemma accepts_of_Z (z : Z) :
  - 2 ^ 53 < z < 2 ^ 53 ->
  accepts (of_Z z) = (-32768 <=? z) && (z <=? 32767).
Proof.
  intros Hz. unfold accepts, gtb. fold (ltb (of_Z 32767) (of_Z z)).
  rewrite !ltb_of_Z by lia.
  destruct (Z.ltb_spec 32767 z), (Z.ltb_spec z (-32768)),
    (Z.leb_spec (-32768) z), (Z.leb_spec z 32767); cbn; lia.
Qed.

Lemma accepts_int16 (z : Z) : -32768 <= z <= 32767 -> accepts (of_Z z) = true.
Proof.
  intros Hz. rewrite accepts_of_Z by lia.
  apply andb_true_iff. split; apply Z.leb_le; lia.
Qed.

Lemma readInt16BE_get (buf : Buffer) (offset : Z) (hi lo : byte) :
  get buf offset = Some hi -> get buf (offset + 1) = Some lo ->
  readInt16BE buf offset = Ok (int16_of_bytes hi lo).
Proof. intros Hh Hl. unfold readInt16BE. rewrite Hh, Hl. reflexivity. Qed.

(** ** The binary patcher *)

(** Reads a byte of the patched buffer off the description [Hget] of its
    bytes: the tests on the offset are decided by [lia]. *)
Ltac read_back Hget :=
  rewrite Hget;
  repeat first [ rewrite Z.eqb_refl
               | rewrite (proj2 (Z.eqb_neq _ _)) by lia ];
  reflexivity.

(** C2.  When the scan of a buffer ends with the offset [o] of the hhea
    table, the values are integers of the signed 16-bit range and the ten
    first bytes of the table lie in the buffer, the patcher returns a
    buffer of the same length that holds the ascent at [o + 4], the descent
    at [o + 6] and the line gap at [o + 8], each as a big-endian signed
    16-bit value, and whose other bytes are those of the input. *)
Theorem patch_writes_metrics (verbose : bool) (buffer : Buffer)
    (ascent descent lineGap o : Z) (out : list line) :
  scanDirectory buffer 12 = Ok o -> o <> -1 ->
  o + 9 < len buffer ->
  -32768 <= ascent <= 32767 ->
  -32768 <= descent <= 32767 ->
  -32768 <= lineGap <= 32767 ->
  exists patchedBuffer out',
    patchHheaTable verbose buffer (of_Z ascent) (of_Z descent) (of_Z lineGap) out
    = (Ok patchedBuffer, out')
    /\ len patchedBuffer = len buffer
    /\ readInt16BE patchedBuffer (o + 4) = Ok ascent
    /\ readInt16BE patchedBuffer (o + 6) = Ok descent
    /\ readInt16BE patchedBuffer (o + 8) = Ok lineGap
    /\ forall i, ~ (o + 4 <= i < o + 10) -> get patchedBuffer i = get buffer i.
Proof.
  intros Hs Ho Hlen Ha Hd Hg.
  assert (H0 : 0 <= o).
  { destruct (scan_total buffer) as [[Hs' _]|(j & o' & _ & _ & Hs' & Hr)]; rewrite Hs in Hs';
      injection Hs' as ->; first [congruence | lia]. }
  pose proof (accepts_int16 ascent Ha) as Haa. pose proof (int16_stored ascent Ha) as Hda.
  pose proof (accepts_int16 descent Hd) as Had. pose proof (int16_stored descent Hd) as Hdd.
  pose proof (accepts_int16 lineGap Hg) as Hag. pose proof (int16_stored lineGap Hg) as Hdg.
  destruct (writeInt16BE_stores buffer (of_Z ascent) (o + 4) Haa)
    as (b1 & H1 & Hl1 & Hg1); [lia | lia |].
  destruct (writeInt16BE_stores b1 (of_Z descent) (o + 6) Had)
    as (b2 & H2 & Hl2 & Hg2); [lia | lia |].
  destruct (writeInt16BE_stores b2 (of_Z lineGap) (o + 8) Hag)
    as (b3 & H3 & Hl3 & Hg3); [lia | lia |].
  exists b3. eexists. split; [eapply patch_written; eassumption|].
  assert (Hget : forall i, get b3 i =
            if i =? o + 8 then Some (high_byte (of_Z lineGap))
            else if i =? o + 8 + 1 then Some (low_byte (of_Z lineGap))
            else if i =? o + 6 then Some (high_byte (of_Z descent))
            else if i =? o + 6 + 1 then Some (low_byte (of_Z descent))
            else if i =? o + 4 then Some (high_byte (of_Z ascent))
            else if i =? o + 4 + 1 then Some (low_byte (of_Z ascent))
            else get buffer i).
  { intros i. rewrite Hg3, Hg2, Hg1. reflexivity. }
  split; [lia|].
  split.
  { erewrite readInt16BE_get; [rewrite Hda; reflexivity | |]; read_back Hget. }
  split.
  { erewrite readInt16BE_get; [rewrite Hdd; reflexivity | |]; read_back Hget. }
  split.
  { erewrite readInt16BE_get; [rewrite Hdg; reflexivity | |]; read_back Hget. }
  intros i Hi. read_back Hget.
Qed.

Lemma patch_writes_metrics_witness :
  exists patchedBuffer out',
    patchHheaTable false sample_sfnt (of_Z 900) (of_Z (-220)) (of_Z 0) []
    = (Ok patchedBuffer, out')
    /\ len patchedBuffer = len sample_sfnt
    /\ readInt16BE patchedBuffer (28 + 4) = Ok 900
    /\ readInt16BE patchedBuffer (28 + 6) = Ok (-220)
    /\ readInt16BE patchedBuffer (28 + 8) = Ok 0
    /\ forall i, ~ (28 + 4 <= i < 28 + 10) -> get patchedBuffer i = get sample_sfnt i.
Proof.
  apply (patch_writes_metrics false sample_sfnt 900 (-220) 0 28 []).
  - vm_compute. reflexivity.
  - lia.
  - vm_compute. reflexivity.
  - lia.
  - lia.
  - lia.
Defined.

(** C4, as stated, fails: the header declares one record, and the scan
    goes on to the record at offset 28, the second one, and takes its
    offset field for the place of the hhea table. *)
Lemma scan_ignores_declared_count :
  numTables undeclared_hhea = Some 1
  /\ found undeclared_hhea 12 28
  /\ ~ (28 < 12 + 16 * 1)
  /\ scanDirectory undeclared_hhea 12 = Ok 44.
Proof.
  split; [reflexivity|]. split; [|split; [lia | vm_compute; reflexivity]].
  apply found_later; [vm_compute; reflexivity | vm_compute; reflexivity |].
  apply found_here; vm_compute; reflexivity.
Qed.

(** C4, amended.  The scan looks at the records at offsets 12, 28, 44 and
    so on, as long as the offset is below the length of the buffer minus
    16, whatever table count the header declares, and never throws: either
    no such record carries the tag, the result is -1 and the patcher warns
    that the table could not be found and returns its input; or the result
    is the offset field, inside the buffer, of the first such record that
    carries it.  A buffer of at most 28 bytes is of the first kind. *)
Theorem scan_within_buffer (buffer : Buffer) :
  ((scanDirectory buffer 12 = Ok (-1)
    /\ (forall j, ~ found buffer 12 j)
    /\ forall verbose a d g out,
         patchHheaTable verbose buffer a d g out
         = (Ok buffer, out ++ [WarnCouldNotFindHhea]))
   \/ (exists j o,
         found buffer 12 j
         /\ (exists k, 0 <= k /\ j = 12 + 16 * k)
         /\ j + 16 < len buffer
         /\ (forall k, 0 <= k -> 12 + 16 * k < j -> tagAt buffer (12 + 16 * k) = false)
         /\ tagAt buffer j = true
         /\ readUInt32BE buffer (j + 8) = Ok o
         /\ scanDirectory buffer 12 = Ok o
         /\ 0 <= o < 2 ^ 32))
  /\ (len buffer <= 28 -> scanDirectory buffer 12 = Ok (-1)).
Proof.
  split.
  - destruct (scan_total buffer) as [[Hs Hno]|(j & o & Hf & Hr & Hs & Ho)].
    + left. split; [assumption|]. split; [assumption|].
      intros verbose a d g out. apply patch_not_found. assumption.
    + right. exists j, o.
      pose proof (found_bounds _ _ _ Hf) as (Hk & Hlt & Ht).
      pose proof (found_first _ _ _ Hf) as Hfirst.
      repeat split; try assumption; lia.
  - intros Hlen. rewrite scanDirectory_eq.
    destruct (Z_lt_dec 12 (len buffer - 16)); [lia | reflexivity].
Qed.

Lemma scan_within_buffer_witness : scanDirectory (bytes_of (repeat 0 20)) 12 = Ok (-1).
Proof.
  apply (scan_within_buffer (bytes_of (repeat 0 20))). vm_compute. discriminate.
Defined.

(** The patcher returns a buffer of the length of its input. *)
Lemma patch_returns (verbose : bool) (buffer : Buffer) (a d g : number) (out : list line) :
  exists patchedBuffer out',
    patchHheaTable verbose buffer a d g out = (Ok patchedBuffer, out')
    /\ len patchedBuffer = len buffer.
Proof.
  destruct (scan_total buffer) as [[Hs Hno]|(j & o & Hf & Hr & Hs & Ho)].
  { exists buffer. eexists. split; [apply patch_not_found; assumption | reflexivity]. }
  assert (Hne : o <> -1) by lia.
  destruct (writeInt16BE buffer a (o + 4)) as [b1|e1] eqn:H1.
  2:{ exists buffer. eexists. split; [eapply patch_failed; eauto | reflexivity]. }
  destruct (writeInt16BE b1 d (o + 6)) as [b2|e2] eqn:H2.
  2:{ exists buffer. eexists. split; [eapply patch_failed; eauto | reflexivity]. }
  destruct (writeInt16BE b2 g (o + 8)) as [b3|e3] eqn:H3.
  2:{ exists buffer. eexists.
      split; [eapply patch_failed; [eassumption | assumption | right; right; eauto]
             | reflexivity]. }
  destruct (writeInt16BE_inv _ _ _ _ H1) as (_ & _ & _ & Hl1 & _).
  destruct (writeInt16BE_inv _ _ _ _ H2) as (_ & _ & _ & Hl2 & _).
  destruct (writeInt16BE_inv _ _ _ _ H3) as (_ & _ & _ & Hl3 & _).
  exists b3. eexists. split; [eapply patch_written; eassumption | lia].
Qed.

(** A value out of range, or a table that does not lie in the buffer,
    makes one of the three writes throw: the input comes back with a
    warning. *)
Lemma patch_throws (verbose : bool) (buffer : Buffer) (a d g : number) (o : Z)
    (out : list line) :
  scanDirectory buffer 12 = Ok o -> o <> -1 ->
  accepts a = false \/ accepts d = false \/ accepts g = false \/ len buffer <= o + 9 ->
  exists e,
    patchHheaTable_try verbose buffer a d g out
    = (Throw e, out ++ verbosely verbose (LogFoundHhea o))
    /\ patchHheaTable verbose buffer a d g out
       = (Ok buffer, out ++ verbosely verbose (LogFoundHhea o)
                         ++ [WarnBinaryPatchingFailed e]).
Proof.
  intros Hs Hne Hbad.
  destruct (writeInt16BE buffer a (o + 4)) as [b1|e1] eqn:H1.
  2:{ exists e1. eapply patch_failed; eauto. }
  destruct (writeInt16BE b1 d (o + 6)) as [b2|e2] eqn:H2.
  2:{ exists e2. eapply patch_failed; eauto. }
  destruct (writeInt16BE b2 g (o + 8)) as [b3|e3] eqn:H3.
  2:{ exists e3. eapply patch_failed; [eassumption | assumption | right; right; eauto]. }
  exfalso.
  destruct (writeInt16BE_inv _ _ _ _ H1) as (Ha1 & _ & _ & Hl1 & _).
  destruct (writeInt16BE_inv _ _ _ _ H2) as (Ha2 & _ & _ & Hl2 & _).
  destruct (writeInt16BE_inv _ _ _ _ H3) as (Ha3 & _ & Hb3 & Hl3 & _).
  destruct Hbad as [Hbad|[Hbad|[Hbad|Hbad]]]; try congruence. lia.
Qed.

(** C9.  The patcher always returns a buffer, of the length of its
    input, and never throws.  When its [try] block throws, it returns the
    input itself and warns that the binary patch failed; the block throws
    when the table is located and a value fails the range check of the
    16-bit write, or the ten first bytes of the table do not all lie in the
    buffer. *)
Theorem patchHheaTable_total (verbose : bool) (buffer : Buffer) (a d g : number)
    (out : list line) :
  (exists patchedBuffer out',
     patchHheaTable verbose buffer a d g out = (Ok patchedBuffer, out')
     /\ len patchedBuffer = len buffer)
  /\ (forall e out1,
        patchHheaTable_try verbose buffer a d g out = (Throw e, out1) ->
        patchHheaTable verbose buffer a d g out
        = (Ok buffer, out1 ++ [WarnBinaryPatchingFailed e]))
  /\ (forall o,
        scanDirectory buffer 12 = Ok o -> o <> -1 ->
        accepts a = false \/ accepts d = false \/ accepts g = false
        \/ len buffer <= o + 9 ->
        exists e out1,
          patchHheaTable_try verbose buffer a d g out = (Throw e, out1)).
Proof.
  split; [apply patch_returns|]. split.
  - intros e out1 Ht. unfold patchHheaTable, try_catch. rewrite Ht. reflexivity.
  - intros o Hs Hne Hbad.
    destruct (patch_throws verbose buffer a d g o out Hs Hne Hbad) as (e & Ht & _).
    eauto.
Qed.

Lemma patchHheaTable_total_witness :
  patchHheaTable false sample_sfnt (of_Z 40000) (of_Z 0) (of_Z 0) []
  = (Ok sample_sfnt, [WarnBinaryPatchingFailed (ERR_OUT_OF_RANGE_value (of_Z 40000))]).
Proof.
  destruct (patchHheaTable_total false sample_sfnt (of_Z 40000) (of_Z 0) (of_Z 0) [])
    as (_ & Hcatch & _).
  apply (Hcatch (ERR_OUT_OF_RANGE_value (of_Z 40000)) []).
  vm_compute. reflexivity.
Defined.

(** The bytes after the three writes of the patcher. *)
Lemma three_writes (buffer b1 b2 b3 : Buffer) (a d g : number) (o : Z) :
  writeInt16BE buffer a (o + 4) = Ok b1 ->
  writeInt16BE b1 d (o + 6) = Ok b2 ->
  writeInt16BE b2 g (o + 8) = Ok b3 ->
  (accepts a = true /\ accepts d = true /\ accepts g = true)
  /\ (0 <= o + 4 /\ o + 9 < len buffer)
  /\ len b3 = len buffer
  /\ forall i, get b3 i =
       if i =? o + 8 then Some (high_byte g)
       else if i =? o + 8 + 1 then Some (low_byte g)
       else if i =? o + 6 then Some (high_byte d)
       else if i =? o + 6 + 1 then Some (low_byte d)
       else if i =? o + 4 then Some (high_byte a)
       else if i =? o + 4 + 1 then Some (low_byte a)
       else get buffer i.
Proof.
  intros H1 H2 H3.
  destruct (writeInt16BE_inv _ _ _ _ H1) as (Ha1 & Hlo & _ & Hl1 & Hg1).
  destruct (writeInt16BE_inv _ _ _ _ H2) as (Ha2 & _ & _ & Hl2 & Hg2).
  destruct (writeInt16BE_inv _ _ _ _ H3) as (Ha3 & _ & Hhi & Hl3 & Hg3).
  repeat split; try assumption; try lia.
  intros i. rewrite Hg3, Hg2, Hg1. reflexivity.
Qed.

(** C8, as stated, fails: on [self_pointing] the first patch overwrites
    the offset field with the line gap, 30, and the second patch writes
    the values again, at offset 30. *)
Lemma patch_twice_differs :
  exists b1 out1 b2 out2,
    patchHheaTable false self_pointing (of_Z 1) (of_Z 0) (of_Z 30) [] = (Ok b1, out1)
    /\ patchHheaTable false b1 (of_Z 1) (of_Z 0) (of_Z 30) out1 = (Ok b2, out2)
    /\ get b1 35 = Some x00
    /\ get b2 35 = Some x01
    /\ b2 <> b1.
Proof.
  eexists. eexists. eexists. eexists.
  split; [vm_compute; reflexivity|].
  split; [vm_compute; reflexivity|].
  split; [vm_compute; reflexivity|].
  split; [vm_compute; reflexivity|].
  vm_compute. discriminate.
Qed.

(** C8, amended.  Patching twice gives the bytes of patching once when
    the six patched bytes, from [o + 4] on, do not overlap the part of
    the directory that the scan depends on, from offset 12 to the offset
    field of the hhea record, at [j + 8], included.  The tables of a
    serialized font come after the whole directory. *)
Theorem patch_idempotent (verbose : bool) (buffer b1 b2 : Buffer) (a d g : number)
    (out out1 out2 : list line) :
  (forall j o, found buffer 12 j -> readUInt32BE buffer (j + 8) = Ok o ->
               o + 10 <= 12 \/ j + 12 <= o + 4) ->
  patchHheaTable verbose buffer a d g out = (Ok b1, out1) ->
  patchHheaTable verbose b1 a d g out1 = (Ok b2, out2) ->
  b2 = b1.
Proof.
  intros Hwf P1 P2.
  destruct (scan_total buffer) as [[Hs Hno]|(j & o & Hf & Hr & Hs & Ho)].
  { rewrite (proj2 (patch_not_found verbose buffer a d g out Hs)) in P1.
    injection P1 as <- <-.
    rewrite (proj2 (patch_not_found verbose buffer a d g _ Hs)) in P2.
    injection P2 as <- _. reflexivity. }
  assert (Hne : o <> -1) by lia.
  assert (Hfail : forall e,
            (writeInt16BE buffer a (o + 4) = Throw e
             \/ (exists c1, writeInt16BE buffer a (o + 4) = Ok c1
                            /\ writeInt16BE c1 d (o + 6) = Throw e)
             \/ (exists c1 c2, writeInt16BE buffer a (o + 4) = Ok c1
                               /\ writeInt16BE c1 d (o + 6) = Ok c2
                               /\ writeInt16BE c2 g (o + 8) = Throw e)) ->
            b2 = b1).
  { intros e He.
    rewrite (proj2 (patch_failed verbose buffer a d g o e out Hs Hne He)) in P1.
    injection P1 as <- <-.
    rewrite (proj2 (patch_failed verbose buffer a d g o e _ Hs Hne He)) in P2.
    injection P2 as <- _. reflexivity. }
  destruct (writeInt16BE buffer a (o + 4)) as [c1|e1] eqn:H1; [|eapply Hfail; eauto].
  destruct (writeInt16BE c1 d (o + 6)) as [c2|e2] eqn:H2; [|eapply Hfail; eauto].
  destruct (writeInt16BE c2 g (o + 8)) as [c3|e3] eqn:H3;
    [|eapply Hfail; right; right; eauto].
  clear Hfail.
  rewrite (patch_written verbose buffer c1 c2 c3 a d g o out Hs Hne H1 H2 H3) in P1.
  injection P1 as <- <-.
  destruct (three_writes _ _ _ _ _ _ _ _ H1 H2 H3)
    as ((Ha & Hd & Hg) & (Hlo & Hhi) & Hlen & Hget).
  assert (Hkeep : forall x, ~ (o + 4 <= x < o + 10) -> get c3 x = get buffer x).
  { intros x Hx. read_back Hget. }
  pose proof (found_bounds _ _ _ Hf) as ((k & Hk & Hjk) & Hlt & _).
  specialize (Hwf j o Hf Hr).
  assert (Hs3 : scanDirectory c3 12 = Ok o).
  { rewrite (scan_found c3 12 j).
    - rewrite (readUInt32BE_ext c3 buffer) by (try assumption; intros; apply Hkeep; lia).
      exact Hr.
    - apply (found_ext buffer); [assumption | assumption | lia |].
      intros x Hx. apply Hkeep. lia. }
  assert (W1 : writeInt16BE c3 a (o + 4) = Ok c3).
  { apply writeInt16BE_same; [assumption | |]; read_back Hget. }
  assert (W2 : writeInt16BE c3 d (o + 6) = Ok c3).
  { apply writeInt16BE_same; [assumption | |]; read_back Hget. }
  assert (W3 : writeInt16BE c3 g (o + 8) = Ok c3).
  { apply writeInt16BE_same; [assumption | |]; read_back Hget. }
  rewrite (patch_written verbose c3 c3 c3 c3 a d g o _ Hs3 Hne W1 W2 W3) in P2.
  injection P2 as <- _. reflexivity.
Qed.

Lemma patch_idempotent_witness :
  exists b1 out1 b2 out2,
    patchHheaTable true sample_sfnt (of_Z 900) (of_Z (-220)) (of_Z 0) [] = (Ok b1, out1)
    /\ patchHheaTable true b1 (of_Z 900) (of_Z (-220)) (of_Z 0) out1 = (Ok b2, out2)
    /\ b2 = b1.
Proof.
  eexists. eexists. eexists. eexists.
  split; [vm_compute; reflexivity|].
  split; [vm_compute; reflexivity|].
  apply (patch_idempotent true sample_sfnt _ _ (of_Z 900) (of_Z (-220)) (of_Z 0)
           [] [LogFoundHhea 28; LogBinaryPatched (of_Z 900) (of_Z (-220)) (of_Z 0) 28]
           ([LogFoundHhea 28; LogBinaryPatched (of_Z 900) (of_Z (-220)) (of_Z 0) 28]
            ++ [LogFoundHhea 28; LogBinaryPatched (of_Z 900) (of_Z (-220)) (of_Z 0) 28])).
  - intros j o Hf Hr. right.
    assert (j = 12) as ->.
    { inversion Hf as [i Hi Ht | i j' Hi Ht Hrest]; subst; [reflexivity|].
      vm_compute in Ht. discriminate Ht. }
    vm_compute in Hr. injection Hr as <-. lia.
  - vm_compute. reflexivity.
  - vm_compute. reflexivity.
Defined.

(** ** The structured edit and the run *)

Lemma editTables_eq (verbose : bool) (font : Font) (m : Metrics) (out : list line) :
  editTables verbose font m out = (Ok (editedFont font m), out ++ editLog verbose font m).
Proof.
  unfold editTables, editedFont, editLog, bind, when, console, ret, verbosely.
  destruct (os2 (tables font)), (hhea (tables font)), verbose; cbn;
    rewrite <- ?app_assoc, ?app_nil_r; reflexivity.
Qed.

Section Run.

Variable toArrayBuffer : Font -> result Buffer.

(** A run that edits, up to the call of [write]: when the serializer
    returns [outputBuffer], the bytes handed to [write] are those the
    patcher returns; the file is saved when [write] returns, and the error
    is reported and the process stopped when it throws. *)
Lemma editAndSave_patched (write : Buffer -> result unit) (o : options.t) (font : Font)
    (outputBuffer patchedBuffer : Buffer) (out out' : list line) :
  options.list o = false ->
  toArrayBuffer (editedFont font (metricsOf o font)) = Ok outputBuffer ->
  patchHheaTable (options.verbose o) outputBuffer
    (newAscent (metricsOf o font)) (newDescent (metricsOf o font))
    (newLineGap (metricsOf o font)) (out ++ runLog o font)
  = (Ok patchedBuffer, out') ->
  editAndSave toArrayBuffer write o font out
  = match write patchedBuffer with
    | Ok _ =>
        (Ok {| font_after := editedFont font (metricsOf o font);
               written := Some patchedBuffer;
               exit_code := None |},
         out' ++ [LogFontSaved])
    | Throw e =>
        (Ok {| font_after := editedFont font (metricsOf o font);
               written := None;
               exit_code := Some 1 |},
         out' ++ [ErrorProcessingFont (Failed_to_save_font e)])
    end.
Proof.
  intros Hlist Hser Hpatch. unfold editAndSave. rewrite Hlist.
  fold (metricsOf o font). unfold bind at 1.
  assert (Hwhen : forall l, when (options.verbose o) (console l) out
                            = (Ok tt, out ++ verbosely (options.verbose o) l)).
  { intros l. unfold when, console, ret, verbosely.
    destruct (options.verbose o); rewrite ?app_nil_r; reflexivity. }
  rewrite Hwhen. unfold bind at 1. rewrite editTables_eq, <- app_assoc.
  fold (runLog o font).
  unfold try_catch, bind, lift, throw, console, ret. rewrite Hser, Hpatch.
  destruct (write patchedBuffer); reflexivity.
Qed.

(** When the serializer throws, nothing is written and the process exits
    with code 1. *)
Lemma editAndSave_not_serialized (write : Buffer -> result unit) (o : options.t)
    (font : Font) (e : error) (out : list line) :
  options.list o = false ->
  toArrayBuffer (editedFont font (metricsOf o font)) = Throw e ->
  editAndSave toArrayBuffer write o font out
  = (Ok {| font_after := editedFont font (metricsOf o font);
           written := None;
           exit_code := Some 1 |},
     out ++ runLog o font ++ [ErrorProcessingFont (Failed_to_save_font e)]).
Proof.
  intros Hlist Hser. unfold editAndSave. rewrite Hlist.
  fold (metricsOf o font). unfold bind at 1.
  assert (Hwhen : forall l, when (options.verbose o) (console l) out
                            = (Ok tt, out ++ verbosely (options.verbose o) l)).
  { intros l. unfold when, console, ret, verbosely.
    destruct (options.verbose o); rewrite ?app_nil_r; reflexivity. }
  rewrite Hwhen. unfold bind at 1. rewrite editTables_eq, <- app_assoc.
  fold (runLog o font).
  unfold try_catch, bind, lift, throw, console, ret. rewrite Hser.
  rewrite <- app_assoc. reflexivity.
Qed.

(** A run that edits: when the serializer returns [outputBuffer], the
    bytes written are those the patcher returns. *)
Lemma modifyFont_saved (o : options.t) (font : Font) (outputBuffer patchedBuffer : Buffer)
    (out out' : list line) :
  options.list o = false ->
  toArrayBuffer (editedFont font (metricsOf o font)) = Ok outputBuffer ->
  patchHheaTable (options.verbose o) outputBuffer
    (newAscent (metricsOf o font)) (newDescent (metricsOf o font))
    (newLineGap (metricsOf o font)) (out ++ runLog o font)
  = (Ok patchedBuffer, out') ->
  modifyFont toArrayBuffer o font out
  = (Ok {| font_after := editedFont font (metricsOf o font);
           written := Some patchedBuffer;
           exit_code := None |},
     out' ++ [LogFontSaved]).
Proof.
  intros Hlist Hser Hpatch. unfold modifyFont.
  rewrite (editAndSave_patched _ o font outputBuffer patchedBuffer out out'
             Hlist Hser Hpatch).
  reflexivity.
Qed.

(** When the serializer throws, nothing is written and the process exits
    with code 1. *)
Lemma modifyFont_not_saved (o : options.t) (font : Font) (e : error) (out : list line) :
  options.list o = false ->
  toArrayBuffer (editedFont font (metricsOf o font)) = Throw e ->
  modifyFont toArrayBuffer o font out
  = (Ok {| font_after := editedFont font (metricsOf o font);
           written := None;
           exit_code := Some 1 |},
     out ++ runLog o font ++ [ErrorProcessingFont (Failed_to_save_font e)]).
Proof. intros Hlist Hser. apply editAndSave_not_serialized; assumption. Qed.

(** In every run that edits, the font object ends as [editedFont]. *)
Lemma modifyFont_font (o : options.t) (font : Font) (run : Run) (out out' : list line) :
  options.list o = false ->
  modifyFont toArrayBuffer o font out = (Ok run, out') ->
  font_after run = editedFont font (metricsOf o font).
Proof.
  intros Hlist Hrun.
  destruct (toArrayBuffer (editedFont font (metricsOf o font))) as [buf|e] eqn:Hser.
  - destruct (patch_returns (options.verbose o) buf
                (newAscent (metricsOf o font)) (newDescent (metricsOf o font))
                (newLineGap (metricsOf o font)) (out ++ runLog o font))
      as (b' & out1 & Hp & _).
    rewrite (modifyFont_saved o font buf b' out out1 Hlist Hser Hp) in Hrun.
    injection Hrun as <- _. reflexivity.
  - rewrite (modifyFont_not_saved o font e out Hlist Hser) in Hrun.
    injection Hrun as <- _. reflexivity.
Qed.

End Run.

(** ** The run *)

(** C1, as stated, fails: with [-a 4000] on an em of 1000 the computed
    ascent is 40000, above 32767; the run stores it in the OS/2 table,
    reports no error for the metric, and ends with the font saved; the
    console shows the failure of the binary patch alone. *)
Lemma out_of_range_is_stored :
  newAscent (metricsOf tall_options sample_font) = of_Z 40000
  /\ gtb (of_Z 40000) (of_Z 32767) = true
  /\ exists run,
       modifyFont (fun _ => Ok sample_sfnt) tall_options sample_font []
       = (Ok run,
          [WarnBinaryPatchingFailed (ERR_OUT_OF_RANGE_value (of_Z 40000)); LogFontSaved])
       /\ exit_code run = None
       /\ written run = Some sample_sfnt
       /\ option_map sTypoAscender (os2 (tables (font_after run))) = Some (Num (of_Z 40000))
       /\ option_map ascender (hhea (tables (font_after run))) = Some (Num (of_Z 40000))
       /\ tables (font_after run) <> tables sample_font.
Proof.
  split; [vm_compute; reflexivity|]. split; [vm_compute; reflexivity|].
  eexists. split; [vm_compute; reflexivity|].
  repeat split; try (vm_compute; reflexivity).
  vm_compute. discriminate.
Qed.

(** C1, amended.  When a computed value fails the range check of the
    16-bit write, the metric computation reports nothing: the edit stores
    the three values in both tables as they are, and when the serializer
    returns, the run writes the serialized bytes unpatched and ends
    without an exit code; if the scan locates the hhea table, the console
    shows that the binary patch failed. *)
Theorem out_of_range_not_rejected (toArrayBuffer : Font -> result Buffer)
    (o : options.t) (font : Font) (outputBuffer : Buffer) (out : list line) :
  options.list o = false ->
  toArrayBuffer (editedFont font (metricsOf o font)) = Ok outputBuffer ->
  accepts (newAscent (metricsOf o font)) = false
  \/ accepts (newDescent (metricsOf o font)) = false
  \/ accepts (newLineGap (metricsOf o font)) = false ->
  exists run out',
    modifyFont toArrayBuffer o font out = (Ok run, out')
    /\ exit_code run = None
    /\ written run = Some outputBuffer
    /\ (forall t, os2 (tables font) = Some t ->
          exists t', os2 (tables (font_after run)) = Some t'
            /\ sTypoAscender t' = Num (newAscent (metricsOf o font))
            /\ sTypoDescender t' = Num (newDescent (metricsOf o font))
            /\ sTypoLineGap t' = Num (newLineGap (metricsOf o font)))
    /\ (forall h, hhea (tables font) = Some h ->
          exists h', hhea (tables (font_after run)) = Some h'
            /\ ascender h' = Num (newAscent (metricsOf o font))
            /\ descender h' = Num (newDescent (metricsOf o font))
            /\ lineGap h' = Num (newLineGap (metricsOf o font)))
    /\ (scanDirectory outputBuffer 12 <> Ok (-1) ->
          exists e, In (WarnBinaryPatchingFailed e) out').
Proof.
  intros Hlist Hser Hbad. set (m := metricsOf o font) in *.
  assert (Hpatch : exists out1,
            patchHheaTable (options.verbose o) outputBuffer
              (newAscent m) (newDescent m) (newLineGap m) (out ++ runLog o font)
            = (Ok outputBuffer, out1)
            /\ (scanDirectory outputBuffer 12 <> Ok (-1) ->
                exists e, In (WarnBinaryPatchingFailed e) out1)).
  { destruct (scan_total outputBuffer) as [[Hs _]|(j & off & _ & _ & Hs & Hoff)].
    - eexists. split; [apply patch_not_found; assumption|]. congruence.
    - destruct (patch_throws (options.verbose o) outputBuffer
                  (newAscent m) (newDescent m) (newLineGap m) off
                  (out ++ runLog o font) Hs ltac:(lia) ltac:(tauto)) as (e & _ & Hp).
      eexists. split; [exact Hp|]. intros _. exists e.
      rewrite !in_app_iff. right. right. left. reflexivity. }
  destruct Hpatch as (out1 & Hp & Hwarn).
  eexists. eexists.
  split; [apply (modifyFont_saved toArrayBuffer o font outputBuffer outputBuffer out out1);
          assumption|].
  cbn [exit_code written font_after editedFont tables os2 hhea].
  split; [reflexivity|]. split; [reflexivity|].
  split; [|split].
  - intros t Ht. rewrite Ht. eexists. split; [reflexivity|]. cbn. auto.
  - intros h Hh. rewrite Hh. eexists. split; [reflexivity|]. cbn. auto.
  - intros Hfound. destruct (Hwarn Hfound) as [e He]. exists e.
    apply in_app_iff. left. exact He.
Qed.

Lemma out_of_range_not_rejected_witness :
  exists run out',
    modifyFont (fun _ => Ok sample_sfnt) tall_options sample_font [] = (Ok run, out')
    /\ exit_code run = None
    /\ written run = Some sample_sfnt.
Proof.
  destruct (out_of_range_not_rejected (fun _ => Ok sample_sfnt) tall_options
              sample_font sample_sfnt [] eq_refl eq_refl
              (or_introl (eq_refl : accepts (newAscent (metricsOf tall_options sample_font))
                                    = false)))
    as (run & out' & Hrun & Hexit & Hwritten & _).
  exists run, out'. auto.
Defined.

(** C5.  When the scan of the serialized bytes finds no record tagged
    hhea, the patcher returns these bytes and warns that the table could
    not be found; the run writes them and ends without an exit code, and
    the OS/2 table of the font holds the computed metrics. *)
Theorem hhea_not_found_continues (toArrayBuffer : Font -> result Buffer)
    (o : options.t) (font : Font) (t : OS2) (outputBuffer : Buffer) (out : list line) :
  options.list o = false ->
  os2 (tables font) = Some t ->
  toArrayBuffer (editedFont font (metricsOf o font)) = Ok outputBuffer ->
  scanDirectory outputBuffer 12 = Ok (-1) ->
  (forall verbose a d g out0,
     patchHheaTable verbose outputBuffer a d g out0
     = (Ok outputBuffer, out0 ++ [WarnCouldNotFindHhea]))
  /\ exists run,
       modifyFont toArrayBuffer o font out
       = (Ok run, out ++ runLog o font ++ [WarnCouldNotFindHhea; LogFontSaved])
       /\ written run = Some outputBuffer
       /\ exit_code run = None
       /\ exists t',
            os2 (tables (font_after run)) = Some t'
            /\ sTypoAscender t' = Num (newAscent (metricsOf o font))
            /\ sTypoDescender t' = Num (newDescent (metricsOf o font))
            /\ sTypoLineGap t' = Num (newLineGap (metricsOf o font))
            /\ usWinAscent t' = Num (Math_abs (newAscent (metricsOf o font)))
            /\ usWinDescent t' = Num (Math_abs (newDescent (metricsOf o font)))
            /\ fsSelection t' = Num (bitor (ToNumber (fsSelection t)) (of_Z 128)).
Proof.
  intros Hlist Ht Hser Hs.
  split; [intros; apply patch_not_found; assumption|].
  eexists. split.
  - rewrite (modifyFont_saved toArrayBuffer o font outputBuffer outputBuffer out
               ((out ++ runLog o font) ++ [WarnCouldNotFindHhea]) Hlist Hser).
    + rewrite <- !app_assoc. reflexivity.
    + apply patch_not_found. assumption.
  - cbn [written exit_code font_after editedFont tables os2]. rewrite Ht.
    split; [reflexivity|]. split; [reflexivity|].
    eexists. split; [reflexivity|]. cbn. repeat split.
Qed.

Lemma hhea_not_found_continues_witness :
  exists run,
    modifyFont (fun _ => Ok no_hhea_sfnt) default_options sample_font []
    = (Ok run, [WarnCouldNotFindHhea; LogFontSaved])
    /\ written run = Some no_hhea_sfnt
    /\ exit_code run = None.
Proof.
  destruct (hhea_not_found_continues (fun _ => Ok no_hhea_sfnt) default_options
              sample_font sample_os2 no_hhea_sfnt [] eq_refl eq_refl eq_refl)
    as (_ & run & Hrun & Hw & He & _).
  - vm_compute. reflexivity.
  - exists run. auto.
Defined.

(** C7, as stated, fails: the version of the table is replaced by
    0x00010000 when it is zero, and a reserved field that the parsed table
    does not have becomes 0. *)
Lemma hhea_fields_not_all_preserved :
  version sample_hhea = Num (of_Z 0)
  /\ version (recreateHhea sample_hhea (metricsOf default_options sample_font))
     = Num (of_Z 65536)
  /\ version (recreateHhea sample_hhea (metricsOf default_options sample_font))
     <> version sample_hhea
  /\ reserved1 (recreateHhea sample_hhea (metricsOf default_options sample_font))
     <> reserved1 sample_hhea.
Proof.
  split; [reflexivity|]. split; [vm_compute; reflexivity|].
  split; vm_compute; discriminate.
Qed.

(** C7, amended.  A run that edits replaces the hhea table by a record
    whose ascender, descender and line gap are the computed metrics; the
    advance width maximum, the minimal side bearings, the maximal extent,
    the caret slope rise, run and offset and the number of long metrics
    are those of the original; the version is that of the original when
    it is truthy and 0x00010000 otherwise; each reserved field and the
    metric data format is that of the original when it is truthy and 0
    otherwise. *)
Theorem hhea_replaced (toArrayBuffer : Font -> result Buffer)
    (o : options.t) (font : Font) (h : Hhea) (run : Run) (out out' : list line) :
  options.list o = false ->
  hhea (tables font) = Some h ->
  modifyFont toArrayBuffer o font out = (Ok run, out') ->
  exists h',
    hhea (tables (font_after run)) = Some h'
    /\ (ascender h' = Num (newAscent (metricsOf o font))
        /\ descender h' = Num (newDescent (metricsOf o font))
        /\ lineGap h' = Num (newLineGap (metricsOf o font)))
    /\ (advanceWidthMax h' = advanceWidthMax h
        /\ minLeftSideBearing h' = minLeftSideBearing h
        /\ minRightSideBearing h' = minRightSideBearing h
        /\ xMaxExtent h' = xMaxExtent h
        /\ caretSlopeRise h' = caretSlopeRise h
        /\ caretSlopeRun h' = caretSlopeRun h
        /\ caretOffset h' = caretOffset h
        /\ numberOfHMetrics h' = numberOfHMetrics h)
    /\ version h' = (if truthy (version h) then version h else Num (of_Z 65536))
    /\ (reserved1 h' = (if truthy (reserved1 h) then reserved1 h else Num (of_Z 0))
        /\ reserved2 h' = (if truthy (reserved2 h) then reserved2 h else Num (of_Z 0))
        /\ reserved3 h' = (if truthy (reserved3 h) then reserved3 h else Num (of_Z 0))
        /\ reserved4 h' = (if truthy (reserved4 h) then reserved4 h else Num (of_Z 0)))
    /\ metricDataFormat h'
       = (if truthy (metricDataFormat h) then metricDataFormat h else Num (of_Z 0)).
Proof.
  intros Hlist Hh Hrun.
  rewrite (modifyFont_font toArrayBuffer o font run out out' Hlist Hrun).
  cbn [editedFont tables hhea]. rewrite Hh.
  eexists. split; [reflexivity|]. cbn. unfold or_else. repeat split.
Qed.

Lemma hhea_replaced_witness :
  exists h',
    hhea (editedFont sample_font (metricsOf default_options sample_font)).(tables)
    = Some h'
    /\ advanceWidthMax h' = Num (of_Z 1200)
    /\ version h' = Num (of_Z 65536).
Proof.
  destruct (hhea_replaced (fun _ => Ok no_hhea_sfnt) default_options sample_font
              sample_hhea
              {| font_after := editedFont sample_font (metricsOf default_options sample_font);
                 written := Some no_hhea_sfnt;
                 exit_code := None |}
              [] [WarnCouldNotFindHhea; LogFontSaved] eq_refl eq_refl)
    as (h' & Hh & _ & (Hadv & _) & Hver & _).
  - vm_compute. reflexivity.
  - exists h'. auto.
Defined.

(** C10.  For a selection field that holds a 32-bit integer [v], as the
    unsigned 16-bit field of the table does, the edit stores [v | 0x80]:
    bit 7 is set, every other bit is the one of [v], and a bit that was set
    stays set. *)
Theorem fsSelection_sets_bit7 (t : OS2) (m : Metrics) (v : Z) :
  fsSelection t = Num (of_Z v) ->
  - 2 ^ 31 <= v < 2 ^ 31 ->
  fsSelection (updateOS2 t m) = Num (of_Z (Z.lor v 128))
  /\ Z.testbit (Z.lor v 128) 7 = true
  /\ (forall k, k <> 7 -> Z.testbit (Z.lor v 128) k = Z.testbit v k)
  /\ (forall k, Z.testbit v k = true -> Z.testbit (Z.lor v 128) k = true).
Proof.
  intros Hf Hv.
  assert (Hbits : forall k, Z.testbit (Z.lor v 128) k = Z.testbit v k || (k =? 7)).
  { intros k. rewrite Z.lor_spec. f_equal.
    change 128 with (2 ^ 7). destruct (Z_lt_dec k 0) as [Hk|Hk].
    - rewrite Z.testbit_neg_r by lia. symmetry. apply Z.eqb_neq. lia.
    - rewrite Z.pow2_bits_eqb by lia. apply Z.eqb_sym. }
  split.
  - assert (H128 : ToInt32 (of_Z 128) = 128) by (vm_compute; reflexivity).
    assert (Hint : ToInt32 (of_Z v) = v).
    { unfold ToInt32. rewrite trunc_of_Z by lia.
      destruct (Z_le_dec 0 v) as [Hpos|Hneg].
      - rewrite Z.mod_small by lia.
        replace (2 ^ 31 <=? v) with false by (symmetry; apply Z.leb_gt; lia). reflexivity.
      - replace (v mod 2 ^ 32) with (v + 2 ^ 32)
          by (apply (Z.mod_unique_pos v (2 ^ 32) (-1)); lia).
        replace (2 ^ 31 <=? v + 2 ^ 32) with true by (symmetry; apply Z.leb_le; lia).
        lia. }
    cbn [updateOS2 fsSelection]. rewrite Hf. cbn [ToNumber]. unfold bitor.
    rewrite Hint, H128. reflexivity.
  - split; [rewrite Hbits; apply orb_true_r|]. split.
    + intros k Hk. rewrite Hbits.
      replace (k =? 7) with false by (symmetry; apply Z.eqb_neq; assumption).
      apply orb_false_r.
    + intros k Hk. rewrite Hbits, Hk. reflexivity.
Qed.

Lemma fsSelection_sets_bit7_witness :
  fsSelection (updateOS2 sample_os2 (metricsOf default_options sample_font))
  = Num (of_Z 192).
Proof.
  destruct (fsSelection_sets_bit7 sample_os2 (metricsOf default_options sample_font) 64
              eq_refl ltac:(lia)) as [H _].
  exact H.
Defined.

(** * Further properties of the patcher *)

(** The patch of a table that lies in the buffer, with values that pass
    the range check: what is printed and every byte of the result. *)
Lemma patch_stores (verbose : bool) (buffer : Buffer) (a d g : number) (o : Z)
    (out : list line) :
  scanDirectory buffer 12 = Ok o -> o <> -1 -> o + 9 < len buffer ->
  accepts a = true -> accepts d = true -> accepts g = true ->
  exists patchedBuffer,
    patchHheaTable verbose buffer a d g out
    = (Ok patchedBuffer,
       out ++ verbosely verbose (LogFoundHhea o)
           ++ verbosely verbose (LogBinaryPatched a d g o))
    /\ len patchedBuffer = len buffer
    /\ forall i, get patchedBuffer i =
         if i =? o + 8 then Some (high_byte g)
         else if i =? o + 8 + 1 then Some (low_byte g)
         else if i =? o + 6 then Some (high_byte d)
         else if i =? o + 6 + 1 then Some (low_byte d)
         else if i =? o + 4 then Some (high_byte a)
         else if i =? o + 4 + 1 then Some (low_byte a)
         else get buffer i.
Proof.
  intros Hs Hne Hlen Ha Hd Hg.
  assert (H0 : 0 <= o).
  { destruct (scan_total buffer) as [[Hs' _]|(j & o' & _ & _ & Hs' & Hr)]; rewrite Hs in Hs';
      injection Hs' as ->; first [congruence | lia]. }
  destruct (writeInt16BE_stores buffer a (o + 4) Ha) as (b1 & H1 & Hl1 & _); [lia | lia |].
  destruct (writeInt16BE_stores b1 d (o + 6) Hd) as (b2 & H2 & Hl2 & _); [lia | lia |].
  destruct (writeInt16BE_stores b2 g (o + 8) Hg) as (b3 & H3 & Hl3 & _); [lia | lia |].
  exists b3. split; [eapply patch_written; eassumption|].
  destruct (three_writes _ _ _ _ _ _ _ _ H1 H2 H3) as (_ & _ & Hl & Hget). auto.
Qed.

(** ** The two tables after a run *)

(** C3.  For a font with both tables, the edit gives the hhea table of
    the font object the ascender, descender and line gap of the
    typographic fields of its OS/2 table, the computed metrics, and when
    the serializer returns the run saves a file.  When the computed metrics
    are integers of the signed 16-bit range and the scan locates the hhea
    table with its ten first bytes inside the serialized bytes, the hhea
    table of the file holds, as big-endian signed 16-bit values, the three
    typographic values of the OS/2 table that was serialized.  When the
    scan finds no table, a value fails the range check or the table does
    not lie in the serialized bytes, the file holds the serialized bytes
    as they are. *)
Theorem tables_agree_after_edit (toArrayBuffer : Font -> result Buffer)
    (o : options.t) (font : Font) (t : OS2) (h : Hhea) (outputBuffer : Buffer)
    (out : list line) :
  options.list o = false ->
  os2 (tables font) = Some t ->
  hhea (tables font) = Some h ->
  toArrayBuffer (editedFont font (metricsOf o font)) = Ok outputBuffer ->
  exists run out' patchedBuffer t' h',
    modifyFont toArrayBuffer o font out = (Ok run, out')
    /\ exit_code run = None
    /\ written run = Some patchedBuffer
    /\ font_after run = editedFont font (metricsOf o font)
    /\ os2 (tables (font_after run)) = Some t'
    /\ hhea (tables (font_after run)) = Some h'
    /\ sTypoAscender t' = Num (newAscent (metricsOf o font))
    /\ sTypoDescender t' = Num (newDescent (metricsOf o font))
    /\ sTypoLineGap t' = Num (newLineGap (metricsOf o font))
    /\ ascender h' = sTypoAscender t'
    /\ descender h' = sTypoDescender t'
    /\ lineGap h' = sTypoLineGap t'
    /\ (forall off za zd zg,
          scanDirectory outputBuffer 12 = Ok off -> off <> -1 ->
          off + 9 < len outputBuffer ->
          sTypoAscender t' = Num (of_Z za) -> -32768 <= za <= 32767 ->
          sTypoDescender t' = Num (of_Z zd) -> -32768 <= zd <= 32767 ->
          sTypoLineGap t' = Num (of_Z zg) -> -32768 <= zg <= 32767 ->
          readInt16BE patchedBuffer (off + 4) = Ok za
          /\ readInt16BE patchedBuffer (off + 6) = Ok zd
          /\ readInt16BE patchedBuffer (off + 8) = Ok zg)
    /\ (scanDirectory outputBuffer 12 = Ok (-1)
        \/ (exists off,
              scanDirectory outputBuffer 12 = Ok off /\ off <> -1
              /\ (accepts (newAscent (metricsOf o font)) = false
                  \/ accepts (newDescent (metricsOf o font)) = false
                  \/ accepts (newLineGap (metricsOf o font)) = false
                  \/ len outputBuffer <= off + 9)) ->
        patchedBuffer = outputBuffer).
Proof.
  intros Hlist Ht Hh Hser.
  destruct (patch_returns (options.verbose o) outputBuffer
              (newAscent (metricsOf o font)) (newDescent (metricsOf o font))
              (newLineGap (metricsOf o font)) (out ++ runLog o font))
    as (b' & out1 & Hp & _).
  eexists. eexists. exists b'.
  exists (updateOS2 t (metricsOf o font)), (recreateHhea h (metricsOf o font)).
  split; [apply (modifyFont_saved toArrayBuffer o font outputBuffer b' out _ Hlist Hser Hp)|].
  cbn [exit_code written font_after editedFont tables os2 hhea].
  rewrite Ht, Hh.
  cbn [updateOS2 recreateHhea sTypoAscender sTypoDescender sTypoLineGap
       ascender descender lineGap].
  repeat (split; [reflexivity|]).
  split.
  - intros off za zd zg Hs Hne Hlen Ea Hza Ed Hzd Eg Hzg.
    assert (Ha : newAscent (metricsOf o font) = of_Z za) by congruence.
    assert (Hd : newDescent (metricsOf o font) = of_Z zd) by congruence.
    assert (Hg : newLineGap (metricsOf o font) = of_Z zg) by congruence.
    destruct (patch_stores (options.verbose o) outputBuffer
                (newAscent (metricsOf o font)) (newDescent (metricsOf o font))
                (newLineGap (metricsOf o font)) off (out ++ runLog o font) Hs Hne Hlen)
      as (b'' & Hp' & _ & Hget);
      try (rewrite ?Ha, ?Hd, ?Hg; apply accepts_int16; assumption).
    rewrite Hp in Hp'. injection Hp' as <- _.
    rewrite Ha, Hd, Hg in Hget.
    split.
    { erewrite readInt16BE_get; [rewrite (int16_stored za Hza); reflexivity | |];
        read_back Hget. }
    split.
    { erewrite readInt16BE_get; [rewrite (int16_stored zd Hzd); reflexivity | |];
        read_back Hget. }
    erewrite readInt16BE_get; [rewrite (int16_stored zg Hzg); reflexivity | |];
      read_back Hget.
  - intros [Hs|(off & Hs & Hne & Hbad)].
    + rewrite (proj2 (patch_not_found (options.verbose o) outputBuffer _ _ _ _ Hs)) in Hp.
      injection Hp as <- _. reflexivity.
    + destruct (patch_throws (options.verbose o) outputBuffer _ _ _ off
                  (out ++ runLog o font) Hs Hne Hbad) as (e & _ & Hp').
      rewrite Hp' in Hp. injection Hp as <- _. reflexivity.
Qed.

(** A font of 2048 units per em with the defaults: 1843, -451 and 0 in the
    OS/2 table of the font object and in the hhea bytes of the file, where
    the serializer had left 800, -200 and 90. *)
Lemma tables_agree_after_edit_witness :
  exists run patchedBuffer t',
    written run = Some patchedBuffer
    /\ os2 (tables (font_after run)) = Some t'
    /\ sTypoAscender t' = Num (of_Z 1843)
    /\ sTypoDescender t' = Num (of_Z (-451))
    /\ sTypoLineGap t' = Num (of_Z 0)
    /\ readInt16BE patchedBuffer (28 + 4) = Ok 1843
    /\ readInt16BE patchedBuffer (28 + 6) = Ok (-451)
    /\ readInt16BE patchedBuffer (28 + 8) = Ok 0
    /\ readInt16BE sample_sfnt (28 + 4) = Ok 800.
Proof.
  assert (Hs : scanDirectory sample_sfnt 12 = Ok 28) by (vm_compute; reflexivity).
  assert (Hlen : 28 + 9 < len sample_sfnt) by (vm_compute; reflexivity).
  assert (Ha : newAscent (metricsOf default_options
                 {| unitsPerEm := of_Z 2048; tables := tables sample_font |})
               = of_Z 1843) by (vm_compute; reflexivity).
  assert (Hd : newDescent (metricsOf default_options
                 {| unitsPerEm := of_Z 2048; tables := tables sample_font |})
               = of_Z (-451)) by (vm_compute; reflexivity).
  assert (Hg : newLineGap (metricsOf default_options
                 {| unitsPerEm := of_Z 2048; tables := tables sample_font |})
               = of_Z 0) by (vm_compute; reflexivity).
  destruct (tables_agree_after_edit (fun _ => Ok sample_sfnt) default_options
              {| unitsPerEm := of_Z 2048; tables := tables sample_font |}
              sample_os2 sample_hhea sample_sfnt []
              eq_refl eq_refl eq_refl eq_refl)
    as (run & out' & b & t' & h' & _ & _ & Hw & _ & Ht' & _ & H1 & H2 & H3 & _ & _ & _
        & Hfile & _).
  rewrite Ha in H1. rewrite Hd in H2. rewrite Hg in H3.
  destruct (Hfile 28 1843 (-451) 0 Hs ltac:(lia) Hlen H1 ltac:(lia) H2 ltac:(lia)
              H3 ltac:(lia)) as (R1 & R2 & R3).
  exists run, b, t'.
  split; [exact Hw|]. split; [exact Ht'|]. split; [exact H1|]. split; [exact H2|].
  split; [exact H3|]. split; [exact R1|]. split; [exact R2|]. split; [exact R3|].
  vm_compute. reflexivity.
Defined.

(** C3, counterexample.  With [-a 4000 -d 30] on a font of 1000 units per
    em that has both tables, the ascent 40000 fails the range check of the
    16-bit write, so that the patch fails as a whole and the serialized
    bytes are saved as they are: the run ends without an exit code, the
    OS/2 table that was serialized holds 40000 and -300, and the hhea table
    of the file holds the 800 and -200 of the serializer. *)
Theorem saved_hhea_differs_from_os2 :
  exists run out' writtenBuffer t',
    modifyFont (fun _ => Ok sample_sfnt) tall_deep_options sample_font []
    = (Ok run, out' ++ [LogFontSaved])
    /\ exit_code run = None
    /\ written run = Some writtenBuffer
    /\ os2 (tables sample_font) <> None /\ hhea (tables sample_font) <> None
    /\ os2 (tables (font_after run)) = Some t'
    /\ sTypoAscender t' = Num (of_Z 40000)
    /\ sTypoDescender t' = Num (of_Z (-300))
    /\ scanDirectory writtenBuffer 12 = Ok 28
    /\ readInt16BE writtenBuffer (28 + 4) = Ok 800
    /\ readInt16BE writtenBuffer (28 + 6) = Ok (-200).
Proof.
  eexists. exists [WarnBinaryPatchingFailed (ERR_OUT_OF_RANGE_value (of_Z 40000))].
  eexists. eexists.
  split; [vm_compute; reflexivity|].
  cbn [exit_code written font_after].
  split; [reflexivity|]. split; [reflexivity|].
  split; [discriminate|]. split; [discriminate|].
  split; [vm_compute; reflexivity|].
  split; [vm_compute; reflexivity|]. split; [vm_compute; reflexivity|].
  split; [vm_compute; reflexivity|].
  split; vm_compute; reflexivity.
Qed.

(** X1.  Whatever the values, the buffer that the patcher returns has the
    length of the input, and it is the input itself or differs from it in
    the six bytes from [o + 4] to [o + 9] at most, where [o] is the result
    of the scan; these six bytes are then the two bytes of the ascent, of
    the descent and of the line gap, in this order. *)
Theorem patch_changes_six_bytes (verbose : bool) (buffer patchedBuffer : Buffer)
    (a d g : number) (out out' : list line) :
  patchHheaTable verbose buffer a d g out = (Ok patchedBuffer, out') ->
  len patchedBuffer = len buffer
  /\ (patchedBuffer = buffer
      \/ exists o,
           scanDirectory buffer 12 = Ok o /\ 0 <= o /\ o + 9 < len buffer
           /\ (forall i, ~ (o + 4 <= i < o + 10) -> get patchedBuffer i = get buffer i)
           /\ get patchedBuffer (o + 4) = Some (high_byte a)
           /\ get patchedBuffer (o + 5) = Some (low_byte a)
           /\ get patchedBuffer (o + 6) = Some (high_byte d)
           /\ get patchedBuffer (o + 7) = Some (low_byte d)
           /\ get patchedBuffer (o + 8) = Some (high_byte g)
           /\ get patchedBuffer (o + 9) = Some (low_byte g)).
Proof.
  intros Hp.
  destruct (scan_total buffer) as [[Hs Hno]|(j & o & Hf & Hr & Hs & Ho)].
  { rewrite (proj2 (patch_not_found verbose buffer a d g out Hs)) in Hp.
    injection Hp as <- _. auto. }
  assert (Hne : o <> -1) by lia.
  assert (Hfail : forall e,
            (writeInt16BE buffer a (o + 4) = Throw e
             \/ (exists c1, writeInt16BE buffer a (o + 4) = Ok c1
                            /\ writeInt16BE c1 d (o + 6) = Throw e)
             \/ (exists c1 c2, writeInt16BE buffer a (o + 4) = Ok c1
                               /\ writeInt16BE c1 d (o + 6) = Ok c2
                               /\ writeInt16BE c2 g (o + 8) = Throw e)) ->
            patchedBuffer = buffer).
  { intros e He.
    rewrite (proj2 (patch_failed verbose buffer a d g o e out Hs Hne He)) in Hp.
    injection Hp as <- _. reflexivity. }
  destruct (writeInt16BE buffer a (o + 4)) as [c1|e1] eqn:H1;
    [|rewrite (Hfail e1) by auto; auto].
  destruct (writeInt16BE c1 d (o + 6)) as [c2|e2] eqn:H2;
    [|rewrite (Hfail e2) by eauto; auto].
  destruct (writeInt16BE c2 g (o + 8)) as [c3|e3] eqn:H3;
    [|rewrite (Hfail e3) by (right; right; eauto); auto].
  rewrite (patch_written verbose buffer c1 c2 c3 a d g o out Hs Hne H1 H2 H3) in Hp.
  injection Hp as <- _.
  destruct (three_writes _ _ _ _ _ _ _ _ H1 H2 H3) as (_ & (Hlo & Hhi) & Hl & Hget).
  split; [assumption|]. right. exists o.
  split; [assumption|]. split; [lia|]. split; [assumption|].
  split; [intros i Hi; read_back Hget|].
  replace (o + 5) with (o + 4 + 1) by lia. replace (o + 7) with (o + 6 + 1) by lia.
  replace (o + 9) with (o + 8 + 1) by lia.
  repeat split; read_back Hget.
Qed.

Lemma patch_changes_six_bytes_witness :
  len (bytes_of
         ([0; 1; 0; 0;  0; 1;  0; 16;  0; 0;  0; 0]
          ++ [104; 104; 101; 97;  0; 0; 0; 0;  0; 0; 0; 28;  0; 0; 0; 36]
          ++ [0; 1; 0; 0;  3; 132;  255; 36;  0; 0]
          ++ repeat 7 26))
  = len sample_sfnt.
Proof.
  apply (patch_changes_six_bytes false sample_sfnt _ (of_Z 900) (of_Z (-220)) (of_Z 0)
           [] []).
  vm_compute. reflexivity.
Defined.

Lemma patch_try_written (verbose : bool) (buffer b1 b2 b3 : Buffer) (a d g : number)
    (o : Z) (out : list line) :
  scanDirectory buffer 12 = Ok o -> o <> -1 ->
  writeInt16BE buffer a (o + 4) = Ok b1 ->
  writeInt16BE b1 d (o + 6) = Ok b2 ->
  writeInt16BE b2 g (o + 8) = Ok b3 ->
  exists out1, patchHheaTable_try verbose buffer a d g out = (Ok b3, out1).
Proof.
  intros Hs Ho H1 H2 H3. unfold patchHheaTable_try, bind, lift.
  rewrite Hs. apply Z.eqb_neq in Ho. rewrite Ho.
  destruct verbose; cbn; rewrite H1, H2, H3; cbn; eauto.
Qed.

(** X2.  When the scan locates the table, the [try] block of the patcher
    throws exactly when a value fails the range check of the 16-bit write
    or the ten first bytes of the table do not all lie in the buffer. *)
Theorem patch_fails_iff (verbose : bool) (buffer : Buffer) (a d g : number) (o : Z)
    (out : list line) :
  scanDirectory buffer 12 = Ok o -> o <> -1 ->
  ((exists e out1, patchHheaTable_try verbose buffer a d g out = (Throw e, out1))
   <-> (accepts a = false \/ accepts d = false \/ accepts g = false
        \/ len buffer <= o + 9)).
Proof.
  intros Hs Hne. split.
  - intros (e & out1 & Ht).
    destruct (accepts a) eqn:Ha; [|auto].
    destruct (accepts d) eqn:Hd; [|auto].
    destruct (accepts g) eqn:Hg; [|auto].
    destruct (Z_le_dec (len buffer) (o + 9)) as [Hle|Hgt]; [auto|].
    exfalso.
    assert (H0 : 0 <= o).
    { destruct (scan_total buffer) as [[Hs' _]|(j & o' & _ & _ & Hs' & Hr)];
        rewrite Hs in Hs'; injection Hs' as ->; first [congruence | lia]. }
    destruct (writeInt16BE_stores buffer a (o + 4) Ha) as (b1 & H1 & Hl1 & _); [lia | lia |].
    destruct (writeInt16BE_stores b1 d (o + 6) Hd) as (b2 & H2 & Hl2 & _); [lia | lia |].
    destruct (writeInt16BE_stores b2 g (o + 8) Hg) as (b3 & H3 & Hl3 & _); [lia | lia |].
    destruct (patch_try_written verbose buffer b1 b2 b3 a d g o out Hs Hne H1 H2 H3)
      as [out2 Hok].
    congruence.
  - intros Hbad.
    destruct (patch_throws verbose buffer a d g o out Hs Hne Hbad) as (e & Ht & _).
    eauto.
Qed.

Lemma patch_fails_iff_witness :
  (exists e out1,
     patchHheaTable_try false sample_sfnt (of_Z 900) (of_Z (-40000)) (of_Z 0) []
     = (Throw e, out1))
  <-> (accepts (of_Z 900) = false \/ accepts (of_Z (-40000)) = false
       \/ accepts (of_Z 0) = false \/ len sample_sfnt <= 28 + 9).
Proof.
  apply (patch_fails_iff false sample_sfnt (of_Z 900) (of_Z (-40000)) (of_Z 0) 28 []).
  - vm_compute. reflexivity.
  - lia.
Defined.

(** X3.  The scan starts at offset 12: two buffers of the same length
    that agree from offset 12 on give the same result, whatever their
    first twelve bytes, signature and table count included. *)
Theorem scan_ignores_header (a b : Buffer) :
  len b = len a ->
  (forall i, 12 <= i -> get b i = get a i) ->
  scanDirectory b 12 = scanDirectory a 12.
Proof.
  intros Hlen Hget.
  destruct (found_dec a 12) as [[j Hj]|Hno].
  - pose proof (found_bounds _ _ _ Hj) as ((k & Hk & Hjk) & _ & _).
    assert (Hjb : found b 12 j).
    { apply (found_ext a); [assumption | assumption | lia |].
      intros x Hx. apply Hget. lia. }
    rewrite (scan_found _ _ _ Hj), (scan_found _ _ _ Hjb).
    apply readUInt32BE_ext; [assumption|]. intros x Hx. apply Hget. lia.
  - rewrite (scan_not_found a 12 Hno). apply scan_not_found.
    intros j Hj. apply (Hno j).
    apply (found_ext b); [assumption | congruence | lia |].
    intros x Hx. symmetry. apply Hget. lia.
Qed.

Lemma scan_ignores_header_witness :
  scanDirectory
    (bytes_of ([79; 84; 84; 79;  0; 0;  0; 0;  0; 0;  0; 0]
               ++ [104; 104; 101; 97;  0; 0; 0; 0;  0; 0; 0; 28;  0; 0; 0; 36]
               ++ [0; 1; 0; 0;  3; 32;  255; 56;  0; 90]
               ++ repeat 7 26)) 12
  = scanDirectory sample_sfnt 12.
Proof.
  apply scan_ignores_header.
  - reflexivity.
  - intros i Hi.
    assert (Hcases : i < 64 \/ 64 <= i) by lia. destruct Hcases as [Hlt|Hge].
    + assert (Hi' : i = 12 + Z.of_nat (Z.to_nat (i - 12))) by lia.
      rewrite Hi'. generalize (Z.to_nat (i - 12)).
      intros n. rewrite <- !(Nat2Z.inj_add 12), !get_of_nat. reflexivity.
    + rewrite !get_outside by (intros [_ H]; change (i < 64) in H; lia). reflexivity.
Defined.

(** X4.  A record that ends where the buffer ends is not looked at: when
    no record before the last sixteen bytes carries the tag, the result is
    -1 whatever these sixteen bytes are, and the patcher returns its
    input with the warning that the table could not be found. *)
Theorem scan_skips_last_record (buffer : Buffer) :
  (forall k, 0 <= k -> 12 + 16 * k < len buffer - 16 ->
             tagAt buffer (12 + 16 * k) = false) ->
  scanDirectory buffer 12 = Ok (-1)
  /\ forall verbose a d g out,
       patchHheaTable verbose buffer a d g out
       = (Ok buffer, out ++ [WarnCouldNotFindHhea]).
Proof.
  intros Hnone.
  assert (Hs : scanDirectory buffer 12 = Ok (-1)).
  { apply scan_not_found. intros j Hj.
    pose proof (found_bounds _ _ _ Hj) as ((k & Hk & Hjk) & Hlt & Ht).
    subst j. rewrite (Hnone k Hk Hlt) in Ht. discriminate. }
  split; [exact Hs|]. intros. apply patch_not_found. exact Hs.
Qed.

(** A buffer of 28 bytes: the header and one record, tagged hhea. *)
Lemma scan_skips_last_record_witness :
  tagAt (bytes_of ([0; 1; 0; 0;  0; 1;  0; 16;  0; 0;  0; 0]
                   ++ [104; 104; 101; 97;  0; 0; 0; 0;  0; 0; 0; 12;  0; 0; 0; 16])) 12
  = true
  /\ scanDirectory
       (bytes_of ([0; 1; 0; 0;  0; 1;  0; 16;  0; 0;  0; 0]
                  ++ [104; 104; 101; 97;  0; 0; 0; 0;  0; 0; 0; 12;  0; 0; 0; 16])) 12
     = Ok (-1).
Proof.
  split; [vm_compute; reflexivity|].
  apply scan_skips_last_record.
  intros k Hk Hlt. exfalso. change (12 + 16 * k < 28 - 16) in Hlt. lia.
Defined.

(** * Further properties of the run *)

(** X5.  When the serializer throws, the run prints the error, writes
    nothing and stops the process with exit code 1; the patcher is not
    called, and the font object has been edited already. *)
Theorem serializer_failure_is_fatal (toArrayBuffer : Font -> result Buffer)
    (o : options.t) (font : Font) (e : error) (out : list line) :
  options.list o = false ->
  toArrayBuffer (editedFont font (metricsOf o font)) = Throw e ->
  exists run,
    modifyFont toArrayBuffer o font out
    = (Ok run, out ++ runLog o font ++ [ErrorProcessingFont (Failed_to_save_font e)])
    /\ written run = None
    /\ exit_code run = Some 1
    /\ font_after run = editedFont font (metricsOf o font).
Proof.
  intros Hlist Hser. eexists.
  split; [apply modifyFont_not_saved; assumption|]. auto.
Qed.

Lemma serializer_failure_is_fatal_witness :
  exists run,
    modifyFont (fun _ => Throw SerializerError) default_options sample_font []
    = (Ok run, [ErrorProcessingFont (Failed_to_save_font SerializerError)])
    /\ written run = None
    /\ exit_code run = Some 1.
Proof.
  destruct (serializer_failure_is_fatal (fun _ => Throw SerializerError) default_options
              sample_font SerializerError [] eq_refl eq_refl)
    as (run & Hrun & Hw & He & _).
  exists run. auto.
Defined.

(** The bytes that the patcher returns do not depend on the verbosity
    nor on what was printed before. *)
Lemma patch_bytes_whatever_verbose (v1 v2 : bool) (buffer : Buffer) (a d g : number)
    (out1 out2 : list line) :
  exists patchedBuffer l1 l2,
    patchHheaTable v1 buffer a d g out1 = (Ok patchedBuffer, l1)
    /\ patchHheaTable v2 buffer a d g out2 = (Ok patchedBuffer, l2).
Proof.
  destruct (scan_total buffer) as [[Hs Hno]|(j & o & Hf & Hr & Hs & Ho)].
  { exists buffer. eexists. eexists. split; apply patch_not_found; assumption. }
  assert (Hne : o <> -1) by lia.
  destruct (writeInt16BE buffer a (o + 4)) as [b1|e1] eqn:H1.
  2:{ exists buffer. eexists. eexists. split; eapply patch_failed; eauto. }
  destruct (writeInt16BE b1 d (o + 6)) as [b2|e2] eqn:H2.
  2:{ exists buffer. eexists. eexists. split; eapply patch_failed; eauto. }
  destruct (writeInt16BE b2 g (o + 8)) as [b3|e3] eqn:H3.
  2:{ exists buffer. eexists. eexists.
      split; (eapply patch_failed; [eassumption | assumption | right; right; eauto]). }
  exists b3. eexists. eexists. split; eapply patch_written; eassumption.
Qed.

(** X6.  When the serializer returns, a failure of the binary patch does
    not stop the run: whether the patch succeeds, fails or finds no table,
    the run goes on to the write with bytes that have the length of the
    serialized bytes.  When the write returns, these bytes are the file,
    the next line printed is that the font was saved, and the process is
    not stopped; when the write throws, nothing is written, the error is
    printed as a failure to save the font, and the exit code is 1. *)
Theorem patch_failure_is_not_fatal (toArrayBuffer : Font -> result Buffer)
    (write : Buffer -> result unit) (o : options.t) (font : Font)
    (outputBuffer : Buffer) (out : list line) :
  options.list o = false ->
  toArrayBuffer (editedFont font (metricsOf o font)) = Ok outputBuffer ->
  exists patchedBuffer out1,
    patchHheaTable (options.verbose o) outputBuffer
      (newAscent (metricsOf o font)) (newDescent (metricsOf o font))
      (newLineGap (metricsOf o font)) (out ++ runLog o font)
    = (Ok patchedBuffer, out1)
    /\ len patchedBuffer = len outputBuffer
    /\ (write patchedBuffer = Ok tt ->
        editAndSave toArrayBuffer write o font out
        = (Ok {| font_after := editedFont font (metricsOf o font);
                 written := Some patchedBuffer;
                 exit_code := None |},
           out1 ++ [LogFontSaved]))
    /\ (forall e, write patchedBuffer = Throw e ->
        editAndSave toArrayBuffer write o font out
        = (Ok {| font_after := editedFont font (metricsOf o font);
                 written := None;
                 exit_code := Some 1 |},
           out1 ++ [ErrorProcessingFont (Failed_to_save_font e)])).
Proof.
  intros Hlist Hser.
  destruct (patch_returns (options.verbose o) outputBuffer
              (newAscent (metricsOf o font)) (newDescent (metricsOf o font))
              (newLineGap (metricsOf o font)) (out ++ runLog o font))
    as (b' & out1 & Hp & Hlen).
  exists b', out1. split; [assumption|]. split; [assumption|].
  split.
  - intros Hw.
    rewrite (editAndSave_patched toArrayBuffer write o font outputBuffer b' out out1
               Hlist Hser Hp), Hw.
    reflexivity.
  - intros e Hw.
    rewrite (editAndSave_patched toArrayBuffer write o font outputBuffer b' out out1
               Hlist Hser Hp), Hw.
    reflexivity.
Qed.

(** [-a 4000] on a serialized font whose hhea record points at itself:
    the patch fails, and the run is saved or stopped as the write goes. *)
Lemma patch_failure_is_not_fatal_witness :
  editAndSave (fun _ => Ok self_pointing) (fun _ => Ok tt) tall_options sample_font []
  = (Ok {| font_after := editedFont sample_font (metricsOf tall_options sample_font);
           written := Some self_pointing;
           exit_code := None |},
     [WarnBinaryPatchingFailed (ERR_OUT_OF_RANGE_value (of_Z 40000)); LogFontSaved])
  /\ editAndSave (fun _ => Ok self_pointing) (fun _ => Throw SystemError) tall_options
       sample_font []
     = (Ok {| font_after := editedFont sample_font (metricsOf tall_options sample_font);
              written := None;
              exit_code := Some 1 |},
        [WarnBinaryPatchingFailed (ERR_OUT_OF_RANGE_value (of_Z 40000));
         ErrorProcessingFont (Failed_to_save_font SystemError)]).
Proof.
  destruct (patch_failure_is_not_fatal (fun _ => Ok self_pointing) (fun _ => Ok tt)
              tall_options sample_font self_pointing [] eq_refl eq_refl)
    as (b1 & l1 & Hp1 & _ & Hok & _).
  destruct (patch_failure_is_not_fatal (fun _ => Ok self_pointing)
              (fun _ => Throw SystemError)
              tall_options sample_font self_pointing [] eq_refl eq_refl)
    as (b2 & l2 & Hp2 & _ & _ & Hthrow).
  vm_compute in Hp1. injection Hp1 as <- <-.
  vm_compute in Hp2. injection Hp2 as <- <-.
  split; [exact (Hok eq_refl) | exact (Hthrow SystemError eq_refl)].
Defined.

(** X8.  A table that the font object does not have stays absent: the
    edit prints the warning for it, exactly then, edits the other table
    and leaves the em size as it is. *)
Theorem missing_table_policy (verbose : bool) (font : Font) (m : Metrics)
    (out : list line) :
  exists font' l,
    editTables verbose font m out = (Ok font', out ++ l)
    /\ unitsPerEm font' = unitsPerEm font
    /\ (In WarnNoOS2 l <-> os2 (tables font) = None)
    /\ (In WarnNoHhea l <-> hhea (tables font) = None)
    /\ (os2 (tables font') = None <-> os2 (tables font) = None)
    /\ (hhea (tables font') = None <-> hhea (tables font) = None)
    /\ (forall t, os2 (tables font) = Some t ->
          os2 (tables font') = Some (updateOS2 t m))
    /\ (forall h, hhea (tables font) = Some h ->
          hhea (tables font') = Some (recreateHhea h m)).
Proof.
  exists (editedFont font m), (editLog verbose font m).
  split; [apply editTables_eq|]. split; [reflexivity|].
  unfold editLog, editedFont, verbosely. cbn [tables os2 hhea].
  destruct (os2 (tables font)) as [t|], (hhea (tables font)) as [h|], verbose;
    cbn; repeat split; intros; try congruence; try tauto;
    repeat match goal with
           | H : _ \/ _ |- _ => destruct H
           | H : False |- _ => destruct H
           end; try discriminate; auto.
Qed.

(** X9.  With metrics that are integers of the signed 16-bit range and a
    serialized font whose hhea table the scan locates inside the buffer,
    the bytes that the run writes hold the computed ascent, descent and
    line gap in the hhea table, as big-endian signed 16-bit values, and
    differ from the serialized bytes there at most.  With 2048 units per
    em and the default options these are 1843, -451 and 0. *)
Theorem written_bytes_hold_metrics (toArrayBuffer : Font -> result Buffer)
    (o : options.t) (font : Font) (outputBuffer : Buffer) (off za zd zg : Z)
    (out : list line) :
  options.list o = false ->
  toArrayBuffer (editedFont font (metricsOf o font)) = Ok outputBuffer ->
  scanDirectory outputBuffer 12 = Ok off -> off <> -1 ->
  off + 9 < len outputBuffer ->
  newAscent (metricsOf o font) = of_Z za -> -32768 <= za <= 32767 ->
  newDescent (metricsOf o font) = of_Z zd -> -32768 <= zd <= 32767 ->
  newLineGap (metricsOf o font) = of_Z zg -> -32768 <= zg <= 32767 ->
  exists run patchedBuffer,
    modifyFont toArrayBuffer o font out
    = (Ok run,
       out ++ runLog o font
           ++ verbosely (options.verbose o) (LogFoundHhea off)
           ++ verbosely (options.verbose o)
                (LogBinaryPatched (of_Z za) (of_Z zd) (of_Z zg) off)
           ++ [LogFontSaved])
    /\ exit_code run = None
    /\ written run = Some patchedBuffer
    /\ readInt16BE patchedBuffer (off + 4) = Ok za
    /\ readInt16BE patchedBuffer (off + 6) = Ok zd
    /\ readInt16BE patchedBuffer (off + 8) = Ok zg
    /\ (forall i, ~ (off + 4 <= i < off + 10) ->
          get patchedBuffer i = get outputBuffer i).
Proof.
  intros Hlist Hser Hs Hne Hlen Ha Hza Hd Hzd Hg Hzg.
  destruct (patch_stores (options.verbose o) outputBuffer
              (newAscent (metricsOf o font)) (newDescent (metricsOf o font))
              (newLineGap (metricsOf o font)) off (out ++ runLog o font) Hs Hne Hlen)
    as (b' & Hp & Hl & Hget);
    try (rewrite ?Ha, ?Hd, ?Hg; apply accepts_int16; assumption).
  rewrite Ha, Hd, Hg in Hget.
  eexists. exists b'.
  split.
  { rewrite (modifyFont_saved toArrayBuffer o font outputBuffer b' out _ Hlist Hser Hp).
    rewrite Ha, Hd, Hg, <- !app_assoc. reflexivity. }
  split; [reflexivity|]. split; [reflexivity|].
  split.
  { erewrite readInt16BE_get; [rewrite (int16_stored za Hza); reflexivity | |];
      read_back Hget. }
  split.
  { erewrite readInt16BE_get; [rewrite (int16_stored zd Hzd); reflexivity | |];
      read_back Hget. }
  split.
  { erewrite readInt16BE_get; [rewrite (int16_stored zg Hzg); reflexivity | |];
      read_back Hget. }
  intros i Hi. read_back Hget.
Qed.

(** A font of 2048 units per em. *)
Lemma written_bytes_hold_metrics_witness :
  exists run patchedBuffer,
    modifyFont (fun _ => Ok sample_sfnt) default_options
      {| unitsPerEm := of_Z 2048; tables := tables sample_font |} []
    = (Ok run, [LogFontSaved])
    /\ exit_code run = None
    /\ written run = Some patchedBuffer
    /\ readInt16BE patchedBuffer (28 + 4) = Ok 1843
    /\ readInt16BE patchedBuffer (28 + 6) = Ok (-451)
    /\ readInt16BE patchedBuffer (28 + 8) = Ok 0.
Proof.
  assert (Hs : scanDirectory sample_sfnt 12 = Ok 28) by (vm_compute; reflexivity).
  assert (Hlen : 28 + 9 < len sample_sfnt) by (vm_compute; reflexivity).
  assert (Ha : newAscent (metricsOf default_options
                 {| unitsPerEm := of_Z 2048; tables := tables sample_font |})
               = of_Z 1843) by (vm_compute; reflexivity).
  assert (Hd : newDescent (metricsOf default_options
                 {| unitsPerEm := of_Z 2048; tables := tables sample_font |})
               = of_Z (-451)) by (vm_compute; reflexivity).
  assert (Hg : newLineGap (metricsOf default_options
                 {| unitsPerEm := of_Z 2048; tables := tables sample_font |})
               = of_Z 0) by (vm_compute; reflexivity).
  destruct (written_bytes_hold_metrics (fun _ => Ok sample_sfnt) default_options
              {| unitsPerEm := of_Z 2048; tables := tables sample_font |}
              sample_sfnt 28 1843 (-451) 0 [] eq_refl eq_refl Hs ltac:(lia) Hlen
              Ha ltac:(lia) Hd ltac:(lia) Hg ltac:(lia))
    as (run & b & Hrun & He & Hw & H1 & H2 & H3 & _).
  exists run, b. split; [exact Hrun | auto].
Defined.



(** * Further properties of the metric computation *)

Lemma geb_zero_sign (x : number) : geb x (of_Z 0) = true <-> zero_or_sign false x.
Proof. apply geb_zero_iff. Qed.

Lemma leb_zero_sign (x : number) : leb x (of_Z 0) = true <-> zero_or_sign true x.
Proof.
  unfold leb, SFleb, of_Z, zero_or_sign. cbn [binary_normalize SFcompare].
  destruct x as [s|s| |s m e]; cbn [has_sign]; try destruct s; cbn;
    split; intros H;
    first [ reflexivity | discriminate | contradiction
          | left; eexists; reflexivity | right; reflexivity
          | destruct H as [[s' H]|H]; first [discriminate | contradiction] ].
Qed.

Lemma div_sign (s : bool) (x : number) (my : positive) (ey : Z) :
  zero_or_sign s x -> zero_or_sign s (div x (S754_finite false my ey)).
Proof.
  intros [[s' ->]|Hx]; [left; cbn; eauto|].
  destruct x as [s'|s'| |s' mx ex]; cbn [has_sign] in Hx; try contradiction; subst s'.
  - left. cbn. eauto.
  - right. cbn. apply xorb_false_r.
  - right. unfold div, SFdiv. rewrite xorb_false_r.
    destruct (SFdiv_core_binary prec emax (Zpos mx) ex (Zpos my) ey) as [[mz ez] lz] eqn:Hcore.
    apply binary_round_aux_sign.
    unfold SFdiv_core_binary in Hcore.
    set (t := ex - ey - _) in Hcore.
    set (m' := match t with Zpos _ => Z.shiftl (Zpos mx) t | 0 => Zpos mx | Zneg _ => 0 end)
      in Hcore.
    assert (Hm' : 0 <= m').
    { subst m'. destruct t; try lia. apply Z.shiftl_nonneg. lia. }
    pose proof (Z.div_pos m' (Zpos my) Hm' ltac:(lia)) as Hq.
    unfold Z.div in Hq. destruct (Z.div_eucl m' (Zpos my)) as [q r].
    cbn [fst] in Hq. congruence.
Qed.

Lemma mul_sign (s : bool) (mu : positive) (eu : Z) (x : number) :
  zero_or_sign s x -> zero_or_sign s (mul (S754_finite false mu eu) x).
Proof.
  intros [[s' ->]|Hx]; [left; cbn; eauto|].
  destruct x as [s'|s'| |s' mx ex]; cbn [has_sign] in Hx; try contradiction; subst s'.
  - left. cbn. eauto.
  - right. reflexivity.
  - right. unfold mul, SFmul. cbn [xorb]. apply binary_round_aux_sign. lia.
Qed.

Lemma floor_half_nonpos (m : positive) (e : Z) : e < 0 -> floor_half true m e <= 0.
Proof.
  intros He. unfold floor_half.
  replace (0 <=? e) with false by (symmetry; apply Z.leb_gt; lia).
  assert (Hd : 0 < 2 ^ (- e)) by (apply Z.pow_pos_nonneg; lia).
  assert (Hd2 : 2 ^ (1 - e) = 2 * 2 ^ (- e)).
  { replace (1 - e) with (Z.succ (- e)) by lia. apply Z.pow_succ_r. lia. }
  rewrite Hd2.
  assert ((2 * Zneg m + 2 ^ (- e)) / (2 * 2 ^ (- e)) < 1)
    by (apply Z.div_lt_upper_bound; lia).
  lia.
Qed.

Lemma of_Z_sign_neg (p : positive) : has_sign true (of_Z (Zneg p)).
Proof.
  unfold of_Z, binary_normalize, binary_round.
  destruct (shl_align p 0 _) as [mz ez]. apply binary_round_aux_sign. lia.
Qed.

Lemma Math_round_sign (s : bool) (x : number) :
  zero_or_sign s x -> zero_or_sign s (Math_round x).
Proof.
  intros [[s' ->]|Hx]; [left; cbn; eauto|].
  destruct x as [s'|s'| |s' m e]; cbn [has_sign] in Hx; try contradiction; subst s';
    cbn [Math_round]; try (right; reflexivity).
  destruct (0 <=? e) eqn:He; [right; reflexivity|]. apply Z.leb_gt in He.
  destruct s.
  - pose proof (floor_half_nonpos m e He) as Hn.
    destruct (floor_half true m e) as [|q|q]; [left; eauto | lia | right; apply of_Z_sign_neg].
  - pose proof (floor_half_nonneg m e) as Hn.
    destruct (floor_half false m e) as [|q|q]; [left; eauto | right; apply of_Z_sign | lia].
Qed.

Lemma neg_sign (s : bool) (x : number) :
  zero_or_sign s x -> zero_or_sign (negb s) (neg x).
Proof.
  intros [[s' ->]|Hx]; [left; cbn; eauto|]. right. apply has_sign_neg. exact Hx.
Qed.

(** X11.  For a positive integer em size the sign of each metric follows
    the sign of its input: the ascent and the line gap are at least zero
    for an input that is at least zero and at most zero for one that is at
    most zero, and a descent percentage that is at most zero gives a
    descent that is at least zero: no absolute value is taken. *)
Theorem metric_signs (n : Z) (ascentPercent descentPercent lineGapUnits : number) :
  0 < n < 2 ^ 53 ->
  let m := computeMetrics (of_Z n) ascentPercent descentPercent lineGapUnits in
  (geb ascentPercent (of_Z 0) = true -> geb (newAscent m) (of_Z 0) = true)
  /\ (leb ascentPercent (of_Z 0) = true -> leb (newAscent m) (of_Z 0) = true)
  /\ (leb descentPercent (of_Z 0) = true -> geb (newDescent m) (of_Z 0) = true)
  /\ (geb lineGapUnits (of_Z 0) = true -> geb (newLineGap m) (of_Z 0) = true)
  /\ (leb lineGapUnits (of_Z 0) = true -> leb (newLineGap m) (of_Z 0) = true).
Proof.
  intros Hn m. destruct (unitsPerEm_finite n Hn) as (mu & eu & Hu).
  destruct hundred_finite as (mh & eh & Hh).
  subst m. unfold computeMetrics. cbn [newAscent newDescent newLineGap].
  rewrite Hu, Hh.
  repeat split; intros H.
  - apply geb_zero_sign. apply geb_zero_sign in H.
    apply Math_round_sign, mul_sign, div_sign, H.
  - apply leb_zero_sign. apply leb_zero_sign in H.
    apply Math_round_sign, mul_sign, div_sign, H.
  - apply geb_zero_sign. apply leb_zero_sign in H.
    apply (neg_sign true), Math_round_sign, mul_sign, div_sign, H.
  - apply geb_zero_sign. apply geb_zero_sign in H. apply Math_round_sign, H.
  - apply leb_zero_sign. apply leb_zero_sign in H. apply Math_round_sign, H.
Qed.

(** [-d -10] on an em of 1000: a descent of 100 units above the baseline. *)
Lemma metric_signs_witness :
  newDescent (computeMetrics (of_Z 1000) (of_Z 90) (of_Z (-10)) (of_Z 0)) = of_Z 100
  /\ geb (newDescent (computeMetrics (of_Z 1000) (of_Z 90) (of_Z (-10)) (of_Z 0)))
       (of_Z 0) = true.
Proof.
  split; [vm_compute; reflexivity|].
  destruct (metric_signs 1000 (of_Z 90) (of_Z (-10)) (of_Z 0) ltac:(lia))
    as (_ & _ & H & _).
  apply H. reflexivity.
Defined.

(** * Editing twice *)

Lemma ToInt32_range (x : number) : - 2 ^ 31 <= ToInt32 x < 2 ^ 31.
Proof.
  unfold ToInt32. pose proof (Z.mod_pos_bound (trunc x) (2 ^ 32) ltac:(lia)) as Hm.
  destruct (Z.leb_spec (2 ^ 31) (trunc x mod 2 ^ 32)); lia.
Qed.

Lemma ToInt32_of_Z (v : Z) : - 2 ^ 31 <= v < 2 ^ 31 -> ToInt32 (of_Z v) = v.
Proof.
  intros Hv. unfold ToInt32. rewrite trunc_of_Z by lia.
  destruct (Z_le_dec 0 v) as [Hpos|Hneg].
  - rewrite Z.mod_small by lia.
    replace (2 ^ 31 <=? v) with false by (symmetry; apply Z.leb_gt; lia). reflexivity.
  - replace (v mod 2 ^ 32) with (v + 2 ^ 32)
      by (apply (Z.mod_unique_pos v (2 ^ 32) (-1)); lia).
    replace (2 ^ 31 <=? v + 2 ^ 32) with true by (symmetry; apply Z.leb_le; lia).
    lia.
Qed.

Lemma land_128_range (a : Z) : 0 <= Z.land a 128 <= 128.
Proof.
  assert (Hsum : Z.land a 128 + Z.land (Z.lnot a) 128 = 128).
  { rewrite <- Zbitwise.Z.add_lor_land.
    replace (Z.lor (Z.land a 128) (Z.land (Z.lnot a) 128)) with 128.
    2:{ rewrite <- Z.land_lor_distr_l, Z.lor_lnot_diag. symmetry. apply Z.land_m1_l. }
    replace (Z.land (Z.land a 128) (Z.land (Z.lnot a) 128)) with 0; [lia|].
    symmetry. apply Z.bits_inj'. intros k Hk.
    rewrite !Z.land_spec, Z.lnot_spec, Z.bits_0 by assumption.
    destruct (Z.testbit a k), (Z.testbit 128 k); reflexivity. }
  assert (0 <= Z.land a 128) by (apply Z.land_nonneg; lia).
  assert (0 <= Z.land (Z.lnot a) 128) by (apply Z.land_nonneg; lia).
  lia.
Qed.

Lemma lor_128_range (a : Z) :
  - 2 ^ 31 <= a < 2 ^ 31 -> - 2 ^ 31 <= Z.lor a 128 < 2 ^ 31.
Proof.
  intros Ha. pose proof (land_128_range a) as Hl.
  pose proof (Zbitwise.Z.add_lor_land a 128) as Hsum.
  split; [lia|].
  destruct (Z_lt_dec a 0) as [Hneg|Hpos].
  - assert (Z.lor a 128 < 0) by (apply Z.lor_neg; lia). lia.
  - destruct (Z.eq_dec a 0) as [->|Hnz]; [cbn; lia|].
    apply Z.log2_lt_pow2; [lia|].
    rewrite Z.log2_lor by lia.
    assert (Z.log2 a < 31) by (apply Z.log2_lt_pow2; lia).
    change (Z.log2 128) with 7. lia.
Qed.

Lemma bitor_128_again (x : number) :
  bitor (bitor x (of_Z 128)) (of_Z 128) = bitor x (of_Z 128).
Proof.
  unfold bitor.
  assert (H128 : ToInt32 (of_Z 128) = 128) by (vm_compute; reflexivity).
  rewrite H128, ToInt32_of_Z by (apply lor_128_range, ToInt32_range).
  rewrite <- Z.lor_assoc, Z.lor_diag. reflexivity.
Qed.

Lemma or_else_again (v d : value) : or_else (or_else v d) d = or_else v d.
Proof.
  unfold or_else. destruct (truthy v) eqn:Hv; [rewrite Hv; reflexivity|].
  destruct (truthy d); reflexivity.
Qed.

(** X12.  Editing the font object a second time with the same metrics
    changes nothing: the selection flags keep bit 7, and the defaults of
    the hhea table have been applied already. *)
Theorem edit_twice_is_edit_once (v1 v2 : bool) (font font1 font2 : Font) (m : Metrics)
    (out1 out2 l1 l2 : list line) :
  editTables v1 font m out1 = (Ok font1, l1) ->
  editTables v2 font1 m out2 = (Ok font2, l2) ->
  font2 = font1.
Proof.
  intros E1 E2. rewrite editTables_eq in E1. injection E1 as <- _.
  rewrite editTables_eq in E2. injection E2 as <- _.
  unfold editedFont. cbn [unitsPerEm tables os2 hhea].
  f_equal. f_equal.
  - destruct (os2 (tables font)) as [t|]; [|reflexivity].
    unfold updateOS2. cbn [fsSelection ToNumber]. rewrite bitor_128_again. reflexivity.
  - destruct (hhea (tables font)) as [h|]; [|reflexivity].
    unfold recreateHhea.
    cbn [version advanceWidthMax minLeftSideBearing minRightSideBearing xMaxExtent
         caretSlopeRise caretSlopeRun caretOffset reserved1 reserved2 reserved3
         reserved4 metricDataFormat numberOfHMetrics].
    rewrite !or_else_again. reflexivity.
Qed.

Lemma edit_twice_is_edit_once_witness :
  editedFont (editedFont sample_font (metricsOf default_options sample_font))
    (metricsOf default_options sample_font)
  = editedFont sample_font (metricsOf default_options sample_font).
Proof.
  apply (edit_twice_is_edit_once false false sample_font _ _
           (metricsOf default_options sample_font) [] [] [] []); apply editTables_eq.
Defined.

(** * File names and format keywords *)

Module NamesFacts.
Import Ascii String Names.
Local Open Scope string_scope.

Lemma lower_char_again (c : ascii) : lower_char (lower_char c) = lower_char c.
Proof. destruct c as [[] [] [] [] [] [] [] []]; reflexivity. Qed.

Lemma toLowerCase_again (s : string) : toLowerCase (toLowerCase s) = toLowerCase s.
Proof.
  induction s as [|c s IH]; [reflexivity|].
  cbn [toLowerCase]. rewrite lower_char_again, IH. reflexivity.
Qed.

Lemma formats_cases (key : string) :
  (key = "woff2" /\ formats key = Some (Str "woff2"))
  \/ (key = "woff" /\ formats key = Some (Str "woff"))
  \/ (key = "ttf" /\ formats key = Some (Str "truetype"))
  \/ (key = "otf" /\ formats key = Some (Str "opentype"))
  \/ (key = "constructor" /\ formats key = Some Object_constructor)
  \/ (key = "__proto__" /\ formats key = Some Object_prototype)
  \/ (formats key = None
      /\ key <> "woff2" /\ key <> "woff" /\ key <> "ttf" /\ key <> "otf"
      /\ key <> "constructor" /\ key <> "__proto__").
Proof.
  unfold formats.
  destruct (String.eqb_spec key "woff2") as [->|H1]; [auto|].
  destruct (String.eqb_spec key "woff") as [->|H2]; [auto|].
  destruct (String.eqb_spec key "ttf") as [->|H3]; [auto 6|].
  destruct (String.eqb_spec key "otf") as [->|H4]; [auto 7|].
  destruct (String.eqb_spec key "constructor") as [->|H5]; [auto 8|].
  destruct (String.eqb_spec key "__proto__") as [->|H6]; [auto 9|].
  repeat right. auto 10.
Qed.

(** X13.  The format keyword of an extension written in ASCII does not
    depend on the case of the extension; when it is a string, it is in
    lower case and is its own keyword; it is truetype exactly for the
    extensions that read ttf or truetype in lower case; and it is not a
    string exactly when the extension reads constructor or __proto__ in
    lower case, the two names that the object literal inherits. *)
Theorem getFormat_keyword (ext : string) :
  ascii_only ext = true ->
  getFormat (toLowerCase ext) = getFormat ext
  /\ (forall k, getFormat ext = Str k -> toLowerCase k = k /\ getFormat k = Str k)
  /\ (getFormat ext = Str "truetype"
      <-> toLowerCase ext = "ttf" \/ toLowerCase ext = "truetype")
  /\ ((forall k, getFormat ext <> Str k)
      <-> toLowerCase ext = "constructor" \/ toLowerCase ext = "__proto__").
Proof.
  intros _. unfold getFormat. rewrite toLowerCase_again.
  split; [reflexivity|].
  destruct (formats_cases (toLowerCase ext))
    as [[-> ->]|[[-> ->]|[[-> ->]|[[-> ->]|[[-> ->]|[[-> ->]|(-> & N1 & N2 & N3 & N4 & N5 & N6)]]]]]].
  1-4: split; [intros k [= <-]; split; reflexivity|];
       split; [split; [intros [= ]|intros [[= ]|[= ]]]; auto|];
       split; [intros H; exfalso; eapply H; reflexivity|intros [[= ]|[= ]]].
  1-2: split; [intros k [= ]|];
       split; [split; [intros [= ]|intros [[= ]|[= ]]]|];
       split; [auto|intros _ k [= ]].
  split.
  { intros k [= <-]. rewrite toLowerCase_again. split; [reflexivity|].
    destruct (formats_cases (toLowerCase ext))
      as [[E _]|[[E _]|[[E _]|[[E _]|[[E _]|[[E _]|(-> & _)]]]]]];
      try contradiction. reflexivity. }
  split.
  { split; [intros [= ->]; auto|intros [E|E]; [contradiction|rewrite E; reflexivity]]. }
  split; [intros H; exfalso; eapply H; reflexivity|intros [E|E]; contradiction].
Qed.

Lemma getFormat_keyword_witness :
  getFormat (toLowerCase "TTF") = getFormat "TTF"
  /\ getFormat "TTF" = Str "truetype".
Proof.
  destruct (getFormat_keyword "TTF" eq_refl) as (H & _).
  split; [exact H | reflexivity].
Defined.

Lemma length_append (a b : string) :
  String.length (a ++ b) = (String.length a + String.length b)%nat.
Proof. induction a as [|c a IH]; cbn; [reflexivity | rewrite IH; reflexivity]. Qed.

Lemma append_cancel (a b c : string) : a ++ b = a ++ c -> b = c.
Proof. induction a as [|x a IH]; cbn; [auto | intros [= H]; auto]. Qed.

(** X14.  The file name that font-metrics.js joins to the directory of the
    input is never the name of the input, that is its name followed by its
    extension, and its extension never reads .woff2 in lower case: it is
    the extension of the input, or .ttf for an input whose extension reads
    .woff2 in lower case. *)
Theorem default_output_is_another_file (path_parse : string -> ParsedPath)
    (path_join : string -> string -> string) (inputPath : string) :
  ascii_only (ext (path_parse inputPath)) = true ->
  exists fileName,
    generateOutputPath path_parse path_join inputPath
    = path_join (dir (path_parse inputPath)) fileName
    /\ fileName <> name (path_parse inputPath) ++ ext (path_parse inputPath)
    /\ fileName
       = name (path_parse inputPath) ++ "-fixed" ++ outputExt (path_parse inputPath)
    /\ toLowerCase (outputExt (path_parse inputPath)) <> ".woff2"
    /\ (toLowerCase (ext (path_parse inputPath)) <> ".woff2" ->
        outputExt (path_parse inputPath) = ext (path_parse inputPath)).
Proof.
  intros _. set (parsed := path_parse inputPath).
  exists (name parsed ++ "-fixed" ++ outputExt parsed).
  split; [reflexivity|].
  unfold outputExt.
  destruct (String.eqb_spec (toLowerCase (ext parsed)) ".woff2") as [Hw|Hw].
  - split.
    + intros H. apply append_cancel in H. rewrite <- H in Hw. discriminate Hw.
    + split; [reflexivity|]. split; [discriminate | contradiction].
  - split.
    + intros H. apply append_cancel in H.
      apply (f_equal String.length) in H. rewrite length_append in H. cbn in H. lia.
    + split; [reflexivity|]. split; [assumption | reflexivity].
Qed.

Lemma default_output_is_another_file_witness :
  exists fileName,
    generateOutputPath
      (fun _ => {| dir := "fonts"; base := "Inter.WOFF2"; ext := ".WOFF2"; name := "Inter" |})
      (fun d f => d ++ "/" ++ f) "fonts/Inter.WOFF2"
    = "fonts" ++ "/" ++ fileName
    /\ fileName <> "Inter" ++ ".WOFF2"
    /\ fileName = "Inter-fixed.ttf".
Proof.
  destruct (default_output_is_another_file
              (fun _ => {| dir := "fonts"; base := "Inter.WOFF2"; ext := ".WOFF2";
                           name := "Inter" |})
              (fun d f => d ++ "/" ++ f) "fonts/Inter.WOFF2" eq_refl)
    as (fileName & H1 & H2 & H3 & _).
  exists fileName. auto.
Defined.

(** X15.  In compress-woff2.js an input that passes the check of the
    extension, when [path.parse] and [path.extname] agree on it, gets a
    default output whose file name is not the name of the input. *)
Theorem compressed_output_is_another_file (path_parse : string -> ParsedPath)
    (path_join : string -> string -> string) (path_extname : string -> string)
    (inputPath : string) :
  ascii_only (path_extname inputPath) = true ->
  ext (path_parse inputPath) = path_extname inputPath ->
  CompressWoff2.supportedInput (toLowerCase (path_extname inputPath)) = true ->
  exists fileName,
    CompressWoff2.generateOutputPath path_parse path_join inputPath
    = path_join (dir (path_parse inputPath)) fileName
    /\ fileName <> name (path_parse inputPath) ++ ext (path_parse inputPath).
Proof.
  intros _ Hext Hsup. exists (name (path_parse inputPath) ++ ".woff2").
  split; [reflexivity|].
  intros H. apply append_cancel in H. rewrite Hext in H. rewrite <- H in Hsup.
  discriminate Hsup.
Qed.

Lemma compressed_output_is_another_file_witness :
  exists fileName,
    CompressWoff2.generateOutputPath
      (fun _ => {| dir := "fonts"; base := "Inter.TTF"; ext := ".TTF"; name := "Inter" |})
      (fun d f => d ++ "/" ++ f) "fonts/Inter.TTF"
    = "fonts" ++ "/" ++ fileName
    /\ fileName <> "Inter" ++ ".TTF".
Proof.
  exact (compressed_output_is_another_file
           (fun _ => {| dir := "fonts"; base := "Inter.TTF"; ext := ".TTF";
                        name := "Inter" |})
           (fun d f => d ++ "/" ++ f) (fun _ => ".TTF") "fonts/Inter.TTF"
           eq_refl eq_refl eq_refl).
Defined.

(** X16.  compress-woff2.js writes a file exactly when the input exists,
    its extension reads .ttf or .otf in lower case, and reading,
    compressing and writing all return; the file then holds what the codec
    returned, at the path given with -o when there is one and it is not
    empty and at the generated path otherwise, and the process is not
    stopped.  In every other case nothing is written and the exit code
    is 1. *)
Theorem compressor_outcome (path_parse : string -> ParsedPath)
    (path_join : string -> string -> string) (path_extname : string -> string)
    (existsSync : string -> bool)
    (readFileSync : string -> outcome Buffer)
    (compress : Buffer -> outcome Buffer)
    (writeFileSync : string -> Buffer -> outcome unit)
    (inputPath : string) (output : option string) (verbose : bool) :
  ascii_only (path_extname inputPath) = true ->
  let r := fst (CompressWoff2.script path_parse path_join path_extname existsSync
                  readFileSync compress writeFileSync inputPath output verbose) in
  let outputPath :=
    match output with
    | Some p =>
        if p =? "" then CompressWoff2.generateOutputPath path_parse path_join inputPath
        else p
    | None => CompressWoff2.generateOutputPath path_parse path_join inputPath
    end in
  ((exists inputBuffer woff2Buffer,
      existsSync inputPath = true
      /\ (toLowerCase (path_extname inputPath) = ".ttf"
          \/ toLowerCase (path_extname inputPath) = ".otf")
      /\ readFileSync inputPath = Returned inputBuffer
      /\ compress inputBuffer = Returned woff2Buffer
      /\ writeFileSync outputPath woff2Buffer = Returned tt
      /\ exit_status r = None
      /\ file_written r = Some (outputPath, woff2Buffer))
   \/ (file_written r = None /\ exit_status r = Some 1
       /\ (existsSync inputPath = false
           \/ CompressWoff2.supportedInput (toLowerCase (path_extname inputPath)) = false
           \/ (exists m, readFileSync inputPath = Thrown m)
           \/ (exists b m, readFileSync inputPath = Returned b
                           /\ compress b = Thrown m)
           \/ (exists b w m, readFileSync inputPath = Returned b
                             /\ compress b = Returned w
                             /\ writeFileSync outputPath w = Thrown m))))
  /\ (forall p, output = Some p -> p <> "" -> outputPath = p).
Proof.
  intros _ r outputPath. split.
  2:{ intros p -> Hne. subst outputPath.
      destruct (String.eqb_spec p ""); [contradiction | reflexivity]. }
  subst r. unfold CompressWoff2.script.
  destruct (existsSync inputPath) eqn:He; cbn [negb];
    [|right; cbn; auto].
  destruct (CompressWoff2.supportedInput (toLowerCase (path_extname inputPath))) eqn:Hs;
    cbn [negb]; [|right; cbn; auto].
  fold outputPath. unfold CompressWoff2.compressFont.
  destruct (readFileSync inputPath) as [inputBuffer|m] eqn:Hr.
  2:{ right. cbn. split; [reflexivity|]. split; [reflexivity|].
      right. right. left. exists m. reflexivity. }
  destruct (compress inputBuffer) as [woff2Buffer|m] eqn:Hc.
  2:{ right. cbn. split; [reflexivity|]. split; [reflexivity|].
      right. right. right. left. exists inputBuffer, m. auto. }
  destruct (writeFileSync outputPath woff2Buffer) as [[]|m] eqn:Hw.
  2:{ right. cbn. split; [reflexivity|]. split; [reflexivity|].
      right. right. right. right. exists inputBuffer, woff2Buffer, m. auto. }
  left. exists inputBuffer, woff2Buffer.
  cbn [fst file_written exit_status].
  split; [reflexivity|]. split.
  { unfold CompressWoff2.supportedInput in Hs. apply orb_true_iff in Hs.
    destruct Hs as [H|H]; apply String.eqb_eq in H; auto. }
  split; [reflexivity|]. split; [exact Hc|]. split; [exact Hw|].
  split; reflexivity.
Qed.

(** Inter.ttf, read, compressed and written: the file is Inter.woff2 beside
    the input. *)
Lemma compressor_outcome_witness :
  fst (CompressWoff2.script (Paths.parsed_as "fonts" "Inter" ".ttf") Paths.joined
         (fun _ => ".ttf") (fun _ => true) (fun _ => Returned sample_sfnt)
         (fun b => Returned b) (fun _ _ => Returned tt)
         "fonts/Inter.ttf" None false)
  = {| file_written := Some ("fonts/Inter.woff2", sample_sfnt); exit_status := None |}.
Proof.
  destruct (compressor_outcome
              (Paths.parsed_as "fonts" "Inter" ".ttf") Paths.joined
              (fun _ => ".ttf") (fun _ => true) (fun _ => Returned sample_sfnt)
              (fun b => Returned b) (fun _ _ => Returned tt)
              "fonts/Inter.ttf" None false eq_refl)
    as [[(b1 & b2 & _ & _ & Hr & Hc & _ & He & Hw)|(_ & He & _)] _].
  - injection Hr as <-. injection Hc as <-.
    destruct (fst _) as [fw es]. cbn in He, Hw. rewrite He, Hw. reflexivity.
  - discriminate He.
Defined.

End NamesFacts.

(** * The script from the command line on *)

(** Every run from the parsed font on returns.  A listing writes nothing
    and does not stop the process; a run whose serializer or whose write
    throws writes nothing and stops the process; a run whose serializer
    and whose write return writes bytes of the length of the serialized
    bytes and does not stop the process. *)
Lemma editAndSave_returns (toArrayBuffer : Font -> result Buffer)
    (write : Buffer -> result unit) (o : options.t) (font : Font) (out : list line) :
  exists run out',
    editAndSave toArrayBuffer write o font out = (Ok run, out')
    /\ ((options.list o = true /\ written run = None /\ exit_code run = None)
        \/ (options.list o = false /\ written run = None /\ exit_code run = Some 1
            /\ ((exists e, toArrayBuffer (editedFont font (metricsOf o font)) = Throw e)
                \/ (exists outputBuffer patchedBuffer e,
                      toArrayBuffer (editedFont font (metricsOf o font))
                      = Ok outputBuffer
                      /\ len patchedBuffer = len outputBuffer
                      /\ write patchedBuffer = Throw e)))
        \/ (options.list o = false /\ exit_code run = None
            /\ exists outputBuffer patchedBuffer,
                 toArrayBuffer (editedFont font (metricsOf o font)) = Ok outputBuffer
                 /\ written run = Some patchedBuffer
                 /\ len patchedBuffer = len outputBuffer
                 /\ write patchedBuffer = Ok tt)).
Proof.
  destruct (options.list o) eqn:Hlist.
  { unfold editAndSave. rewrite Hlist. eexists. eexists.
    split; [reflexivity|]. left. auto. }
  destruct (toArrayBuffer (editedFont font (metricsOf o font))) as [buf|e] eqn:Hser.
  - destruct (patch_returns (options.verbose o) buf
                (newAscent (metricsOf o font)) (newDescent (metricsOf o font))
                (newLineGap (metricsOf o font)) (out ++ runLog o font))
      as (b' & out1 & Hp & Hlen).
    rewrite (editAndSave_patched toArrayBuffer write o font buf b' out out1
               Hlist Hser Hp).
    destruct (write b') as [[]|e] eqn:Hw; eexists; eexists; (split; [reflexivity|]).
    + right. right. split; [reflexivity|]. split; [reflexivity|].
      exists buf, b'. auto.
    + right. left. split; [reflexivity|]. split; [reflexivity|]. split; [reflexivity|].
      right. exists buf, b', e. auto.
  - eexists. eexists.
    split; [apply (editAndSave_not_serialized toArrayBuffer write o font e out Hlist Hser)|].
    right. left. split; [reflexivity|]. split; [reflexivity|]. split; [reflexivity|].
    left. exists e. reflexivity.
Qed.

(** What a run from the parsed font on leaves behind does not depend on
    the verbosity nor on what was printed before. *)
Lemma editAndSave_whatever_verbose (toArrayBuffer : Font -> result Buffer)
    (write : Buffer -> result unit) (o : options.t) (v : bool) (font : Font)
    (out1 out2 : list line) :
  exists run l1 l2,
    editAndSave toArrayBuffer write o font out1 = (Ok run, l1)
    /\ editAndSave toArrayBuffer write (with_verbose v o) font out2 = (Ok run, l2).
Proof.
  destruct (options.list o) eqn:Hlist.
  { unfold editAndSave. cbn [with_verbose options.list]. rewrite Hlist.
    eexists. eexists. eexists. split; reflexivity. }
  assert (Hlist2 : options.list (with_verbose v o) = false) by exact Hlist.
  destruct (toArrayBuffer (editedFont font (metricsOf o font))) as [buf|e] eqn:Hser.
  - destruct (patch_bytes_whatever_verbose (options.verbose o) v buf
                (newAscent (metricsOf o font)) (newDescent (metricsOf o font))
                (newLineGap (metricsOf o font))
                (out1 ++ runLog o font) (out2 ++ runLog (with_verbose v o) font))
      as (b' & k1 & k2 & P1 & P2).
    rewrite (editAndSave_patched toArrayBuffer write o font buf b' out1 k1
               Hlist Hser P1).
    rewrite (editAndSave_patched toArrayBuffer write (with_verbose v o) font buf b'
               out2 k2 Hlist2 Hser P2).
    change (metricsOf (with_verbose v o) font) with (metricsOf o font).
    destruct (write b'); eexists; eexists; eexists; split; reflexivity.
  - rewrite (editAndSave_not_serialized toArrayBuffer write o font e out1 Hlist Hser).
    rewrite (editAndSave_not_serialized toArrayBuffer write (with_verbose v o) font e
               out2 Hlist2 Hser).
    change (metricsOf (with_verbose v o) font) with (metricsOf o font).
    eexists. eexists. eexists. split; reflexivity.
Qed.

Module ScriptFacts.
Import Ascii String Names.
Local Open Scope string_scope.

Section Main.

Variable path_parse : string -> ParsedPath.
Variable path_join : string -> string -> string.
Variable path_extname : string -> string.
Variable existsSync : string -> bool.
Variable FontkitFont : Type.
Variable fontkit_open : string -> outcome FontkitFont.
Variable list_fontkit : FontkitFont -> outcome unit.
Variable readFileSync : string -> outcome Buffer.
Variable decompress : Buffer -> outcome Buffer.
Variable log_decompressed : Buffer -> outcome unit.
Variable opentype_parse : Buffer -> outcome Font.
Variable list_metrics : Font -> outcome unit.
Variable toArrayBuffer : Font -> result Buffer.
Variable writeFileSync : string -> Buffer -> result unit.
Variable loadSync : string -> outcome Font.

Local Abbreviation main :=
  (Script.main path_parse path_join path_extname existsSync FontkitFont fontkit_open
     list_fontkit readFileSync decompress log_decompressed opentype_parse
     list_metrics toArrayBuffer writeFileSync loadSync).

Local Abbreviation exit1 := {| file_written := None; exit_status := Some 1 |}.

(** X17.  For an input whose extension reads .woff2 in lower case, once
    fontkit has opened it, whatever fails between reading the file and
    parsing the decompressed bytes (the read, the codec, the two verbose
    lines, the parser) is reported as a failed WOFF2 decompression; nothing
    is written and the exit code is 1. *)
Theorem woff2_failures_are_reported_as_decompression (inputPath : string)
    (output : option string) (o : options.t) (fontkitFont : FontkitFont)
    (message : string) :
  existsSync inputPath = true ->
  toLowerCase (path_extname inputPath) = ".woff2" ->
  options.list o = false ->
  fontkit_open inputPath = Returned fontkitFont ->
  (options.verbose o = true -> list_fontkit fontkitFont = Returned tt) ->
  (readFileSync inputPath = Thrown message
   \/ (exists woff2Buffer,
         readFileSync inputPath = Returned woff2Buffer
         /\ decompress woff2Buffer = Thrown message)
   \/ (exists woff2Buffer ttfBuffer,
         readFileSync inputPath = Returned woff2Buffer
         /\ decompress woff2Buffer = Returned ttfBuffer
         /\ ((options.verbose o = true
              /\ log_decompressed ttfBuffer = Thrown message)
             \/ ((options.verbose o = true
                  -> log_decompressed ttfBuffer = Returned tt)
                 /\ opentype_parse ttfBuffer = Thrown message)))) ->
  main inputPath output o
  = (exit1, [Script.ErrorProcessingFont ("WOFF2 decompression failed: " ++ message)]).
Proof.
  intros He Hx Hlist Hopen Hfk Hfail.
  unfold Script.main, Script.loadFont, Script.isWoff2.
  rewrite He, Hx, Hlist, Hopen. cbn.
  rewrite orb_false_r.
  assert (Hl : (if options.verbose o then list_fontkit fontkitFont else Returned tt)
               = Returned tt).
  { destruct (options.verbose o); [apply Hfk; reflexivity | reflexivity]. }
  rewrite Hl. cbn.
  destruct Hfail as [Hr|[(w & Hr & Hd)|(w & t & Hr & Hd & Hrest)]].
  - rewrite Hr. reflexivity.
  - rewrite Hr. cbn. rewrite Hd. reflexivity.
  - rewrite Hr. cbn. rewrite Hd. cbn.
    destruct Hrest as [[Hv Hlog]|[Hlog Hp]].
    + rewrite Hv, Hlog. reflexivity.
    + assert (Hl2 : (if options.verbose o then log_decompressed t else Returned tt)
                    = Returned tt).
      { destruct (options.verbose o); [apply Hlog; reflexivity | reflexivity]. }
      rewrite Hl2. cbn. rewrite Hp. reflexivity.
Qed.

(** X18.  With --list nothing is written, and what the script does is the
    same whatever the output path, the codec, the verbose lines about the
    decompressed bytes, the serializer, the write and the read-back are:
    none of them is used. *)
Theorem listing_writes_nothing (inputPath : string) (output : option string)
    (o : options.t) :
  options.list o = true ->
  file_written (fst (main inputPath output o)) = None
  /\ (forall line, ~ In (Script.FromRun line) (snd (main inputPath output o)))
  /\ forall (output' : option string) (decompress' : Buffer -> outcome Buffer)
       (log_decompressed' : Buffer -> outcome unit)
       (toArrayBuffer' : Font -> result Buffer)
       (writeFileSync' : string -> Buffer -> result unit)
       (loadSync' : string -> outcome Font),
       main inputPath output o
       = Script.main path_parse path_join path_extname existsSync FontkitFont
           fontkit_open list_fontkit readFileSync decompress' log_decompressed'
           opentype_parse list_metrics toArrayBuffer' writeFileSync' loadSync'
           inputPath output' o.
Proof.
  intros Hlist.
  assert (Hrun : forall ser write font,
            editAndSave ser write o font []
            = (Ok {| font_after := font; written := None; exit_code := None |}, [])).
  { intros ser write font. unfold editAndSave. rewrite Hlist. reflexivity. }
  unfold Script.main, Script.loadFont. rewrite Hlist, orb_true_r.
  destruct (existsSync inputPath); cbn [negb].
  2:{ split; [reflexivity|]. split; [|reflexivity].
      intros line [H|[]]. discriminate H. }
  destruct (Script.isWoff2 path_extname inputPath).
  - destruct (fontkit_open inputPath) as [fk|m]; cbn.
    2:{ split; [reflexivity|]. split; [|reflexivity].
        intros line [H|[]]. discriminate H. }
    destruct (list_fontkit fk) as [[]|m]; cbn.
    2:{ split; [reflexivity|]. split; [|reflexivity].
        intros line [H|[]]. discriminate H. }
    split; [reflexivity|]. split; [|reflexivity]. intros line [].
  - destruct (readFileSync inputPath) as [b|m]; cbn.
    2:{ split; [reflexivity|]. split; [|reflexivity].
        intros line [H|[]]. discriminate H. }
    destruct (opentype_parse b) as [font|m]; cbn.
    2:{ split; [reflexivity|]. split; [|reflexivity].
        intros line [H|[]]. discriminate H. }
    destruct (list_metrics font) as [[]|m]; cbn.
    2:{ split; [reflexivity|]. split; [|reflexivity].
        intros line [H|[]]. discriminate H. }
    rewrite Hrun. cbn.
    split; [reflexivity|]. split; [intros line []|].
    intros. rewrite Hrun. reflexivity.
Qed.

(** X19.  Listing a WOFF2 file goes through fontkit only: the file is not
    read by the script, and neither the codec nor opentype.js is called.
    The process is stopped exactly when fontkit fails to open the file or
    the listing of its metrics throws. *)
Theorem woff2_listing_uses_fontkit_only (inputPath : string)
    (output : option string) (o : options.t) :
  existsSync inputPath = true ->
  toLowerCase (path_extname inputPath) = ".woff2" ->
  options.list o = true ->
  (exit_status (fst (main inputPath output o)) = None
   <-> exists fontkitFont,
         fontkit_open inputPath = Returned fontkitFont
         /\ list_fontkit fontkitFont = Returned tt)
  /\ forall (readFileSync' : string -> outcome Buffer)
       (decompress' : Buffer -> outcome Buffer)
       (log_decompressed' : Buffer -> outcome unit)
       (opentype_parse' : Buffer -> outcome Font)
       (list_metrics' : Font -> outcome unit)
       (toArrayBuffer' : Font -> result Buffer)
       (writeFileSync' : string -> Buffer -> result unit)
       (loadSync' : string -> outcome Font),
       main inputPath output o
       = Script.main path_parse path_join path_extname existsSync FontkitFont
           fontkit_open list_fontkit readFileSync' decompress' log_decompressed'
           opentype_parse' list_metrics' toArrayBuffer' writeFileSync' loadSync'
           inputPath output o.
Proof.
  intros He Hx Hlist.
  unfold Script.main, Script.loadFont, Script.isWoff2.
  rewrite He, Hx, Hlist, orb_true_r. cbn.
  destruct (fontkit_open inputPath) as [fk|m]; cbn.
  2:{ split; [|reflexivity].
      split; [intros [= ] | intros (fk & [= ] & _)]. }
  destruct (list_fontkit fk) as [[]|m] eqn:Hl; cbn.
  2:{ split; [|reflexivity].
      split; [intros [= ] | intros (fk' & [= <-] & H)]. congruence. }
  split; [|reflexivity].
  split; [intros _; exists fk; auto | reflexivity].
Qed.

(** X20.  An input whose extension does not read .woff2 in lower case is
    handled without fontkit and without the codec; when opentype.js fails
    to parse it, the message of the parser is reported as it is, nothing is
    written and the exit code is 1. *)
Theorem plain_input_skips_fontkit (inputPath : string) (output : option string)
    (o : options.t) :
  toLowerCase (path_extname inputPath) <> ".woff2" ->
  (forall fontBuffer message,
     existsSync inputPath = true ->
     readFileSync inputPath = Returned fontBuffer ->
     opentype_parse fontBuffer = Thrown message ->
     main inputPath output o = (exit1, [Script.ErrorProcessingFont message]))
  /\ forall (FontkitFont' : Type) (fontkit_open' : string -> outcome FontkitFont')
       (list_fontkit' : FontkitFont' -> outcome unit)
       (decompress' : Buffer -> outcome Buffer)
       (log_decompressed' : Buffer -> outcome unit),
       main inputPath output o
       = Script.main path_parse path_join path_extname existsSync FontkitFont'
           fontkit_open' list_fontkit' readFileSync decompress' log_decompressed'
           opentype_parse list_metrics toArrayBuffer writeFileSync loadSync
           inputPath output o.
Proof.
  intros Hx. apply String.eqb_neq in Hx.
  split.
  - intros b m He Hr Hp. unfold Script.main, Script.loadFont, Script.isWoff2.
    rewrite He, Hx, Hr. cbn. rewrite Hp. reflexivity.
  - intros. unfold Script.main, Script.loadFont, Script.afterSave, Script.isWoff2.
    rewrite Hx. reflexivity.
Qed.


(** X26.  A WOFF2 input given without -o, when every call to the outside
    returns, the write included, is saved beside the input under its name
    followed by -fixed.ttf; the process is not stopped, and the file has
    the length of what the serializer returned for the edited font. *)
Theorem woff2_is_saved_as_ttf (inputPath : string) (o : options.t)
    (fontkitFont : FontkitFont) (woff2Buffer ttfBuffer outputBuffer : Buffer)
    (font : Font) :
  existsSync inputPath = true ->
  toLowerCase (path_extname inputPath) = ".woff2" ->
  toLowerCase (ext (path_parse inputPath)) = ".woff2" ->
  options.list o = false ->
  fontkit_open inputPath = Returned fontkitFont ->
  (options.verbose o = true -> list_fontkit fontkitFont = Returned tt) ->
  readFileSync inputPath = Returned woff2Buffer ->
  decompress woff2Buffer = Returned ttfBuffer ->
  (options.verbose o = true -> log_decompressed ttfBuffer = Returned tt) ->
  opentype_parse ttfBuffer = Returned font ->
  (options.verbose o = true -> list_metrics font = Returned tt) ->
  toArrayBuffer (editedFont font (metricsOf o font)) = Ok outputBuffer ->
  (forall bytes,
     writeFileSync (path_join (dir (path_parse inputPath))
                      (name (path_parse inputPath) ++ "-fixed.ttf")) bytes
     = Ok tt) ->
  exists bytes,
    fst (main inputPath None o)
    = {| file_written :=
           Some (path_join (dir (path_parse inputPath))
                   (name (path_parse inputPath) ++ "-fixed.ttf"), bytes);
         exit_status := None |}
    /\ len bytes = len outputBuffer.
Proof.
  intros He Hx Hpx Hlist Hopen Hfk Hr Hd Hlog Hp Hlm Hser Hwrite.
  assert (Hv : forall (x : outcome unit),
            (options.verbose o = true -> x = Returned tt) ->
            (if options.verbose o then x else Returned tt) = Returned tt).
  { intros x H. destruct (options.verbose o); [apply H; reflexivity | reflexivity]. }
  assert (Hpath : Script.outputPath path_parse path_join inputPath None
                  = path_join (dir (path_parse inputPath))
                      (name (path_parse inputPath) ++ "-fixed.ttf")).
  { unfold Script.outputPath, generateOutputPath, outputExt. rewrite Hpx. reflexivity. }
  unfold Script.main, Script.loadFont, Script.isWoff2.
  remember (Script.outputPath path_parse path_join inputPath None) as path eqn:Epath.
  rewrite He, Hx, Hlist, Hopen. cbn.
  rewrite orb_false_r, (Hv _ Hfk). cbn. rewrite Hr. cbn. rewrite Hd. cbn.
  rewrite (Hv _ Hlog). cbn. rewrite Hp. cbn. rewrite (Hv _ Hlm). cbn.
  destruct (editAndSave_returns toArrayBuffer (writeFileSync path) o font [])
    as (run & out' & -> & [(Hl & _)|[(_ & _ & _ & [(e & Hthrow)|(buf & b' & e & _ & _ & Hwr)])|(_ & Hx1 & buf & b' & Hser' & Hw & Hlen & _)]]).
  - congruence.
  - congruence.
  - rewrite Hpath, Hwrite in Hwr. discriminate Hwr.
  - exists b'. cbn [fst]. rewrite Hw, Hx1. cbn [option_map].
    rewrite Hpath. split; [reflexivity | congruence].
Qed.

(** With listings that return, the load does not depend on the
    verbosity. *)
Lemma loadFont_whatever_verbose (inputPath : string) (o : options.t) (v : bool) :
  (forall fontkitFont, list_fontkit fontkitFont = Returned tt) ->
  (forall ttfBuffer, log_decompressed ttfBuffer = Returned tt) ->
  Script.loadFont path_extname FontkitFont fontkit_open list_fontkit readFileSync
    decompress log_decompressed opentype_parse inputPath (with_verbose v o)
  = Script.loadFont path_extname FontkitFont fontkit_open list_fontkit readFileSync
      decompress log_decompressed opentype_parse inputPath o.
Proof.
  intros Hfk Hlog.
  assert (Hi : forall (b : bool), (if b then Returned tt else Returned tt)
                                  = (Returned tt : outcome unit))
    by (intros []; reflexivity).
  unfold Script.loadFont. cbn [with_verbose options.verbose options.list].
  destruct (Script.isWoff2 path_extname inputPath); [|reflexivity].
  destruct (fontkit_open inputPath) as [fk|m]; cbn [Script.and_then]; [|reflexivity].
  rewrite (Hfk fk), !Hi. cbn [Script.and_then].
  destruct (options.list o); [reflexivity|].
  destruct (readFileSync inputPath) as [w|m]; cbn [Script.and_then]; [|reflexivity].
  destruct (decompress w) as [t|m]; cbn [Script.and_then]; [|reflexivity].
  rewrite (Hlog t), !Hi. reflexivity.
Qed.

(** X7.  When the listings that verbose mode adds return (the metrics that
    fontkit reads, the two lines about the decompressed bytes, the metrics
    of the parsed font), the verbosity only changes what is printed: the
    file that is written and the exit code are the same with and without
    it. *)
Theorem verbose_only_prints (inputPath : string) (output : option string)
    (o : options.t) (v : bool) :
  (forall fontkitFont, list_fontkit fontkitFont = Returned tt) ->
  (forall ttfBuffer, log_decompressed ttfBuffer = Returned tt) ->
  (forall font, list_metrics font = Returned tt) ->
  fst (main inputPath output (with_verbose v o)) = fst (main inputPath output o).
Proof.
  intros Hfk Hlog Hlm.
  assert (Hi : forall (b : bool), (if b then Returned tt else Returned tt)
                                  = (Returned tt : outcome unit))
    by (intros []; reflexivity).
  unfold Script.main. rewrite (loadFont_whatever_verbose inputPath o v Hfk Hlog).
  cbn [with_verbose options.verbose options.list].
  destruct (existsSync inputPath); cbn [negb]; [|reflexivity].
  destruct (Script.loadFont path_extname FontkitFont fontkit_open list_fontkit
              readFileSync decompress log_decompressed opentype_parse inputPath o)
    as [[font|]|m]; cbn [Script.and_then]; [|reflexivity|reflexivity].
  rewrite (Hlm font), !Hi. cbn [Script.and_then].
  destruct (editAndSave_whatever_verbose toArrayBuffer
              (writeFileSync (Script.outputPath path_parse path_join inputPath output))
              o v font [] [])
    as (run & l1 & l2 & -> & ->).
  reflexivity.
Qed.

End Main.

(** Inter.woff2, opened by fontkit and decompressed, but refused by the
    parser. *)
Lemma woff2_failures_are_reported_as_decompression_witness :
  Script.main (Paths.parsed_as "fonts" "Inter" ".woff2") Paths.joined (fun _ => ".woff2")
    (fun _ => true) unit (fun _ => Returned tt) (fun _ => Returned tt)
    (fun _ => Returned sample_sfnt) (fun b => Returned b) (fun _ => Returned tt)
    (fun _ => Thrown "Unsupported OpenType signature") (fun _ => Returned tt)
    (fun _ => Throw SerializerError) (fun _ _ => Ok tt) (fun _ => Thrown "not called")
    "fonts/Inter.woff2" None default_options
  = ({| file_written := None; exit_status := Some 1 |},
     [Script.ErrorProcessingFont
        "WOFF2 decompression failed: Unsupported OpenType signature"]).
Proof.
  apply (woff2_failures_are_reported_as_decompression
           (Paths.parsed_as "fonts" "Inter" ".woff2") Paths.joined (fun _ => ".woff2")
           (fun _ => true) unit (fun _ => Returned tt) (fun _ => Returned tt)
           (fun _ => Returned sample_sfnt) (fun b => Returned b) (fun _ => Returned tt)
           (fun _ => Thrown "Unsupported OpenType signature") (fun _ => Returned tt)
           (fun _ => Throw SerializerError) (fun _ _ => Ok tt)
           (fun _ => Thrown "not called")
           "fonts/Inter.woff2" None default_options
           tt "Unsupported OpenType signature");
    try reflexivity.
  right. right. exists sample_sfnt, sample_sfnt.
  split; [reflexivity|]. split; [reflexivity|].
  right. split; [reflexivity | reflexivity].
Defined.

(** Listing Inter.ttf. *)
Lemma listing_writes_nothing_witness :
  file_written
    (fst (Script.main (Paths.parsed_as "fonts" "Inter" ".ttf") Paths.joined
            (fun _ => ".ttf")
            (fun _ => true) unit (fun _ => Returned tt) (fun _ => Returned tt)
            (fun _ => Returned sample_sfnt) (fun b => Returned b)
            (fun _ => Returned tt) (fun _ => Returned sample_font)
            (fun _ => Returned tt) (fun _ => Ok sample_sfnt)
            (fun _ _ => Ok tt) (fun _ => Returned sample_font)
            "fonts/Inter.ttf" None list_options))
  = None.
Proof.
  exact (proj1 (listing_writes_nothing
                  (Paths.parsed_as "fonts" "Inter" ".ttf") Paths.joined
                  (fun _ => ".ttf")
                  (fun _ => true) unit (fun _ => Returned tt) (fun _ => Returned tt)
                  (fun _ => Returned sample_sfnt) (fun b => Returned b)
                  (fun _ => Returned tt) (fun _ => Returned sample_font)
                  (fun _ => Returned tt) (fun _ => Ok sample_sfnt)
                  (fun _ _ => Ok tt) (fun _ => Returned sample_font)
                  "fonts/Inter.ttf" None list_options eq_refl)).
Defined.

(** Listing Inter.WOFF2 when the file cannot be read by the script. *)
Lemma woff2_listing_uses_fontkit_only_witness :
  exit_status
    (fst (Script.main (Paths.parsed_as "fonts" "Inter" ".WOFF2") Paths.joined
            (fun _ => ".WOFF2")
            (fun _ => true) unit (fun _ => Returned tt) (fun _ => Returned tt)
            (fun _ => Thrown "EACCES") (fun b => Returned b)
            (fun _ => Returned tt) (fun _ => Returned sample_font)
            (fun _ => Returned tt) (fun _ => Ok sample_sfnt)
            (fun _ _ => Ok tt) (fun _ => Returned sample_font)
            "fonts/Inter.WOFF2" None list_options))
  = None.
Proof.
  apply (proj1 (woff2_listing_uses_fontkit_only
                  (Paths.parsed_as "fonts" "Inter" ".WOFF2") Paths.joined
                  (fun _ => ".WOFF2")
                  (fun _ => true) unit (fun _ => Returned tt) (fun _ => Returned tt)
                  (fun _ => Thrown "EACCES") (fun b => Returned b)
                  (fun _ => Returned tt) (fun _ => Returned sample_font)
                  (fun _ => Returned tt) (fun _ => Ok sample_sfnt)
                  (fun _ _ => Ok tt) (fun _ => Returned sample_font)
                  "fonts/Inter.WOFF2" None list_options eq_refl eq_refl eq_refl)).
  exists tt. split; reflexivity.
Defined.

(** Inter.ttf, refused by the parser. *)
Lemma plain_input_skips_fontkit_witness :
  Script.main (Paths.parsed_as "fonts" "Inter" ".ttf") Paths.joined (fun _ => ".ttf")
    (fun _ => true) unit (fun _ => Thrown "not called") (fun _ => Returned tt)
    (fun _ => Returned sample_sfnt) (fun b => Returned b) (fun _ => Returned tt)
    (fun _ => Thrown "Unsupported OpenType signature") (fun _ => Returned tt)
    (fun _ => Throw SerializerError) (fun _ _ => Ok tt) (fun _ => Thrown "not called")
    "fonts/Inter.ttf" None default_options
  = ({| file_written := None; exit_status := Some 1 |},
     [Script.ErrorProcessingFont "Unsupported OpenType signature"]).
Proof.
  assert (Hx : toLowerCase ".ttf" <> ".woff2") by discriminate.
  exact (proj1 (plain_input_skips_fontkit
                  (Paths.parsed_as "fonts" "Inter" ".ttf") Paths.joined
                  (fun _ => ".ttf")
                  (fun _ => true) unit (fun _ => Thrown "not called")
                  (fun _ => Returned tt)
                  (fun _ => Returned sample_sfnt) (fun b => Returned b)
                  (fun _ => Returned tt)
                  (fun _ => Thrown "Unsupported OpenType signature")
                  (fun _ => Returned tt)
                  (fun _ => Throw SerializerError) (fun _ _ => Ok tt)
                  (fun _ => Thrown "not called") "fonts/Inter.ttf" None
                  default_options Hx)
           sample_sfnt "Unsupported OpenType signature" eq_refl eq_refl eq_refl).
Defined.

(** Inter.woff2 with the defaults. *)
Lemma woff2_is_saved_as_ttf_witness :
  exists bytes,
    fst (Script.main (Paths.parsed_as "fonts" "Inter" ".woff2") Paths.joined
           (fun _ => ".woff2") (fun _ => true) unit (fun _ => Returned tt)
           (fun _ => Returned tt) (fun _ => Returned sample_sfnt)
           (fun b => Returned b) (fun _ => Returned tt)
           (fun _ => Returned sample_font) (fun _ => Returned tt)
           (fun _ => Ok sample_sfnt) (fun _ _ => Ok tt)
           (fun _ => Returned sample_font) "fonts/Inter.woff2" None default_options)
    = {| file_written := Some ("fonts/Inter-fixed.ttf", bytes);
         exit_status := None |}
    /\ len bytes = 64.
Proof.
  exact (woff2_is_saved_as_ttf
           (Paths.parsed_as "fonts" "Inter" ".woff2") Paths.joined
           (fun _ => ".woff2") (fun _ => true) unit (fun _ => Returned tt)
           (fun _ => Returned tt) (fun _ => Returned sample_sfnt)
           (fun b => Returned b) (fun _ => Returned tt)
           (fun _ => Returned sample_font) (fun _ => Returned tt)
           (fun _ => Ok sample_sfnt) (fun _ _ => Ok tt)
           (fun _ => Returned sample_font) "fonts/Inter.woff2" default_options
           tt sample_sfnt sample_sfnt sample_sfnt sample_font
           eq_refl eq_refl eq_refl eq_refl eq_refl (fun _ => eq_refl) eq_refl eq_refl
           (fun _ => eq_refl) eq_refl (fun _ => eq_refl) eq_refl (fun _ => eq_refl)).
Defined.

(** Inter.ttf with and without -v, when the listing returns. *)
Lemma verbose_only_prints_witness :
  fst (Script.main (Paths.parsed_as "fonts" "Inter" ".ttf") Paths.joined
         (fun _ => ".ttf") (fun _ => true) unit (fun _ => Returned tt)
         (fun _ => Returned tt) (fun _ => Returned sample_sfnt)
         (fun b => Returned b) (fun _ => Returned tt)
         (fun _ => Returned sample_font) (fun _ => Returned tt)
         (fun _ => Ok sample_sfnt) (fun _ _ => Ok tt)
         (fun _ => Returned sample_font) "fonts/Inter.ttf" None
         (with_verbose true default_options))
  = fst (Script.main (Paths.parsed_as "fonts" "Inter" ".ttf") Paths.joined
           (fun _ => ".ttf") (fun _ => true) unit (fun _ => Returned tt)
           (fun _ => Returned tt) (fun _ => Returned sample_sfnt)
           (fun b => Returned b) (fun _ => Returned tt)
           (fun _ => Returned sample_font) (fun _ => Returned tt)
           (fun _ => Ok sample_sfnt) (fun _ _ => Ok tt)
           (fun _ => Returned sample_font) "fonts/Inter.ttf" None default_options).
Proof.
  exact (verbose_only_prints
           (Paths.parsed_as "fonts" "Inter" ".ttf") Paths.joined
           (fun _ => ".ttf") (fun _ => true) unit (fun _ => Returned tt)
           (fun _ => Returned tt) (fun _ => Returned sample_sfnt)
           (fun b => Returned b) (fun _ => Returned tt)
           (fun _ => Returned sample_font) (fun _ => Returned tt)
           (fun _ => Ok sample_sfnt) (fun _ _ => Ok tt)
           (fun _ => Returned sample_font) "fonts/Inter.ttf" None default_options true
           (fun _ => eq_refl) (fun _ => eq_refl) (fun _ => eq_refl)).
Defined.

End ScriptFacts.

(** * The test harness *)

Module TestFormatsFacts.
Import Ascii String Names TestFormats.
Local Open Scope string_scope.

Lemma count_snoc (p : line -> bool) (l : list line) (x : line) :
  count p (l ++ [x])%list = count p l + indicator (p x).
Proof.
  unfold count, indicator. rewrite List.filter_app, List.length_app. cbn [List.filter].
  destruct (p x); cbn [List.length]; lia.
Qed.

Lemma count_nonneg (p : line -> bool) (l : list line) : 0 <= count p l.
Proof. unfold count. lia. Qed.

Lemma count_passed_pos (l : list line) :
  0 < count is_passed l <-> exists format, In (TestPassed format) l.
Proof.
  unfold count. induction l as [|x l IH]; cbn [List.filter].
  - cbn. split; [lia | intros (f & [])].
  - destruct x; cbn [is_passed];
      try (rewrite IH; split; intros (f & H);
           [exists f; right; exact H
           | destruct H as [H|H]; [discriminate H | exists f; exact H]]).
    split; [intros _; eexists; left; reflexivity | intros _; cbn [List.length]; lia].
Qed.

Lemma count_not_skip (l : list line) :
  count (fun x => negb (is_skip x)) l = Z.of_nat (List.length l) - count is_skip l.
Proof.
  unfold count. induction l as [|x l IH]; [reflexivity|].
  cbn [List.filter]. destruct (is_skip x); cbn [negb List.length]; lia.
Qed.

Lemma remove_same (fs : FS) (p : string) : remove fs p p = false.
Proof. unfold remove. rewrite String.eqb_refl. reflexivity. Qed.

Lemma remove_other (fs : FS) (p q : string) : q <> p -> remove fs p q = fs q.
Proof.
  intros H. unfold remove. apply String.eqb_neq in H. rewrite H. reflexivity.
Qed.

Section Harness.

Variable basename : string -> string -> string.
Variable extname : string -> string.
Variable execSync : command -> FS -> bool * FS.
Variable stat_throws : FS -> string -> bool.
Variable unlink_throws : site -> FS -> string -> bool.

Local Abbreviation outputFile := (TestFormats.outputFile basename extname).
Local Abbreviation unlinkSync := (TestFormats.unlinkSync unlink_throws).
Local Abbreviation cleanUp := (TestFormats.cleanUp unlink_throws).
Local Abbreviation caught := (TestFormats.caught basename extname unlink_throws).
Local Abbreviation verifyCaught :=
  (TestFormats.verifyCaught basename extname unlink_throws).
Local Abbreviation test :=
  (TestFormats.test basename extname execSync stat_throws unlink_throws).
Local Abbreviation run :=
  (TestFormats.run basename extname execSync stat_throws unlink_throws).

(** A call of [fs.unlinkSync] that returns has removed the path and
    nothing else; one that throws has changed nothing. *)
Lemma unlinkSync_returns (at_ : site) (fs fs' : FS) (p : string) :
  unlinkSync at_ fs p = Some fs' -> fs p = true /\ fs' = remove fs p.
Proof.
  unfold TestFormats.unlinkSync. destruct (fs p); cbn [andb]; [|discriminate].
  destruct (unlink_throws at_ fs p); cbn [negb]; [discriminate|].
  intros [= <-]. auto.
Qed.

Lemma cleanUp_returns (at_ : site) (fs fs' : FS) (p : string) :
  cleanUp at_ fs p = Some fs' ->
  fs' p = false /\ forall q, q <> p -> fs' q = fs q.
Proof.
  unfold TestFormats.cleanUp. destruct (fs p) eqn:E.
  - intros H. apply unlinkSync_returns in H. destruct H as (_ & ->).
    split; [apply remove_same | intros q Hq; apply remove_other, Hq].
  - intros [= <-]. auto.
Qed.

Lemma cleanUp_throws (at_ : site) (fs : FS) (p : string) :
  cleanUp at_ fs p = None -> fs p = true /\ unlink_throws at_ fs p = true.
Proof.
  unfold TestFormats.cleanUp, TestFormats.unlinkSync. destruct (fs p); cbn [andb].
  - destruct (unlink_throws at_ fs p); cbn [negb]; [auto | discriminate].
  - discriminate.
Qed.

(** Every branch of one turn of the loop. *)
Ltac turn :=
  unfold TestFormats.test, TestFormats.verifyCaught, TestFormats.caught,
    TestFormats.cleanUp, TestFormats.unlinkSync;
  repeat match goal with
         | |- context [match execSync ?c ?fs with _ => _ end] =>
             let ok := fresh "ok" in
             let fs' := fresh "fs" in
             let E := fresh "Ex" in
             destruct (execSync c fs) as [ok fs'] eqn:E; destruct ok
         | |- context [if ?b then _ else _] =>
             let E := fresh "E" in destruct b eqn:E
         | |- context [match expected ?f with _ => _ end] =>
             let E := fresh "Ee" in destruct (expected f) eqn:E
         end;
  cbn [passedTests totalTests knownIssues files printed crashed].

Lemma test_counted (s : State) (testFont : TestFont) :
  counted s -> counted (test s testFont).
Proof.
  intros (Hp & Hk & Hle & Hf). unfold counted, failedTests in *.
  turn; rewrite ?count_snoc; cbn [is_passed is_known is_failed indicator]; lia.
Qed.

Lemma test_total (s : State) (testFont : TestFont) :
  totalTests s <= totalTests (test s testFont) <= totalTests s + 1.
Proof. turn; lia. Qed.

Lemma test_counted_exactly (s : State) (testFont : TestFont) :
  unlink_returns unlink_throws ->
  counted_exactly s ->
  counted_exactly (test s testFont)
  /\ List.length (printed (test s testFont)) = S (List.length (printed s)).
Proof.
  intros Hu (Hc & Ht & Hf). unfold counted_exactly, failedTests in *.
  turn; try discriminate;
    repeat match goal with
           | H : _ && negb (unlink_throws ?a ?fs ?p) = false |- _ =>
               apply andb_false_iff in H; destruct H as [H|H];
               [congruence | rewrite (Hu a fs p) in H by assumption; discriminate H]
           end;
    rewrite ?count_snoc, ?List.length_app;
    cbn [is_passed is_known is_failed is_skip negb indicator List.length];
    (split; [repeat split; first [reflexivity | lia] | lia]).
Qed.

Lemma fold_counted (fonts : list TestFont) (s : State) :
  counted s ->
  counted (fold_left test fonts s)
  /\ totalTests (fold_left test fonts s) <= totalTests s + Z.of_nat (List.length fonts).
Proof.
  revert s. induction fonts as [|f fonts IH]; intros s Hs; cbn [fold_left].
  - split; [assumption | cbn; lia].
  - destruct (IH (test s f) (test_counted s f Hs)) as (Hc & Hle).
    split; [assumption|]. pose proof (test_total s f). cbn [List.length]. lia.
Qed.

Lemma fold_counted_exactly (fonts : list TestFont) (s : State) :
  unlink_returns unlink_throws ->
  counted_exactly s ->
  counted_exactly (fold_left test fonts s)
  /\ List.length (printed (fold_left test fonts s))
     = (List.length (printed s) + List.length fonts)%nat.
Proof.
  intros Hu. revert s. induction fonts as [|f fonts IH]; intros s Hs; cbn [fold_left].
  - split; [assumption | cbn; lia].
  - destruct (test_counted_exactly s f Hu Hs) as (Hs' & Hlen).
    destruct (IH (test s f) Hs') as (Hc & Hl).
    split; [assumption|]. rewrite Hl, Hlen. cbn [List.length]. lia.
Qed.

(** X22.  At the end of the harness passedTests and knownIssues count the
    verdicts of their kind, the number printed as failed is not negative
    and is at most the number of failure verdicts, and totalTests is at
    most the number of fonts.  When an exception has ended the harness the
    exit code is 1, whatever passed before; otherwise it is 0 exactly when
    some font passed.  When no unlinkSync throws, no exception ends the
    harness, every font of the list has one verdict, totalTests counts the
    fonts that were not skipped and the number printed as failed is the
    number of failure verdicts. *)
Theorem counters_count_verdicts (fonts : list TestFont) (fs : FS) :
  passedTests (run fonts fs) = count is_passed (printed (run fonts fs))
  /\ knownIssues (run fonts fs) = count is_known (printed (run fonts fs))
  /\ 0 <= failedTests (run fonts fs) <= count is_failed (printed (run fonts fs))
  /\ totalTests (run fonts fs) <= Z.of_nat (List.length fonts)
  /\ (crashed (run fonts fs) = true -> exit_code (run fonts fs) = 1)
  /\ (crashed (run fonts fs) = false ->
      (exit_code (run fonts fs) = 0
       <-> exists format, In (TestPassed format) (printed (run fonts fs)))
      /\ (exit_code (run fonts fs) = 1
          <-> forall format, ~ In (TestPassed format) (printed (run fonts fs))))
  /\ (unlink_returns unlink_throws ->
      crashed (run fonts fs) = false
      /\ List.length (printed (run fonts fs)) = List.length fonts
      /\ totalTests (run fonts fs)
         = Z.of_nat (List.length fonts) - count is_skip (printed (run fonts fs))
      /\ failedTests (run fonts fs) = count is_failed (printed (run fonts fs))).
Proof.
  assert (H0 : counted (start fs)).
  { unfold counted, failedTests, count.
    cbn [start passedTests totalTests knownIssues printed List.filter List.length].
    lia. }
  destruct (fold_counted fonts (start fs) H0) as ((Hp & Hk & Hle & Hf) & Ht).
  fold (run fonts fs) in *. cbn [start totalTests] in Ht.
  split; [assumption|]. split; [assumption|].
  split; [unfold failedTests in *; lia|].
  split; [lia|].
  split; [intros Hc; unfold exit_code; rewrite Hc; reflexivity|].
  split.
  { intros Hc. unfold exit_code. rewrite Hc, Hp.
    pose proof (count_passed_pos (printed (run fonts fs))) as Hpos.
    destruct (Z.ltb_spec 0 (count is_passed (printed (run fonts fs)))) as [Hlt|Hge].
    - split.
      + split; [intros _; apply Hpos; assumption | reflexivity].
      + split; [discriminate|].
        intros Hno. apply Hpos in Hlt. destruct Hlt as (f & Hin).
        exfalso. exact (Hno f Hin).
    - split.
      + split; [discriminate | intros Hex; apply Hpos in Hex; lia].
      + split; [|reflexivity].
        intros _ f Hin. assert (0 < count is_passed (printed (run fonts fs)))
          by (apply Hpos; exists f; exact Hin). lia. }
  intros Hu.
  assert (H1 : counted_exactly (start fs)).
  { unfold counted_exactly, failedTests, count.
    cbn [start passedTests totalTests knownIssues printed crashed List.filter List.length].
    split; [reflexivity | lia]. }
  destruct (fold_counted_exactly fonts (start fs) Hu H1) as ((Hc & Hx & Hfx) & Hlen).
  fold (run fonts fs) in *. cbn [start printed List.length] in Hlen.
  split; [assumption|]. split; [assumption|].
  split; [rewrite Hx, count_not_skip, Hlen; reflexivity | assumption].
Qed.

(** X23.  A turn of the loop for a font whose file exists counts the font,
    and its output file is left behind exactly when a throw of unlinkSync
    that nothing catches ends the harness in this turn; it is then the
    call in the catch of the body that threw.  When no unlinkSync throws,
    the turn leaves no output file behind, whatever the commands did and
    whatever the verdict is. *)
Theorem output_file_is_removed (s : State) (testFont : TestFont) :
  crashed s = false ->
  files s (file testFont) = true ->
  totalTests (test s testFont) = totalTests s + 1
  /\ files (test s testFont) (outputFile testFont) = crashed (test s testFont)
  /\ (crashed (test s testFont) = true ->
      unlink_throws InCatch (files (test s testFont)) (outputFile testFont) = true)
  /\ (unlink_returns unlink_throws ->
      files (test s testFont) (outputFile testFont) = false).
Proof.
  intros Hc He.
  assert (Hmain :
    totalTests (test s testFont) = totalTests s + 1
    /\ files (test s testFont) (outputFile testFont) = crashed (test s testFont)
    /\ (crashed (test s testFont) = true ->
        unlink_throws InCatch (files (test s testFont)) (outputFile testFont) = true)).
  { unfold TestFormats.test. rewrite Hc, He. cbn [negb].
    turn; rewrite ?remove_same;
      repeat match goal with
             | H : _ && _ = true |- _ => apply andb_true_iff in H; destruct H
             | H : true && negb ?b = false |- _ =>
                 cbn [andb] in H; apply negb_false_iff in H
             end;
      (split; [reflexivity|]); (split; [congruence|]);
      first [discriminate | intros _; assumption]. }
  destruct Hmain as (H1 & H2 & H3).
  split; [assumption|]. split; [assumption|]. split; [assumption|].
  intros Hu. rewrite H2.
  destruct (crashed (test s testFont)) eqn:E; [|reflexivity].
  rewrite (Hu InCatch _ _ H2) in H3. discriminate (H3 eq_refl).
Qed.

Lemma test_keeps (p : string) (s : State) (testFont : TestFont) :
  (forall c fs, snd (execSync c fs) p = fs p) ->
  p <> outputFile testFont ->
  files (test s testFont) p = files s p.
Proof.
  intros Hex Hne.
  turn; rewrite ?remove_other by assumption;
    repeat match goal with
           | H : execSync ?c ?fs = (_, ?fs') |- _ =>
               let K := fresh "K" in
               pose proof (Hex c fs) as K; rewrite H in K; cbn [snd] in K; clear H
           end;
    congruence.
Qed.

(** X24.  The harness deletes nothing but its own output files: a path
    that the commands do not touch and that is not the output file of a
    font of the list exists at the end exactly when it existed at the
    start. *)
Theorem harness_removes_only_outputs (p : string) (fonts : list TestFont) (fs : FS) :
  (forall c fs', snd (execSync c fs') p = fs' p) ->
  (forall testFont, In testFont fonts -> p <> outputFile testFont) ->
  files (run fonts fs) p = fs p.
Proof.
  intros Hex. unfold TestFormats.run.
  change (fs p) with (files (start fs) p). generalize (start fs).
  induction fonts as [|f fonts IH]; intros s Hne; cbn [fold_left]; [reflexivity|].
  rewrite IH by (intros g Hg; apply Hne; right; exact Hg).
  apply test_keeps; [assumption | apply Hne; left; reflexivity].
Qed.

Lemma test_all_fail (s : State) (testFont : TestFont) :
  (forall c fs, fst (execSync c fs) = false) ->
  passedTests (test s testFont) = passedTests s
  /\ (printed (test s testFont) = printed s
      \/ exists l, printed (test s testFont) = (printed s ++ [l])%list
                   /\ (l = Skip
                       \/ (l = KnownIssue (format testFont)
                           /\ expected testFont = KNOWN_ISSUE)
                       \/ (l = FailedError (format testFont)
                           /\ expected testFont = PASS))).
Proof.
  intros Hfail. unfold TestFormats.test.
  destruct (crashed s); [auto|].
  destruct (files s (file testFont)); cbn [negb].
  2:{ split; [reflexivity|]. right. eexists. split; [reflexivity|]. auto. }
  pose proof (Hfail (ListMetrics (file testFont)) (files s)) as H1.
  destruct (execSync (ListMetrics (file testFont)) (files s)) as [[] fs1];
    cbn [fst] in H1; [discriminate H1|].
  unfold TestFormats.caught.
  destruct (TestFormats.cleanUp _ _ _ _);
    cbn [passedTests printed]; (split; [reflexivity|]); right;
    eexists; (split; [reflexivity|]); destruct (expected testFont); auto.
Qed.

(** X25.  When every command fails, the harness ends with exit code 1
    even if every font of the list is declared a known issue: a font is
    skipped, or reported as a known issue when it is declared so, or
    reported as failed when it is expected to pass. *)
Theorem failing_commands_exit_1 (fonts : list TestFont) (fs : FS) :
  (forall c fs', fst (execSync c fs') = false) ->
  exit_code (run fonts fs) = 1
  /\ passedTests (run fonts fs) = 0
  /\ forall l, In l (printed (run fonts fs)) ->
       l = Skip
       \/ (exists testFont, In testFont fonts /\ expected testFont = KNOWN_ISSUE
                            /\ l = KnownIssue (format testFont))
       \/ (exists testFont, In testFont fonts /\ expected testFont = PASS
                            /\ l = FailedError (format testFont)).
Proof.
  intros Hfail.
  assert (H : forall s,
            passedTests (fold_left test fonts s) = passedTests s
            /\ forall l, In l (printed (fold_left test fonts s)) ->
                 In l (printed s)
                 \/ l = Skip
                 \/ (exists testFont, In testFont fonts
                                      /\ expected testFont = KNOWN_ISSUE
                                      /\ l = KnownIssue (format testFont))
                 \/ (exists testFont, In testFont fonts
                                      /\ expected testFont = PASS
                                      /\ l = FailedError (format testFont))).
  { induction fonts as [|f fonts IH]; intros s; cbn [fold_left]; [auto|].
    destruct (IH (test s f)) as (Hp & Hl).
    destruct (test_all_fail s f Hfail) as (Hp1 & Hcase).
    split; [congruence|].
    intros l Hin. destruct (Hl l Hin) as [H|[H|[(g & Hg & Hr)|(g & Hg & Hr)]]].
    - destruct Hcase as [Hsame|(l1 & Hl1 & Hcase)]; [rewrite Hsame in H; auto|].
      rewrite Hl1 in H. apply in_app_or in H. destruct H as [H|[<-|[]]]; [auto|].
      destruct Hcase as [->|[(-> & He)|(-> & He)]]; [auto| |].
      + right. right. left. exists f. split; [left; reflexivity | auto].
      + right. right. right. exists f. split; [left; reflexivity | auto].
    - auto.
    - right. right. left. exists g. split; [right; exact Hg | exact Hr].
    - right. right. right. exists g. split; [right; exact Hg | exact Hr]. }
  destruct (H (start fs)) as (Hp & Hl). fold (run fonts fs) in *.
  cbn in Hp.
  split; [unfold exit_code; rewrite Hp; destruct (crashed _); reflexivity|].
  split; [assumption|].
  intros l Hin. destruct (Hl l Hin) as [[]|Hc]. exact Hc.
Qed.

End Harness.

(** The list of the harness, with commands that succeed and create every
    file, when unlinkSync throws on the output file of the second font:
    the first font has passed, the second one gets two verdicts, and the
    exception of the third call ends the harness with exit code 1. *)
Lemma counters_count_verdicts_witness :
  exit_code (TestFormats.run (fun p _ => p) (fun _ => "")
               (fun _ _ => (true, fun _ => true)) (fun _ _ => false)
               (fun _ _ p => p =? "test-output-test-fonts/Roboto-Regular.ttf.ttf")
               testFonts (fun _ => true))
  = 1
  /\ printed (TestFormats.run (fun p _ => p) (fun _ => "")
                (fun _ _ => (true, fun _ => true)) (fun _ _ => false)
                (fun _ _ p => p =? "test-output-test-fonts/Roboto-Regular.ttf.ttf")
                testFonts (fun _ => true))
     = [TestPassed "WOFF2"; FailedCannotRead "TTF"; KnownIssue "TTF"].
Proof.
  split; [|vm_compute; reflexivity].
  destruct (counters_count_verdicts (fun p _ => p) (fun _ => "")
              (fun _ _ => (true, fun _ => true)) (fun _ _ => false)
              (fun _ _ p => p =? "test-output-test-fonts/Roboto-Regular.ttf.ttf")
              testFonts (fun _ => true))
    as (_ & _ & _ & _ & Hcrash & _).
  apply Hcrash. vm_compute. reflexivity.
Defined.

(** The first font of the list, with commands that succeed and create
    every file, when no unlinkSync throws. *)
Lemma output_file_is_removed_witness :
  files (TestFormats.test (fun _ _ => "trade-gothic-next-thin") (fun _ => ".woff2")
           (fun _ _ => (true, fun _ => true)) (fun _ _ => false)
           (fun _ _ _ => false)
           (start (fun _ => true))
           {| file := "trade-gothic-next-thin.woff2"; format := "WOFF2";
              description := "Trade Gothic Next Thin (Known working font)";
              expected := PASS |})
    "test-output-trade-gothic-next-thin.ttf"
  = false.
Proof.
  apply (output_file_is_removed
           (fun _ _ => "trade-gothic-next-thin") (fun _ => ".woff2")
           (fun _ _ => (true, fun _ => true)) (fun _ _ => false)
           (fun _ _ _ => false)
           (start (fun _ => true))
           {| file := "trade-gothic-next-thin.woff2"; format := "WOFF2";
              description := "Trade Gothic Next Thin (Known working font)";
              expected := PASS |} eq_refl eq_refl).
  intros at_ fs p _. reflexivity.
Defined.

(** The input of the first font survives the run over the list of the
    harness, with commands that succeed and leave the files alone. *)
Lemma harness_removes_only_outputs_witness :
  files (TestFormats.run (fun p _ => p) (fun _ => "") (fun _ fs => (true, fs))
           (fun _ _ => false) (fun _ _ _ => false) testFonts (fun _ => true))
    "trade-gothic-next-thin.woff2"
  = true.
Proof.
  apply (harness_removes_only_outputs (fun p _ => p) (fun _ => "")
           (fun _ fs => (true, fs)) (fun _ _ => false) (fun _ _ _ => false)
           "trade-gothic-next-thin.woff2" testFonts (fun _ => true)).
  - intros c fs'. reflexivity.
  - intros testFont [<-|[<-|[<-|[<-|[<-|[]]]]]]; discriminate.
Defined.

(** The list of the harness when every command fails. *)
Lemma failing_commands_exit_1_witness :
  exit_code (TestFormats.run (fun p _ => p) (fun _ => "") (fun _ fs => (false, fs))
               (fun _ _ => false) (fun _ _ _ => false) testFonts (fun _ => true))
  = 1.
Proof.
  apply (failing_commands_exit_1 (fun p _ => p) (fun _ => "")
           (fun _ fs => (false, fs)) (fun _ _ => false) (fun _ _ _ => false)
           testFonts (fun _ => true)).
  intros c fs'. reflexivity.
Defined.

End TestFormatsFacts.
